(** * llm-test: the load-test engine of [engine/engine.go]

    A shallow embedding of the measurement core: the matrix driver [Run], the
    per-cell scheduler [runTestWithConcurrency] with its worker pool, and the
    percentile reducer [calculatePercentile]; and, around it, of what feeds
    and reads it: [LoadConfig] and [validateConfig] of package [config],
    [InitializeModels] and the choice of HTTP client of package [model],
    [NewTestEngine], and [getAllPercentiles] of package [report].

    Conventions.
    - Go's [int], [int64] and [time.Duration] are 64-bit two's complement
      integers: values are in [Z], arithmetic wraps ([Int64.add]).
    - [float64] is IEEE-754 binary64 as specified by the standard library's
      [SpecFloat] (precision 53, [emax] 1024, round to nearest even).
    - Slices live in a heap of backing arrays, so that aliasing between
      [latencies], [result.AllLatencies] and the sorted copy is visible.
    - Goroutines are interleaved by an explicit schedule: a list of labels,
      one atomic action of the dispatcher or of one worker per label. *)

From Stdlib Require Import ZArith Lia Floats.SpecFloat.
From stdpp Require Import gmap strings list fin_maps sorting pretty.

(** ** Panics and results *)

Inductive panic := DivideByZero | IndexOutOfRange | MakeChanSize.

Inductive go_result (A : Type) :=
  | Returned (a : A)
  | Panicked (p : panic).
Arguments Returned {A} a.
Arguments Panicked {A} p.

(** ** 64-bit integers *)

Module Int64.
Local Open Scope Z_scope.

Definition wrap (z : Z) : Z := (z + 2 ^ 63) mod 2 ^ 64 - 2 ^ 63.

Definition add (a b : Z) : Z := wrap (a + b).

(** Go's [/] on integers truncates toward zero and panics on a zero divisor. *)
Definition quot (a b : Z) : go_result Z :=
  if b =? 0 then Panicked DivideByZero else Returned (wrap (Z.quot a b)).

End Int64.

(** ** binary64 *)

Module Float64.
Local Open Scope Z_scope.

Definition prec : Z := 53.
Definition emax : Z := 1024.

Definition zero : spec_float := S754_zero false.

(** [float64(z)] for an integer [z]. *)
Definition of_int (z : Z) : spec_float := binary_normalize prec emax z 0 false.

Definition mul : spec_float -> spec_float -> spec_float := SFmul prec emax.
Definition div : spec_float -> spec_float -> spec_float := SFdiv prec emax.
Definition add : spec_float -> spec_float -> spec_float := SFadd prec emax.

(** [int(x)]: the fraction is discarded.  Outside the range of [int] (and for
    NaN and infinities) Go leaves the result to the implementation: [None]. *)
Definition to_int (x : spec_float) : option Z :=
  match x with
  | S754_zero _ => Some 0
  | S754_finite s m e =>
      let a := Z.shiftl (Zpos m) e in
      let v := if s then - a else a in
      if (- 2 ^ 63 <=? v) && (v <? 2 ^ 63) then Some v else None
  | _ => None
  end.

End Float64.

(** ** [time.Duration] *)

Module Duration.
Local Open Scope Z_scope.

Definition Second : Z := 1000000000.

(** [func (d Duration) Seconds() float64] of package [time]:
    [sec := d / Second; nsec := d % Second;
     return float64(sec) + float64(nsec)/1e9]. *)
Definition Seconds (d : Z) : spec_float :=
  let sec := Z.quot d Second in
  let nsec := Z.rem d Second in
  Float64.add (Float64.of_int sec)
              (Float64.div (Float64.of_int nsec) (Float64.of_int 1000000000)).

End Duration.

(** ** Slices of [time.Duration] in a heap of backing arrays *)

Module Slice.
Local Open Scope Z_scope.

Definition loc := positive.
Abbreviation heap := (gmap loc (list Z)).

(** A slice header: [None] is the nil slice, [Some l] spans the whole array
    at [l] (the program never re-slices). *)
Definition slice := option loc.

Definition contents (h : heap) (s : slice) : list Z :=
  match s with
  | None => []
  | Some l => default [] (h !! l)
  end.

Definition len (h : heap) (s : slice) : Z := Z.of_nat (length (contents h s)).

(** [make([]time.Duration, n)]: a fresh zeroed array. *)
Definition make (h : heap) (n : nat) : heap * slice :=
  let l := fresh (dom h) in (<[l := replicate n 0]> h, Some l).

(** [copy(dst, src)]: the first [min(len(dst), len(src))] elements. *)
Definition copy (h : heap) (dst src : slice) : heap :=
  match dst with
  | None => h
  | Some l =>
      let d := contents h dst in
      let s := contents h src in
      <[l := take (length d) s ++ drop (length s) d]> h
  end.

(** [sort.Slice(s, func(i, j int) bool { return s[i] < s[j] })]: sorts the
    array in place.  The keys are integers under their strict total order,
    so the result is the one ascending arrangement of the elements. *)
Definition sort_Slice (h : heap) (s : slice) : heap :=
  match s with
  | None => h
  | Some l => <[l := merge_sort Z.le (contents h s)]> h
  end.

(** [s = append(s, x)] on a slice variable that holds the only reference to
    its array: growing in place and moving to a larger array are then
    indistinguishable, so the array keeps its address. *)
Definition append (h : heap) (s : slice) (x : Z) : heap * slice :=
  match s with
  | None => let l := fresh (dom h) in (<[l := [x]]> h, Some l)
  | Some l => (<[l := contents h s ++ [x]]> h, s)
  end.

(** [s[i]] with its bounds check. *)
Definition index (h : heap) (s : slice) (i : Z) : go_result Z :=
  if (0 <=? i) && (i <? len h s)
  then match contents h s !! Z.to_nat i with
       | Some v => Returned v
       | None => Panicked IndexOutOfRange
       end
  else Panicked IndexOutOfRange.

End Slice.

Module Engine.
Import Slice.
Local Open Scope Z_scope.

(** ** Configuration and model interface *)

(** [config.TestConfig]. *)
Module Config.
Record TestConfig := {
  Concurrency : Z;
  Duration : Z;
  WarmupDuration : Z;
  RequestTimeout : Z;
  ConcurrencyLevels : list Z;
  ShowProgress : bool;
  MaxRetries : Z;
  LatencyPercentiles : list Z
}.
End Config.
Abbreviation TestConfig := Config.TestConfig.

(** The part of [model.LLMModel] the engine reads.  [GenerateResponse] is the
    environment: its results arrive as schedule labels. *)
Record LLMModel := {
  GetName : string;
  GetConcurrencyLevels : list Z;
  GetStreamSetting : option bool
}.

(** The fields of [model.LLMResponse] the engine reads. *)
Record LLMResponse := {
  resp_InputTokens : Z;
  resp_OutputTokens : Z
}.

(** What one call of [GenerateResponse] returns: [(resp, nil)] or
    [(nil, err)], with [err.Error()]. *)
Inductive response :=
  | Resp (r : LLMResponse)
  | Error (msg : string).

(** ** [TestResult] *)

Record TestResult := {
  ModelName : string;
  ConcurrencyLevel : Z;
  TotalRequests : Z;
  SuccessRequests : Z;
  FailedRequests : Z;
  TotalDuration : Z;
  AvgLatency : Z;
  InputTokens : Z;
  OutputTokens : Z;
  TotalTokens : Z;
  AvgInputTokens : spec_float;
  AvgOutputTokens : spec_float;
  AvgTotalTokens : spec_float;
  RequestsPerSec : spec_float;
  TokensPerSec : spec_float;
  Errors : list string;
  LatencyPercentiles : option (gmap Z Z);
  AllLatencies : slice
}.

(** [&TestResult{ModelName: modelName, ConcurrencyLevel: concurrency,
    Errors: make([]string, 0)}]: every other field has its zero value. *)
Definition newTestResult (modelName : string) (concurrency : Z) : TestResult :=
  {| ModelName := modelName; ConcurrencyLevel := concurrency;
     TotalRequests := 0; SuccessRequests := 0; FailedRequests := 0;
     TotalDuration := 0; AvgLatency := 0;
     InputTokens := 0; OutputTokens := 0; TotalTokens := 0;
     AvgInputTokens := Float64.zero; AvgOutputTokens := Float64.zero;
     AvgTotalTokens := Float64.zero;
     RequestsPerSec := Float64.zero; TokensPerSec := Float64.zero;
     Errors := []; LatencyPercentiles := None; AllLatencies := None |}.

(** ** [calculatePercentile] *)

(** [int(float64(n-1) * float64(percentile) / 100.0)] for [n] the length of
    the sorted copy. *)
Definition percentileIndex (n percentile : Z) : option Z :=
  Float64.to_int
    (Float64.div
       (Float64.mul (Float64.of_int (n - 1)) (Float64.of_int percentile))
       (Float64.of_int 100)).

Definition calculatePercentile (h : heap) (latencies : slice) (percentile : Z)
  : heap * go_result Z :=
  let '(h1, sortedLatencies) := make h (length (contents h latencies)) in
  let h2 := copy h1 sortedLatencies latencies in
  let h3 := sort_Slice h2 sortedLatencies in
  let index := percentileIndex (len h3 sortedLatencies) percentile in
  (h3, match index with
       | Some i => Slice.index h3 sortedLatencies i
       | None => Panicked IndexOutOfRange
       end).

(** ** One cell: the concurrent phase of [runTestWithConcurrency] *)

(** Program points of a worker goroutine, one per atomic action of the loop
    body. *)
Inductive worker :=
  | WRange                                  (* [for range jobs] *)
  | WAcquire                                (* [sem <- struct{}{}] *)
  | WInvoke                                 (* inside [mdl.GenerateResponse] *)
  | WAppend (latency : Z) (r : response)    (* [latencies = append(latencies, latency)], under the mutex *)
  | WCount (latency : Z) (r : response)     (* [if err != nil]: [AddInt64] on [failedCount] or [successCount] *)
  | WErrLoad (msg : string)                 (* [append(result.Errors, ...)]: reads [result.Errors] *)
  | WErrStore (seen : list string) (msg : string) (* [result.Errors = ...]: writes it back *)
  | WLatency (latency : Z) (r : LLMResponse) (* [AddInt64(&totalLatency, int64(latency))] *)
  | WInput (r : LLMResponse)                (* [AddInt64(&inputTokens, int64(resp.InputTokens))] *)
  | WOutput (r : LLMResponse)               (* [AddInt64(&outputTokens, int64(resp.OutputTokens))] *)
  | WRelease                                (* [cancel(); <-sem] *)
  | WExit.                                  (* [wg.Done()] *)

(** Program points of the dispatching goroutine. *)
Inductive dispatcher :=
  | DSelect        (* [select { case <-timeout: ... default: ... }] *)
  | DSend          (* [jobs <- struct{}{}] *)
  | DCount         (* [requestCount++] *)
  | DClose         (* [close(jobs)] *)
  | DWait          (* [wg.Wait()] *)
  | DJoined.       (* all workers have exited *)

Record cell := {
  jobs : nat;                (* tokens buffered in the channel [jobs] *)
  closed : bool;             (* [jobs] has been closed *)
  sem : nat;                 (* slots taken in the channel [sem] *)
  fired : bool;              (* the [time.After] channel is ready *)
  disp : dispatcher;
  requestCount : Z;
  workers : list worker;
  successCount : Z;
  failedCount : Z;
  totalLatency : Z;
  inputTokens : Z;
  outputTokens : Z;
  latencies : slice;
  mem : heap;
  errors : list string       (* [result.Errors] *)
}.

Definition set_jobs (n : nat) (s : cell) : cell :=
  {| jobs := n; closed := closed s; sem := sem s; fired := fired s; disp := disp s;
     requestCount := requestCount s; workers := workers s;
     successCount := successCount s; failedCount := failedCount s;
     totalLatency := totalLatency s; inputTokens := inputTokens s;
     outputTokens := outputTokens s; latencies := latencies s; mem := mem s;
     errors := errors s |}.

Definition set_closed (b : bool) (s : cell) : cell :=
  {| jobs := jobs s; closed := b; sem := sem s; fired := fired s; disp := disp s;
     requestCount := requestCount s; workers := workers s;
     successCount := successCount s; failedCount := failedCount s;
     totalLatency := totalLatency s; inputTokens := inputTokens s;
     outputTokens := outputTokens s; latencies := latencies s; mem := mem s;
     errors := errors s |}.

Definition set_sem (n : nat) (s : cell) : cell :=
  {| jobs := jobs s; closed := closed s; sem := n; fired := fired s; disp := disp s;
     requestCount := requestCount s; workers := workers s;
     successCount := successCount s; failedCount := failedCount s;
     totalLatency := totalLatency s; inputTokens := inputTokens s;
     outputTokens := outputTokens s; latencies := latencies s; mem := mem s;
     errors := errors s |}.

Definition set_fired (b : bool) (s : cell) : cell :=
  {| jobs := jobs s; closed := closed s; sem := sem s; fired := b; disp := disp s;
     requestCount := requestCount s; workers := workers s;
     successCount := successCount s; failedCount := failedCount s;
     totalLatency := totalLatency s; inputTokens := inputTokens s;
     outputTokens := outputTokens s; latencies := latencies s; mem := mem s;
     errors := errors s |}.

Definition set_disp (d : dispatcher) (s : cell) : cell :=
  {| jobs := jobs s; closed := closed s; sem := sem s; fired := fired s; disp := d;
     requestCount := requestCount s; workers := workers s;
     successCount := successCount s; failedCount := failedCount s;
     totalLatency := totalLatency s; inputTokens := inputTokens s;
     outputTokens := outputTokens s; latencies := latencies s; mem := mem s;
     errors := errors s |}.

Definition set_requestCount (n : Z) (s : cell) : cell :=
  {| jobs := jobs s; closed := closed s; sem := sem s; fired := fired s; disp := disp s;
     requestCount := n; workers := workers s;
     successCount := successCount s; failedCount := failedCount s;
     totalLatency := totalLatency s; inputTokens := inputTokens s;
     outputTokens := outputTokens s; latencies := latencies s; mem := mem s;
     errors := errors s |}.

Definition set_worker (i : nat) (w : worker) (s : cell) : cell :=
  {| jobs := jobs s; closed := closed s; sem := sem s; fired := fired s; disp := disp s;
     requestCount := requestCount s; workers := <[i := w]> (workers s);
     successCount := successCount s; failedCount := failedCount s;
     totalLatency := totalLatency s; inputTokens := inputTokens s;
     outputTokens := outputTokens s; latencies := latencies s; mem := mem s;
     errors := errors s |}.

Definition set_successCount (n : Z) (s : cell) : cell :=
  {| jobs := jobs s; closed := closed s; sem := sem s; fired := fired s; disp := disp s;
     requestCount := requestCount s; workers := workers s;
     successCount := n; failedCount := failedCount s;
     totalLatency := totalLatency s; inputTokens := inputTokens s;
     outputTokens := outputTokens s; latencies := latencies s; mem := mem s;
     errors := errors s |}.

Definition set_failedCount (n : Z) (s : cell) : cell :=
  {| jobs := jobs s; closed := closed s; sem := sem s; fired := fired s; disp := disp s;
     requestCount := requestCount s; workers := workers s;
     successCount := successCount s; failedCount := n;
     totalLatency := totalLatency s; inputTokens := inputTokens s;
     outputTokens := outputTokens s; latencies := latencies s; mem := mem s;
     errors := errors s |}.

Definition set_totalLatency (n : Z) (s : cell) : cell :=
  {| jobs := jobs s; closed := closed s; sem := sem s; fired := fired s; disp := disp s;
     requestCount := requestCount s; workers := workers s;
     successCount := successCount s; failedCount := failedCount s;
     totalLatency := n; inputTokens := inputTokens s;
     outputTokens := outputTokens s; latencies := latencies s; mem := mem s;
     errors := errors s |}.

Definition set_inputTokens (n : Z) (s : cell) : cell :=
  {| jobs := jobs s; closed := closed s; sem := sem s; fired := fired s; disp := disp s;
     requestCount := requestCount s; workers := workers s;
     successCount := successCount s; failedCount := failedCount s;
     totalLatency := totalLatency s; inputTokens := n;
     outputTokens := outputTokens s; latencies := latencies s; mem := mem s;
     errors := errors s |}.

Definition set_outputTokens (n : Z) (s : cell) : cell :=
  {| jobs := jobs s; closed := closed s; sem := sem s; fired := fired s; disp := disp s;
     requestCount := requestCount s; workers := workers s;
     successCount := successCount s; failedCount := failedCount s;
     totalLatency := totalLatency s; inputTokens := inputTokens s;
     outputTokens := n; latencies := latencies s; mem := mem s;
     errors := errors s |}.

Definition set_latencies (hs : heap * slice) (s : cell) : cell :=
  {| jobs := jobs s; closed := closed s; sem := sem s; fired := fired s; disp := disp s;
     requestCount := requestCount s; workers := workers s;
     successCount := successCount s; failedCount := failedCount s;
     totalLatency := totalLatency s; inputTokens := inputTokens s;
     outputTokens := outputTokens s; latencies := snd hs; mem := fst hs;
     errors := errors s |}.

Definition set_errors (es : list string) (s : cell) : cell :=
  {| jobs := jobs s; closed := closed s; sem := sem s; fired := fired s; disp := disp s;
     requestCount := requestCount s; workers := workers s;
     successCount := successCount s; failedCount := failedCount s;
     totalLatency := totalLatency s; inputTokens := inputTokens s;
     outputTokens := outputTokens s; latencies := latencies s; mem := mem s;
     errors := es |}.

(** Capacity of the dispatch channel: [make(chan struct{}, concurrency*2)]. *)
Definition jobsCap (concurrency : Z) : Z := Int64.wrap (concurrency * 2).

(** One atomic action of worker [i]; [None] when the worker is blocked, is
    inside the invocation, or has exited. *)
Definition work (concurrency : Z) (i : nat) (s : cell) : option cell :=
  match workers s !! i with
  | None => None
  | Some WRange =>
      match jobs s with
      | S n => Some (set_worker i WAcquire (set_jobs n s))
      | O => if closed s then Some (set_worker i WExit s) else None
      end
  | Some WAcquire =>
      if Z.of_nat (sem s) <? concurrency
      then Some (set_worker i WInvoke (set_sem (S (sem s)) s))
      else None
  | Some WInvoke => None
  | Some (WAppend latency r) =>
      Some (set_worker i (WCount latency r)
              (set_latencies (append (mem s) (latencies s) latency) s))
  | Some (WCount latency (Error msg)) =>
      Some (set_worker i (WErrLoad msg)
              (set_failedCount (Int64.add (failedCount s) 1) s))
  | Some (WCount latency (Resp r)) =>
      Some (set_worker i (WLatency latency r)
              (set_successCount (Int64.add (successCount s) 1) s))
  | Some (WErrLoad msg) => Some (set_worker i (WErrStore (errors s) msg) s)
  | Some (WErrStore seen msg) =>
      Some (set_worker i WRelease (set_errors (seen ++ [msg]) s))
  | Some (WLatency latency r) =>
      Some (set_worker i (WInput r)
              (set_totalLatency (Int64.add (totalLatency s) latency) s))
  | Some (WInput r) =>
      Some (set_worker i (WOutput r)
              (set_inputTokens (Int64.add (inputTokens s) (resp_InputTokens r)) s))
  | Some (WOutput r) =>
      Some (set_worker i WRelease
              (set_outputTokens (Int64.add (outputTokens s) (resp_OutputTokens r)) s))
  | Some WRelease =>
      match sem s with
      | S n => Some (set_worker i WRange (set_sem n s))
      | O => None
      end
  | Some WExit => None
  end.

(** [GenerateResponse] returns to worker [i] after [latency] with [r]. *)
Definition ret (i : nat) (latency : Z) (r : response) (s : cell) : option cell :=
  match workers s !! i with
  | Some WInvoke => Some (set_worker i (WAppend latency r) s)
  | _ => None
  end.

Definition exited (w : worker) : bool :=
  match w with WExit => true | _ => false end.

(** One atomic action of the dispatching goroutine. *)
Definition dispatch (concurrency : Z) (s : cell) : option cell :=
  match disp s with
  | DSelect => Some (set_disp (if fired s then DClose else DSend) s)
  | DSend =>
      if Z.of_nat (jobs s) <? jobsCap concurrency
      then Some (set_disp DCount (set_jobs (S (jobs s)) s))
      else None
  | DCount =>
      Some (set_disp DSelect (set_requestCount (Int64.add (requestCount s) 1) s))
  | DClose => Some (set_disp DWait (set_closed true s))
  | DWait => if forallb exited (workers s) then Some (set_disp DJoined s) else None
  | DJoined => None
  end.

Inductive label :=
  | Fire                                            (* the duration timer fires *)
  | Dispatch                                        (* the dispatcher moves *)
  | Work (i : nat)                                  (* worker [i] moves *)
  | Return (i : nat) (latency : Z) (r : response).  (* worker [i]'s invocation returns *)

Definition step (concurrency : Z) (l : label) (s : cell) : option cell :=
  match l with
  | Fire => if fired s then None else Some (set_fired true s)
  | Dispatch => dispatch concurrency s
  | Work i => work concurrency i s
  | Return i latency r => ret i latency r s
  end.

Definition run (concurrency : Z) (tr : list label) (s : cell) : option cell :=
  foldl (fun (o : option cell) (l : label) => o ≫= step concurrency l) (Some s) tr.

(** The state in which the goroutines are started: both channels made (a
    negative capacity panics), [concurrency] workers spawned, counters zero,
    [latencies] nil. *)
Definition start (concurrency : Z) (result : TestResult) (h : heap) : go_result cell :=
  if (jobsCap concurrency <? 0) || (concurrency <? 0)
  then Panicked MakeChanSize
  else Returned
    {| jobs := 0; closed := false; sem := 0; fired := false; disp := DSelect;
       requestCount := 0; workers := replicate (Z.to_nat concurrency) WRange;
       successCount := 0; failedCount := 0; totalLatency := 0;
       inputTokens := 0; outputTokens := 0; latencies := None; mem := h;
       errors := Errors result |}.

(** ** Aggregation: the sequential tail of [runTestWithConcurrency] *)

(** [result.TotalRequests += requestCount] and the three lines after it;
    [result.Errors] is what the workers left there. *)
Definition addCounts (s : cell) (totalDuration : Z) (result : TestResult) : TestResult :=
  {| ModelName := ModelName result; ConcurrencyLevel := ConcurrencyLevel result;
     TotalRequests := Int64.add (TotalRequests result) (requestCount s);
     SuccessRequests := Int64.add (SuccessRequests result) (successCount s);
     FailedRequests := Int64.add (FailedRequests result) (failedCount s);
     TotalDuration := Int64.add (TotalDuration result) totalDuration;
     AvgLatency := AvgLatency result;
     InputTokens := InputTokens result; OutputTokens := OutputTokens result;
     TotalTokens := TotalTokens result;
     AvgInputTokens := AvgInputTokens result;
     AvgOutputTokens := AvgOutputTokens result;
     AvgTotalTokens := AvgTotalTokens result;
     RequestsPerSec := RequestsPerSec result; TokensPerSec := TokensPerSec result;
     Errors := errors s; LatencyPercentiles := LatencyPercentiles result;
     AllLatencies := AllLatencies result |}.

(** The body of [if successCount > 0 { ... }]. *)
Definition addAverages (s : cell) (totalDuration : Z) (result : TestResult)
  : go_result TestResult :=
  match Int64.quot (totalLatency s) (successCount s) with
  | Panicked p => Panicked p
  | Returned avgLatency =>
      let input := Int64.add (InputTokens result) (inputTokens s) in
      let output := Int64.add (OutputTokens result) (outputTokens s) in
      let total := Int64.add (TotalTokens result)
                             (Int64.add (inputTokens s) (outputTokens s)) in
      let successes := Float64.of_int (SuccessRequests result) in
      let seconds := Duration.Seconds totalDuration in
      Returned
        {| ModelName := ModelName result; ConcurrencyLevel := ConcurrencyLevel result;
           TotalRequests := TotalRequests result;
           SuccessRequests := SuccessRequests result;
           FailedRequests := FailedRequests result;
           TotalDuration := TotalDuration result;
           AvgLatency := avgLatency;
           InputTokens := input; OutputTokens := output; TotalTokens := total;
           AvgInputTokens := Float64.div (Float64.of_int input) successes;
           AvgOutputTokens := Float64.div (Float64.of_int output) successes;
           AvgTotalTokens := Float64.div (Float64.of_int total) successes;
           RequestsPerSec := Float64.div successes seconds;
           TokensPerSec := Float64.div (Float64.of_int total) seconds;
           Errors := Errors result; LatencyPercentiles := LatencyPercentiles result;
           AllLatencies := AllLatencies result |}
  end.

(** [result.AllLatencies = latencies]: the header is copied, the array is
    shared. *)
Definition storeLatencies (sl : slice) (result : TestResult) : TestResult :=
  {| ModelName := ModelName result; ConcurrencyLevel := ConcurrencyLevel result;
     TotalRequests := TotalRequests result;
     SuccessRequests := SuccessRequests result;
     FailedRequests := FailedRequests result;
     TotalDuration := TotalDuration result; AvgLatency := AvgLatency result;
     InputTokens := InputTokens result; OutputTokens := OutputTokens result;
     TotalTokens := TotalTokens result;
     AvgInputTokens := AvgInputTokens result;
     AvgOutputTokens := AvgOutputTokens result;
     AvgTotalTokens := AvgTotalTokens result;
     RequestsPerSec := RequestsPerSec result; TokensPerSec := TokensPerSec result;
     Errors := Errors result; LatencyPercentiles := LatencyPercentiles result;
     AllLatencies := sl |}.

Definition storePercentiles (m : gmap Z Z) (result : TestResult) : TestResult :=
  {| ModelName := ModelName result; ConcurrencyLevel := ConcurrencyLevel result;
     TotalRequests := TotalRequests result;
     SuccessRequests := SuccessRequests result;
     FailedRequests := FailedRequests result;
     TotalDuration := TotalDuration result; AvgLatency := AvgLatency result;
     InputTokens := InputTokens result; OutputTokens := OutputTokens result;
     TotalTokens := TotalTokens result;
     AvgInputTokens := AvgInputTokens result;
     AvgOutputTokens := AvgOutputTokens result;
     AvgTotalTokens := AvgTotalTokens result;
     RequestsPerSec := RequestsPerSec result; TokensPerSec := TokensPerSec result;
     Errors := Errors result; LatencyPercentiles := Some m;
     AllLatencies := AllLatencies result |}.

(** [for _, p := range e.config.LatencyPercentiles
       { result.LatencyPercentiles[p] = calculatePercentile(latencies, p) }]. *)
Fixpoint percentileLoop (h : heap) (latencies : slice) (ps : list Z) (m : gmap Z Z)
  : heap * go_result (gmap Z Z) :=
  match ps with
  | [] => (h, Returned m)
  | p :: ps' =>
      match calculatePercentile h latencies p with
      | (h', Returned v) => percentileLoop h' latencies ps' (<[p := v]> m)
      | (h', Panicked e) => (h', Panicked e)
      end
  end.

(** Everything after [wg.Wait()]: [totalDuration] is [time.Since(startTime)]. *)
Definition finish (cfg : TestConfig) (s : cell) (totalDuration : Z) (result : TestResult)
  : heap * go_result TestResult :=
  let counted := addCounts s totalDuration result in
  match (if 0 <? successCount s
         then addAverages s totalDuration counted
         else Returned counted) with
  | Panicked p => (mem s, Panicked p)
  | Returned averaged =>
      let stored := storeLatencies (latencies s) averaged in
      if (0 <? len (mem s) (latencies s))
         && (0 <? Z.of_nat (length (Config.LatencyPercentiles cfg)))
      then match percentileLoop (mem s) (latencies s) (Config.LatencyPercentiles cfg) ∅ with
           | (h, Returned m) => (h, Returned (storePercentiles m stored))
           | (h, Panicked p) => (h, Panicked p)
           end
      else (mem s, Returned stored)
  end.

(** A schedule resolves what the source leaves to the runtime and to the
    network: the interleaving, what each invocation returns and how long it
    takes, and the wall-clock time of the whole cell. *)
Record schedule := {
  sch_trace : list label;
  sch_elapsed : Z
}.

(** [runTestWithConcurrency] under a schedule.  [None]: the schedule is not
    an execution of this cell that reaches the end of [wg.Wait()].  The
    returned error is always [nil], as in the source. *)
Definition runTestWithConcurrency (cfg : TestConfig) (concurrency : Z)
    (result : TestResult) (h : heap) (sch : schedule)
  : option (heap * go_result (TestResult * option string)) :=
  match start concurrency result h with
  | Panicked p => Some (h, Panicked p)
  | Returned s0 =>
      match run concurrency (sch_trace sch) s0 with
      | Some s =>
          match disp s with
          | DJoined =>
              match finish cfg s (sch_elapsed sch) result with
              | (h', Returned r) => Some (h', Returned (r, None))
              | (h', Panicked p) => Some (h', Panicked p)
              end
          | _ => None
          end
      | None => None
      end
  end.

(** ** The matrix driver *)

Record TestEngine := {
  config : TestConfig;
  models : list LLMModel;
  results : gmap string TestResult
}.

Section Run.
(** [Run] only sequences cells: it is stated over any cell runner, which
    may update the outside world, mutates the result it is handed, and
    returns an optional error. *)
Context {World : Type}.
Variable runCell :
  LLMModel -> Z -> TestResult -> World -> World * TestResult * option string.

(** The inner loop, [for _, concurrency := range concurrencyLevels]. *)
Fixpoint runLevels (mdl : LLMModel) (concurrencyLevels : list Z)
    (acc : gmap string TestResult) (w : World)
  : World * (gmap string TestResult + string) :=
  match concurrencyLevels with
  | [] => (w, inl acc)
  | concurrency :: rest =>
      let modelName := GetName mdl in
      let resultKey := modelName +:+ "-" +:+ pretty concurrency in
      let result := newTestResult modelName concurrency in
      match runCell mdl concurrency result w with
      | (w', result', Some err) =>
          (w', inr ("测试模型 " +:+ modelName +:+ " 失败: " +:+ err))
      | (w', result', None) =>
          runLevels mdl rest (<[resultKey := result']> acc) w'
      end
  end.

(** The outer loop, [for _, mdl := range e.models]. *)
Fixpoint runModels (cfg : TestConfig) (mdls : list LLMModel)
    (acc : gmap string TestResult) (w : World)
  : World * (gmap string TestResult + string) :=
  match mdls with
  | [] => (w, inl acc)
  | mdl :: rest =>
      let modelConcurrencyLevels := GetConcurrencyLevels mdl in
      let concurrencyLevels :=
        if 0 <? Z.of_nat (length modelConcurrencyLevels)
        then modelConcurrencyLevels
        else if 0 <? Z.of_nat (length (Config.ConcurrencyLevels cfg))
             then Config.ConcurrencyLevels cfg
             else [Config.Concurrency cfg] in
      match runLevels mdl concurrencyLevels acc w with
      | (w', inl acc') => runModels cfg rest acc' w'
      | (w', inr err) => (w', inr err)
      end
  end.

(** [func (e *TestEngine) Run() (map[string]*TestResult, error)]. *)
Definition Run (e : TestEngine) (w : World)
  : World * TestEngine * (option (gmap string TestResult) * option string) :=
  match runModels (config e) (models e) ∅ w with
  | (w', inl res) =>
      (w', {| config := config e; models := models e; results := res |},
       (Some res, None))
  | (w', inr err) => (w', e, (None, Some err))
  end.
End Run.

End Engine.

(** * Observations on executions and the vocabulary of the specification *)

Module Spec.
Import Slice Engine.
Local Open Scope Z_scope.

(** ** Measures over the worker pool *)

Fixpoint sumZ (f : worker -> Z) (ws : list worker) : Z :=
  match ws with
  | [] => 0
  | w :: ws' => f w + sumZ f ws'
  end.

(** A worker holds a dispatch token from the receive until its outcome is
    counted, and a semaphore slot from the acquire to the release. *)
Definition holdsToken (w : worker) : Z :=
  match w with WAcquire | WInvoke | WAppend _ _ | WCount _ _ => 1 | _ => 0 end.
Definition holdsSlot (w : worker) : Z :=
  match w with WRange | WAcquire | WExit => 0 | _ => 1 end.
Definition inCall (w : worker) : Z :=
  match w with WInvoke => 1 | _ => 0 end.
Definition gone (w : worker) : Z :=
  match w with WExit => 1 | _ => 0 end.
Definition alive (w : worker) : Z :=
  match w with WExit => 0 | _ => 1 end.
Definition uncounted (d : dispatcher) : Z :=
  match d with DCount => 1 | _ => 0 end.
Definition afterClose (d : dispatcher) : bool :=
  match d with DWait | DJoined => true | _ => false end.

(** Invocations of [GenerateResponse] in flight. *)
Definition invoking (w : worker) : bool :=
  match w with WInvoke => true | _ => false end.
Definition inFlight (s : cell) : nat := length (List.filter invoking (workers s)).

(** Nothing the worker has measured is still waiting to be added to the
    counters or to [latencies]. *)
Definition recorded (w : worker) : bool :=
  match w with
  | WAppend _ _ | WCount _ _ | WLatency _ _ | WInput _ | WOutput _ => false
  | _ => true
  end.

(** ** The invocations of an execution *)

(** The invocations that have returned, in the order of their return, each
    with its measured latency. *)
Definition returned (tr : list label) : list (Z * response) :=
  omap (fun l => match l with Return _ latency r => Some (latency, r) | _ => None end) tr.

Definition failed (r : response) : bool :=
  match r with Error _ => true | Resp _ => false end.

(** Sum of a measure over invocations. *)
Fixpoint total (g : Z -> response -> Z) (rs : list (Z * response)) : Z :=
  match rs with
  | [] => 0
  | (latency, r) :: rs' => g latency r + total g rs'
  end.

Definition isResp (latency : Z) (r : response) : Z :=
  match r with Resp _ => 1 | Error _ => 0 end.
Definition isError (latency : Z) (r : response) : Z :=
  match r with Resp _ => 0 | Error _ => 1 end.
Definition respLatency (latency : Z) (r : response) : Z :=
  match r with Resp _ => latency | Error _ => 0 end.
Definition respInput (latency : Z) (r : response) : Z :=
  match r with Resp x => resp_InputTokens x | Error _ => 0 end.
Definition respOutput (latency : Z) (r : response) : Z :=
  match r with Resp x => resp_OutputTokens x | Error _ => 0 end.
Definition sampleAt (x : Z) (latency : Z) (r : response) : Z :=
  if decide (latency = x) then 1 else 0.

(** Occurrences of [x] in a list of samples. *)
Fixpoint occ (x : Z) (l : list Z) : Z :=
  match l with
  | [] => 0
  | y :: l' => (if decide (y = x) then 1 else 0) + occ x l'
  end.

(** What a worker has measured but not yet added to each accumulator. *)
Definition pendOk (w : worker) : Z :=
  match w with WAppend _ (Resp _) | WCount _ (Resp _) => 1 | _ => 0 end.
Definition pendErr (w : worker) : Z :=
  match w with WAppend _ (Error _) | WCount _ (Error _) => 1 | _ => 0 end.
Definition pendLatency (w : worker) : Z :=
  match w with
  | WAppend latency (Resp _) | WCount latency (Resp _) | WLatency latency _ => latency
  | _ => 0
  end.
Definition pendInput (w : worker) : Z :=
  match w with
  | WAppend _ (Resp r) | WCount _ (Resp r) | WLatency _ r | WInput r => resp_InputTokens r
  | _ => 0
  end.
Definition pendOutput (w : worker) : Z :=
  match w with
  | WAppend _ (Resp r) | WCount _ (Resp r) | WLatency _ r | WInput r | WOutput r =>
      resp_OutputTokens r
  | _ => 0
  end.
Definition pendSample (x : Z) (w : worker) : Z :=
  match w with WAppend latency _ => if decide (latency = x) then 1 else 0 | _ => 0 end.

Definition int64 (x : Z) : Prop := - 2 ^ 63 <= x < 2 ^ 63.

(** ** Invariants of a cell *)

(** Channels, semaphore and join: tokens are conserved, the semaphore counts
    the workers between acquire and release, a worker exits only from a
    closed and drained channel, the dispatcher joins only exited workers. *)
Record inv (c : Z) (s : cell) : Prop := {
  inv_tokens :
    (successCount s + failedCount s + Z.of_nat (jobs s) + sumZ holdsToken (workers s)
     - requestCount s - uncounted (disp s)) mod 2 ^ 64 = 0;
  inv_slots : Z.of_nat (sem s) = sumZ holdsSlot (workers s);
  inv_sem : Z.of_nat (sem s) <= c;
  inv_closed : closed s = afterClose (disp s);
  inv_gone : 0 < sumZ gone (workers s) -> closed s = true /\ jobs s = 0%nat;
  inv_joined : disp s = DJoined -> sumZ alive (workers s) = 0;
  inv_cap : Z.of_nat (jobs s) <= jobsCap c;
  inv_pool : Z.of_nat (length (workers s)) = c
}.

(** The accumulators against the invocations that have returned. *)
Record tally (tr : list label) (s : cell) : Prop := {
  tally_ok :
    (successCount s + sumZ pendOk (workers s) - total isResp (returned tr)) mod 2 ^ 64 = 0;
  tally_err :
    (failedCount s + sumZ pendErr (workers s) - total isError (returned tr)) mod 2 ^ 64 = 0;
  tally_latency :
    (totalLatency s + sumZ pendLatency (workers s) - total respLatency (returned tr))
      mod 2 ^ 64 = 0;
  tally_input :
    (inputTokens s + sumZ pendInput (workers s) - total respInput (returned tr))
      mod 2 ^ 64 = 0;
  tally_output :
    (outputTokens s + sumZ pendOutput (workers s) - total respOutput (returned tr))
      mod 2 ^ 64 = 0;
  tally_samples : forall x,
    occ x (contents (mem s) (latencies s)) + sumZ (pendSample x) (workers s)
    = total (sampleAt x) (returned tr);
  tally_range :
    int64 (successCount s) /\ int64 (failedCount s) /\ int64 (totalLatency s)
    /\ int64 (inputTokens s) /\ int64 (outputTokens s)
}.

(** ** The percentile reducer, as specified *)

(** "The latency value at rank [floor((n-1) * p/100)] of the ascending-sorted
    sample list (nearest-rank method, no interpolation)". *)
Definition nearestRank (l : list Z) (p : Z) : option Z :=
  merge_sort Z.le l !! Z.to_nat ((Z.of_nat (length l) - 1) * p / 100).

(** The value [calculatePercentile] computes from the contents of its
    argument, the heap left aside. *)
Definition percentileValue (l : list Z) (p : Z) : go_result Z :=
  match percentileIndex (Z.of_nat (length l)) p with
  | Some i =>
      if (0 <=? i) && (i <? Z.of_nat (length l))
      then match merge_sort Z.le l !! Z.to_nat i with
           | Some v => Returned v
           | None => Panicked IndexOutOfRange
           end
      else Panicked IndexOutOfRange
  | None => Panicked IndexOutOfRange
  end.

(** The map [percentileLoop] builds, the heap left aside. *)
Fixpoint percentileEntries (l : list Z) (ps : list Z) (m : gmap Z Z)
  : go_result (gmap Z Z) :=
  match ps with
  | [] => Returned m
  | p :: ps' =>
      match percentileValue l p with
      | Returned v => percentileEntries l ps' (<[p := v]> m)
      | Panicked e => Panicked e
      end
  end.

(** Sizes at which binary64 holds [(n-1) * p] exactly for every percentile
    up to 100: every slice that fits in a 48-bit address space. *)
Definition exactSize (n : Z) : Prop := (n - 1) * 100 < 2 ^ 53.

(** ** The matrix, as specified *)

(** "Variant-specific override > global multi-level list > single global
    concurrency value". *)
Definition resolveLevels (cfg : TestConfig) (mdl : LLMModel) : list Z :=
  match GetConcurrencyLevels mdl with
  | _ :: _ => GetConcurrencyLevels mdl
  | [] =>
      match Config.ConcurrencyLevels cfg with
      | _ :: _ => Config.ConcurrencyLevels cfg
      | [] => [Config.Concurrency cfg]
      end
  end.

(** The cells of a run: every variant in configured order, with each of its
    resolved levels in listed order. *)
Definition matrix (cfg : TestConfig) (mdls : list LLMModel) : list (LLMModel * Z) :=
  flat_map (fun mdl => map (pair mdl) (resolveLevels cfg mdl)) mdls.

Definition resultKey (mdl : LLMModel) (concurrency : Z) : string :=
  GetName mdl +:+ "-" +:+ pretty concurrency.

Section Cells.
Context {World : Type}.
Variable runCell :
  LLMModel -> Z -> TestResult -> World -> World * TestResult * option string.

(** Running a list of cells one after the other, up to and including the
    first that fails: the world afterwards, the results stored, the cells
    that completed, and the failure if any. *)
Fixpoint runCells (cells : list (LLMModel * Z)) (acc : gmap string TestResult)
    (w : World)
  : World * gmap string TestResult * list (LLMModel * Z)
    * option (LLMModel * Z * string) :=
  match cells with
  | [] => (w, acc, [], None)
  | (mdl, c) :: rest =>
      match runCell mdl c (newTestResult (GetName mdl) c) w with
      | (w', _, Some err) => (w', acc, [], Some (mdl, c, err))
      | (w', result', None) =>
          let '(w'', acc', completed, failure) :=
            runCells rest (<[resultKey mdl c := result']> acc) w' in
          (w'', acc', (mdl, c) :: completed, failure)
      end
  end.
End Cells.

(** The error [Run] returns for a failure [inner] of a cell of [mdl]. *)
Definition runError (mdl : LLMModel) (inner : string) : string :=
  "测试模型 " +:+ GetName mdl +:+ " 失败: " +:+ inner.

(** What the loops of [Run] make of a sequence of cells. *)
Definition loopOutcome {World : Type}
    (x : World * gmap string TestResult * list (LLMModel * Z)
         * option (LLMModel * Z * string))
  : World * (gmap string TestResult + string) :=
  match x with
  | (w, acc, _, None) => (w, inl acc)
  | (w, _, _, Some (mdl, _, inner)) => (w, inr (runError mdl inner))
  end.

Definition cellName (cell : LLMModel * Z) : string * Z := (GetName cell.1, cell.2).

(** A cell runner that only notes which cell it was asked to run. *)
Definition noteCell (mdl : LLMModel) (c : Z) (result : TestResult)
    (seen : list (string * Z)) : list (string * Z) * TestResult * option string :=
  (seen ++ [(GetName mdl, c)], result, None).

End Spec.

(** * Concrete inputs *)

Module Examples.
Import Slice Engine Spec.
Local Open Scope Z_scope.

Definition ms : Z := 1000000.

Definition cfgEx : TestConfig :=
  {| Config.Concurrency := 1; Config.Duration := 1000 * ms;
     Config.WarmupDuration := 0; Config.RequestTimeout := 30000 * ms;
     Config.ConcurrencyLevels := [10; 20; 50]; Config.ShowProgress := false;
     Config.MaxRetries := 3; Config.LatencyPercentiles := [50; 90; 95; 99] |}.

(** One worker, one token, one invocation that returns [r] after
    [latency]; then the timer fires and the cell drains. *)
Definition oneCall (latency : Z) (r : response) : list label :=
  [Dispatch; Dispatch; Dispatch; Work 0; Work 0; Return 0 latency r]
  ++ replicate (if failed r then 5 else 6) (Work 0)
  ++ [Fire; Dispatch; Dispatch; Work 0; Dispatch].

Definition schFail : schedule :=
  {| sch_trace := oneCall (7 * ms) (Error "boom"); sch_elapsed := 1500 * ms |}.

Definition schOk : schedule :=
  {| sch_trace :=
       oneCall (7 * ms) (Resp {| resp_InputTokens := 12; resp_OutputTokens := 30 |});
     sch_elapsed := 1500 * ms |}.

(** Two workers, both inside [GenerateResponse]. *)
Definition bothInvoking : list label :=
  [Dispatch; Dispatch; Dispatch; Dispatch; Dispatch; Work 0; Work 1; Work 0; Work 1].

(** The latency list of the specification's example, stored out of order. *)
Definition hEx : heap := {[ 1%positive := [30 * ms; 10 * ms; 50 * ms; 20 * ms; 40 * ms] ]}.

Definition variant : LLMModel :=
  {| GetName := "variant"; GetConcurrencyLevels := [5; 10]; GetStreamSetting := None |}.
Definition plain : LLMModel :=
  {| GetName := "plain"; GetConcurrencyLevels := []; GetStreamSetting := None |}.

Definition engineEx : TestEngine :=
  {| config := cfgEx; models := [variant; plain]; results := ∅ |}.

(** A cell runner that fails at concurrency level 20. *)
Definition failsAt20 (mdl : LLMModel) (c : Z) (result : TestResult)
    (seen : list (string * Z)) : list (string * Z) * TestResult * option string :=
  (seen ++ [(GetName mdl, c)], result,
   if c =? 20 then Some "connection refused"%string else None).

End Examples.

(** * Integers in binary64 *)

Module Float64Spec.
Import Float64.
Local Open Scope Z_scope.

(** [holds x k]: the binary64 number [x] is the normalised representation of
    the positive integer [k] (53-bit mantissa, non-positive exponent). *)
Definition holds (x : spec_float) (k : Z) : Prop :=
  exists (m : positive) (c : Z),
    x = S754_finite false m (- c) /\ 0 <= c <= 52 /\
    Zpos m = k * 2 ^ c /\ Zpos (digits2_pos m) = 53.

End Float64Spec.

(** * Further observations on executions *)

Module CellSpec.
Import Slice Engine Spec.
Local Open Scope Z_scope.

(** Some goroutine of the cell can take a step, or some invocation is in
    flight and can return: the cell is not stuck.  The timer is left aside. *)
Definition canMove (c : Z) (s : cell) : Prop :=
  is_Some (dispatch c s)
  \/ exists i, is_Some (work c i s) \/ workers s !! i = Some WInvoke.

(** The messages of the failed invocations, in the order of their return. *)
Definition failedMsgs (rs : list (Z * response)) : list string :=
  omap (fun x => match x.2 with Error msg => Some msg | Resp _ => None end) rs.

(** A worker holds a failed invocation whose message it has not yet stored
    in [result.Errors]. *)
Definition errPending (w : worker) : Z :=
  match w with
  | WAppend _ (Error _) | WCount _ (Error _) | WErrLoad _ | WErrStore _ _ => 1
  | _ => 0
  end.


(** The length of the copy of [result.Errors] a worker has read. *)
Definition seenLength (w : worker) : Z :=
  match w with WErrStore seen _ => Z.of_nat (length seen) | _ => 0 end.

(** The message a worker has still to append, if any. *)
Definition pendMsg (w : worker) : list string :=
  match w with
  | WAppend _ (Error msg) | WCount _ (Error msg) | WErrLoad msg | WErrStore _ msg => [msg]
  | _ => []
  end.

(** What a cell at concurrency level 0 can do: with no worker to receive,
    the dispatcher gets past its loop only if the timer has fired before the
    first [select]. *)
Definition level0 (tr : list label) (s : cell) : Prop :=
  workers s = [] /\ requestCount s = 0 /\
  match disp s with
  | DSelect => (tr = [] /\ fired s = false) \/ (tr = [Fire] /\ fired s = true)
  | DSend => True
  | DCount => False
  | DClose => tr = [Fire; Dispatch] /\ fired s = true
  | DWait => tr = [Fire; Dispatch; Dispatch] /\ fired s = true
  | DJoined => tr = [Fire; Dispatch; Dispatch; Dispatch] /\ fired s = true
  end.


(** With a single worker nothing is lost: the list, with the message the
    worker has still to append, is [e0] followed by the messages of the
    failed invocations in the order of their return. *)
Definition errs1 (e0 : list string) (tr : list label) (s : cell) : Prop :=
  exists w, workers s = [w]
    /\ errors s ++ pendMsg w = e0 ++ failedMsgs (returned tr)
    /\ forall seen msg, w = WErrStore seen msg -> seen = errors s.

(** The atomic actions a worker still has to take to get back to the head
    of its loop, when its invocation, if it is inside one, returns at once. *)
Definition dist (w : worker) : nat :=
  match w with
  | WRange | WExit => 0
  | WRelease => 1
  | WOutput _ | WErrStore _ _ => 2
  | WInput _ | WErrLoad _ => 3
  | WLatency _ _ | WCount _ (Error _) => 4
  | WCount _ (Resp _) | WAppend _ (Error _) => 5
  | WAppend _ (Resp _) => 6
  | WInvoke => 7
  | WAcquire => 8
  end.

(** What the steps of a single worker leave alone. *)
Definition sameChannels (s s' : cell) : Prop :=
  jobs s' = jobs s /\ closed s' = closed s /\ disp s' = disp s /\ fired s' = fired s.

(** The arrays of the heap [h0] the cell started with are as they were, and
    the array of [latencies], once there is one, is not among them. *)
Definition framed (h0 : heap) (s : cell) : Prop :=
  (forall l, l ∈ dom h0 -> mem s !! l = h0 !! l)
  /\ (forall l, latencies s = Some l -> l ∉ dom h0).

(** Tokens sent and not yet turned into an outcome: buffered in the channel
    or held by a worker. *)
Definition outstanding (s : cell) : Z :=
  Z.of_nat (jobs s) + sumZ holdsToken (workers s).

End CellSpec.

(** * Further concrete inputs *)

Module MoreExamples.
Import Slice Engine Spec Examples.
Local Open Scope Z_scope.


End MoreExamples.

(** * Around the engine: configuration, models, setup and report *)

(** ** Package [config] *)

Module ConfigFile.
Import Engine.
Local Open Scope Z_scope.

(** [config.ModelConfig], without [Params] (a [map[string]interface{}] none of
    the functions below reads). *)
Module ModelConfig.
Record t := {
  Name : string;
  Type_ : string;
  APIKey : string;
  BaseURL : string;
  Skip : bool;
  ConcurrencyLevels : list Z;
  Stream : option bool;
  ProxyName : string
}.
End ModelConfig.
Abbreviation ModelConfig := ModelConfig.t.

Module PromptConfig.
Record t := {
  SystemMessage : string;
  UserMessage : string;
  Stream : bool
}.
End PromptConfig.
Abbreviation PromptConfig := PromptConfig.t.

Module ProxyConfig.
Record t := {
  Name : string;
  URL : string
}.
End ProxyConfig.
Abbreviation ProxyConfig := ProxyConfig.t.

Record Config := {
  Test : TestConfig;
  Models : list ModelConfig;
  Prompt : PromptConfig;
  Proxies : list ProxyConfig
}.

(** The loop of [validateConfig], [i] the index of the first model of
    [models]. *)
Fixpoint validateModels (i : Z) (models : list ModelConfig) : option string :=
  match models with
  | [] => None
  | model :: rest =>
      if decide (ModelConfig.Name model = EmptyString)
      then Some ("模型 #" +:+ pretty (i + 1) +:+ " 未指定名称")
      else if decide (ModelConfig.Type_ model = EmptyString)
      then Some ("模型 " +:+ ModelConfig.Name model +:+ " 未指定类型")
      else if decide (ModelConfig.APIKey model = EmptyString)
      then Some ("模型 " +:+ ModelConfig.Name model +:+ " 未指定API密钥")
      else validateModels (i + 1) rest
  end.

(** [func validateConfig(config *Config) error]: [None] is [nil]. *)
Definition validateConfig (config : Config) : option string :=
  if Z.of_nat (length (Models config)) =? 0
  then Some "至少需要配置一个模型"%string
  else if decide (PromptConfig.UserMessage (Prompt config) = EmptyString)
  then Some "用户提示词不能为空"%string
  else validateModels 0 (Models config).

(** The four assignments under [设置默认值] in [LoadConfig]. *)
Definition setDefaults (config : Config) : Config :=
  let test := Test config in
  {| Test :=
       {| Config.Concurrency :=
            if Config.Concurrency test =? 0 then 1 else Config.Concurrency test;
          Config.Duration :=
            if Config.Duration test =? 0 then 30 * Duration.Second
            else Config.Duration test;
          Config.WarmupDuration := Config.WarmupDuration test;
          Config.RequestTimeout :=
            if Config.RequestTimeout test =? 0 then 30 * Duration.Second
            else Config.RequestTimeout test;
          Config.ConcurrencyLevels := Config.ConcurrencyLevels test;
          Config.ShowProgress := Config.ShowProgress test;
          Config.MaxRetries :=
            if Config.MaxRetries test =? 0 then 3 else Config.MaxRetries test;
          Config.LatencyPercentiles := Config.LatencyPercentiles test |};
     Models := Models config; Prompt := Prompt config; Proxies := Proxies config |}.

Section LoadConfig.
(** [os.ReadFile] and [yaml.Unmarshal] into a zero [Config]: the contents or
    the parsed value on the left, the text of the error on the right. *)
Variable ReadFile : string -> string + string.
Variable Unmarshal : string -> Config + string.

(** [func LoadConfig(filePath string)], which returns a [*Config] and an
    error. *)
Definition LoadConfig (filePath : string) : Config + string :=
  match ReadFile filePath with
  | inr err => inr ("读取配置文件失败: " +:+ err)
  | inl data =>
      match Unmarshal data with
      | inr err => inr ("解析配置文件失败: " +:+ err)
      | inl parsed =>
          let config := setDefaults parsed in
          match validateConfig config with
          | Some err => inr err
          | None => inl config
          end
      end
  end.
End LoadConfig.

(** A model entry that passes [validateConfig]. *)
Definition complete (model : ModelConfig) : Prop :=
  ModelConfig.Name model <> EmptyString
  /\ ModelConfig.Type_ model <> EmptyString
  /\ ModelConfig.APIKey model <> EmptyString.

End ConfigFile.

(** ** Package [model] *)

Module ModelPkg.
Import Engine ConfigFile.
Local Open Scope Z_scope.

(** What the engine sees of a model built on [BaseModel{config: cfg}]: the
    getters [GetName], [GetConcurrencyLevels] and [GetStreamSetting] return
    the fields of the configuration. *)
Definition BaseModel (cfg : ModelConfig) : LLMModel :=
  {| GetName := ModelConfig.Name cfg;
     GetConcurrencyLevels := ModelConfig.ConcurrencyLevels cfg;
     GetStreamSetting := ModelConfig.Stream cfg |}.

(** [NewOpenAIModel] and [NewAnthropicModel] build their HTTP clients and
    return the model with a [nil] error in every case. *)
Definition NewOpenAIModel (cfg : ModelConfig) (proxies : list ProxyConfig)
  : LLMModel + string := inl (BaseModel cfg).
Definition NewAnthropicModel (cfg : ModelConfig) (proxies : list ProxyConfig)
  : LLMModel + string := inl (BaseModel cfg).

Section InitializeModels.
(** [NewGeminiModel] is not among the sources at hand. *)
Variable NewGeminiModel : ModelConfig -> list ProxyConfig -> LLMModel + string.

(** The loop of [InitializeModels]; [models] is the slice built so far. *)
Fixpoint initializeLoop (modelConfigs : list ModelConfig) (proxies : list ProxyConfig)
    (models : list LLMModel) : list LLMModel + string :=
  match modelConfigs with
  | [] => inl models
  | cfg :: rest =>
      if ModelConfig.Skip cfg then initializeLoop rest proxies models
      else
        let built :=
          if decide (ModelConfig.Type_ cfg = "openai"%string)
          then inl (NewOpenAIModel cfg proxies)
          else if decide (ModelConfig.Type_ cfg = "anthropic"%string)
          then inl (NewAnthropicModel cfg proxies)
          else if decide (ModelConfig.Type_ cfg = "gemini"%string)
          then inl (NewGeminiModel cfg proxies)
          else inr ("不支持的模型类型: " +:+ ModelConfig.Type_ cfg) in
        match built with
        | inr unsupported => inr unsupported
        | inl (inr err) =>
            inr ("初始化模型 " +:+ ModelConfig.Name cfg +:+ " 失败: " +:+ err)
        | inl (inl model) => initializeLoop rest proxies (models ++ [model])
        end
  end.

(** [func InitializeModels(modelConfigs []config.ModelConfig,
    proxies []config.ProxyConfig) ([]LLMModel, error)]. *)
Definition InitializeModels (modelConfigs : list ModelConfig)
    (proxies : list ProxyConfig) : list LLMModel + string :=
  initializeLoop modelConfigs proxies [].
End InitializeModels.

Section Clients.
(** [url.Parse]: the parsed URL, or [None] for an error. *)
Variable Parse : string -> option string.

(** The loop of [NewOpenAIModel] and [NewAnthropicModel] that builds
    [proxyClients]: a client per proxy whose URL parses, under the name of
    the proxy; a client is represented by the URL its transport goes
    through. *)
Definition proxyClients (proxies : list ProxyConfig) : gmap string string :=
  foldl (fun m proxy =>
           match Parse (ProxyConfig.URL proxy) with
           | None => m
           | Some parsedURL => <[ProxyConfig.Name proxy := parsedURL]> m
           end) ∅ proxies.
End Clients.

Inductive client :=
  | DefaultClient
  | ProxyClient (parsedURL : string).

(** The first lines of [GenerateResponse]: the client the request goes
    through. *)
Definition selectClient (cfg : ModelConfig) (clients : gmap string string) : client :=
  if decide (ModelConfig.ProxyName cfg = EmptyString) then DefaultClient
  else match clients !! ModelConfig.ProxyName cfg with
       | Some parsedURL => ProxyClient parsedURL
       | None => DefaultClient
       end.

(** The URL of the last proxy of a given name among those whose URL
    parses. *)
Definition lastUsable (Parse : string -> option string) (name : string)
    (proxies : list ProxyConfig) : option string :=
  last (omap (fun proxy =>
                if decide (ProxyConfig.Name proxy = name)
                then Parse (ProxyConfig.URL proxy) else None) proxies).

(** The entries [InitializeModels] builds a model for. *)
Definition active (modelConfigs : list ModelConfig) : list ModelConfig :=
  List.filter (fun cfg => negb (ModelConfig.Skip cfg)) modelConfigs.

Definition builtin (cfg : ModelConfig) : Prop :=
  ModelConfig.Type_ cfg = "openai"%string \/ ModelConfig.Type_ cfg = "anthropic"%string.

Definition supported (cfg : ModelConfig) : Prop :=
  builtin cfg \/ ModelConfig.Type_ cfg = "gemini"%string.

End ModelPkg.

(** ** [NewTestEngine] *)

Module EngineSetup.
Import Engine ConfigFile.
Local Open Scope Z_scope.

(** [proxyMap[proxy.Name] = proxy.URL] for each proxy in turn. *)
Definition proxyMap (proxies : list ProxyConfig) : gmap string string :=
  foldl (fun m proxy => <[ProxyConfig.Name proxy := ProxyConfig.URL proxy]> m) ∅ proxies.

(** The engine [NewTestEngine] returns: the fields [Run] reads, and beside
    them [prompt] and [proxies]; the spinner starts out [nil]. *)
Record NewEngine := {
  engine : TestEngine;
  prompt : PromptConfig;
  proxies : gmap string string
}.

Definition NewTestEngine (testConfig : TestConfig) (models : list LLMModel)
    (prompt : PromptConfig) (proxies : list ProxyConfig) : NewEngine :=
  {| engine := {| config := testConfig; models := models; results := ∅ |};
     prompt := prompt;
     proxies := proxyMap proxies |}.

(** The last proxy of the list with a given name. *)
Definition lastNamed (name : string) (proxies : list ProxyConfig) : option ProxyConfig :=
  last (List.filter (fun proxy => bool_decide (ProxyConfig.Name proxy = name)) proxies).

End EngineSetup.

(** ** Package [report] *)

Module Report.
Import Engine.
Local Open Scope Z_scope.

Section Range.
(** [for p := range m] visits every key once, in an order the language
    leaves open: [range] is that order. *)
Variable range : gset Z -> list Z.

(** [func getAllPercentiles(results []*engine.TestResult) []int]. *)
Definition getAllPercentiles (results : list TestResult) : list Z :=
  let percentileMap :=
    foldl (fun (acc : gset Z) (result : TestResult) =>
             match LatencyPercentiles result with
             | Some m => foldl (fun (acc : gset Z) (p : Z) => {[p]} ∪ acc) acc (range (dom m))
             | None => acc
             end) ∅ results in
  merge_sort Z.le (range percentileMap).
End Range.

(** The percentiles some result has an entry for. *)
Definition reported (results : list TestResult) (p : Z) : Prop :=
  exists result m, result ∈ results /\ LatencyPercentiles result = Some m
                   /\ is_Some (m !! p).

End Report.

(** ** The keys of the result map *)

Module RunSpec.
Import Engine Spec.

(** The key [Run] stores the result of a cell under. *)
Definition cellKey (cell : LLMModel * Z) : string := resultKey cell.1 cell.2.

End RunSpec.

Module PackageExamples.
Import Engine ConfigFile ModelPkg EngineSetup Examples.
Local Open Scope Z_scope.

Definition variantCfg : ModelConfig :=
  {| ModelConfig.Name := "variant"; ModelConfig.Type_ := "openai";
     ModelConfig.APIKey := "k1"; ModelConfig.BaseURL := "https://api.example.com/v1";
     ModelConfig.Skip := false; ModelConfig.ConcurrencyLevels := [5; 10];
     ModelConfig.Stream := None; ModelConfig.ProxyName := EmptyString |}.

Definition plainCfg : ModelConfig :=
  {| ModelConfig.Name := "plain"; ModelConfig.Type_ := "anthropic";
     ModelConfig.APIKey := "k2"; ModelConfig.BaseURL := "https://api.example.com/v1";
     ModelConfig.Skip := false; ModelConfig.ConcurrencyLevels := [];
     ModelConfig.Stream := Some true; ModelConfig.ProxyName := "example-proxy" |}.

(** An entry that is skipped, of a type no constructor exists for. *)
Definition skippedCfg : ModelConfig :=
  {| ModelConfig.Name := "off"; ModelConfig.Type_ := "llama";
     ModelConfig.APIKey := "k3"; ModelConfig.BaseURL := EmptyString;
     ModelConfig.Skip := true; ModelConfig.ConcurrencyLevels := [1];
     ModelConfig.Stream := None; ModelConfig.ProxyName := EmptyString |}.

(** A parsed file that leaves concurrency, duration and retries out. *)
Definition parsedEx : Config :=
  {| Test :=
       {| Config.Concurrency := 0; Config.Duration := 0; Config.WarmupDuration := 0;
          Config.RequestTimeout := 120 * Duration.Second;
          Config.ConcurrencyLevels := [10; 20; 50]; Config.ShowProgress := true;
          Config.MaxRetries := 0; Config.LatencyPercentiles := [50; 90; 95; 99] |};
     Models := [variantCfg; skippedCfg; plainCfg];
     Prompt := {| PromptConfig.SystemMessage := "be brief";
                  PromptConfig.UserMessage := "hello"; PromptConfig.Stream := false |};
     Proxies := [ {| ProxyConfig.Name := "example-proxy"; ProxyConfig.URL := "http://a:1" |};
                  {| ProxyConfig.Name := "example-proxy"; ProxyConfig.URL := "http://b:2" |} ] |}.

Definition readEx (filePath : string) : string + string := inl "test: {}"%string.
Definition unmarshalEx (data : string) : Config + string := inl parsedEx.

(** No Gemini model can be built. *)
Definition noGemini (cfg : ModelConfig) (proxies : list ProxyConfig) : LLMModel + string :=
  inr "no API key"%string.

Definition withPercentiles (ps : list Z) : TestResult :=
  storePercentiles (list_to_map ((fun p => (p, p * ms)) <$> ps)) (newTestResult "m" 1).

End PackageExamples.
(** * Facts about binary64 arithmetic on small integers *)

Module Float64Facts.
Import Float64 Float64Spec.
Local Open Scope Z_scope.

Lemma digits2_pos_bounds (m : positive) :
  2 ^ (Zpos (digits2_pos m) - 1) <= Zpos m < 2 ^ Zpos (digits2_pos m).
Proof.
  induction m as [m IH | m IH |]; cbn [digits2_pos].
  - rewrite Pos2Z.inj_succ.
    replace (Z.succ (Zpos (digits2_pos m)) - 1) with (Z.succ (Zpos (digits2_pos m) - 1)) by lia.
    rewrite !Z.pow_succ_r by lia. lia.
  - rewrite Pos2Z.inj_succ.
    replace (Z.succ (Zpos (digits2_pos m)) - 1) with (Z.succ (Zpos (digits2_pos m) - 1)) by lia.
    rewrite !Z.pow_succ_r by lia. lia.
  - cbn. lia.
Qed.

Lemma digits2_pos_unique (m : positive) (d : Z) :
  2 ^ (d - 1) <= Zpos m < 2 ^ d -> Zpos (digits2_pos m) = d.
Proof.
  intros [Hlo Hhi]. pose proof (digits2_pos_bounds m) as [Blo Bhi].
  assert (0 < d) as Hd.
  { destruct (Z.lt_trichotomy d 0) as [Hn | [-> | Hp]]; [| cbn in Hhi; lia | done].
    rewrite Z.pow_neg_r in Hhi by done. lia. }
  destruct (Z.lt_trichotomy (Zpos (digits2_pos m)) d) as [Hlt | [Heq | Hgt]]; [| done |].
  - assert (2 ^ Zpos (digits2_pos m) <= 2 ^ (d - 1)) by (apply Z.pow_le_mono_r; lia). lia.
  - assert (2 ^ d <= 2 ^ (Zpos (digits2_pos m) - 1)) by (apply Z.pow_le_mono_r; lia). lia.
Qed.

Lemma iter_pos_shr_1_exact (n : positive) (x : Z) :
  0 <= x ->
  SpecFloat.iter_pos shr_1 n {| shr_m := x * 2 ^ Zpos n; shr_r := false; shr_s := false |}
  = {| shr_m := x; shr_r := false; shr_s := false |}.
Proof.
  assert (Hone : forall y, 0 <= y ->
    shr_1 {| shr_m := y * 2; shr_r := false; shr_s := false |}
    = {| shr_m := y; shr_r := false; shr_s := false |}).
  { intros [|y|y] Hy; [done | | lia]. rewrite Z.mul_comm. done. }
  revert x. induction n as [n IH | n IH |]; intros x Hx; cbn [SpecFloat.iter_pos].
  - replace (x * 2 ^ Zpos n~1) with ((x * 2 ^ Zpos n * 2 ^ Zpos n) * 2).
    2:{ replace (Zpos n~1) with (Zpos n + Zpos n + 1) by lia.
        rewrite !Z.pow_add_r by lia. change (2 ^ 1) with 2. ring. }
    rewrite Hone by (apply Z.mul_nonneg_nonneg; [apply Z.mul_nonneg_nonneg|]; lia).
    rewrite IH by (apply Z.mul_nonneg_nonneg; lia). by apply IH.
  - replace (x * 2 ^ Zpos n~0) with ((x * 2 ^ Zpos n) * 2 ^ Zpos n).
    2:{ replace (Zpos n~0) with (Zpos n + Zpos n) by lia.
        rewrite Z.pow_add_r by lia. ring. }
    rewrite IH by (apply Z.mul_nonneg_nonneg; lia). by apply IH.
  - change (2 ^ 1) with 2. by apply Hone.
Qed.

Lemma pos_iter_xO (m c : positive) : Zpos (Pos.iter xO m c) = Zpos m * 2 ^ Zpos c.
Proof.
  change (Pos.iter xO m c) with (shift_pos c m).
  rewrite shift_pos_correct, Zpower_pos_powerRZ || rewrite shift_pos_correct.
  rewrite Z.pow_pos_fold. lia.
Qed.

Lemma fexp_eq (x : Z) : fexp prec emax x = Z.max (x - 53) (-1074).
Proof. reflexivity. Qed.

Lemma binary_round_aux_canonical (s : bool) (m : positive) (e : Z) :
  Zpos (digits2_pos m) = 53 -> -1074 <= e <= 971 ->
  binary_round_aux prec emax s (Zpos m) e loc_Exact = S754_finite s m e.
Proof.
  intros Hd He. unfold binary_round_aux, shr_fexp.
  cbn [Zdigits2]. rewrite Hd, fexp_eq.
  replace (Z.max (53 + e - 53) (-1074) - e) with 0 by lia.
  cbn [shr shr_record_of_loc shr_m loc_of_shr_record round_nearest_even Zdigits2].
  rewrite Hd, fexp_eq.
  replace (Z.max (53 + e - 53) (-1074) - e) with 0 by lia.
  cbn [shr shr_record_of_loc shr_m].
  replace (e <=? emax - prec) with true by (symmetry; apply Z.leb_le; unfold emax, prec; lia).
  done.
Qed.

Lemma of_int_holds (k : Z) : 0 < k < 2 ^ 53 -> holds (of_int k) k.
Proof.
  intros [Hk0 Hk]. destruct k as [|p|p]; [lia | | lia].
  pose proof (digits2_pos_bounds p) as [Blo Bhi].
  set (d := Zpos (digits2_pos p)) in *.
  assert (1 <= d <= 53) as Hd.
  { split; [unfold d; lia |].
    destruct (Z.le_gt_cases d 53) as [|Hgt]; [done |].
    assert (2 ^ 53 <= 2 ^ (d - 1)) by (apply Z.pow_le_mono_r; lia). lia. }
  unfold of_int, binary_normalize, binary_round, shl_align.
  fold d. rewrite fexp_eq.
  replace (Z.max (d + 0 - 53) (-1074) - 0) with (d - 53) by lia.
  replace (Z.max (d + 0 - 53) (-1074)) with (d - 53) by lia.
  destruct (d - 53) as [|c|c] eqn:Hc; [| lia |].
  - exists p, 0. rewrite binary_round_aux_canonical by (fold d; lia).
    repeat split; try lia. 
  - assert (Zpos (digits2_pos (Pos.iter xO p c)) = 53) as Hdig.
    { apply digits2_pos_unique. rewrite pos_iter_xO.
      replace 53 with (d + Zpos c) at 2 by lia. replace (53 - 1) with ((d - 1) + Zpos c) by lia.
      rewrite !Z.pow_add_r by lia.
      assert (0 < 2 ^ Zpos c) by (apply Z.pow_pos_nonneg; lia). nia. }
    exists (Pos.iter xO p c), (Zpos c).
    rewrite binary_round_aux_canonical by (done || lia).
    repeat split; try lia; try done; try apply pos_iter_xO. 
Qed.

(** Second rounding stage of [binary_round_aux]: renormalisation after the
    mantissa was possibly incremented to [2^53]. *)
Lemma renormalise (s : bool) (M1 e : Z) :
  2 ^ 52 <= M1 <= 2 ^ 53 -> -1074 <= e <= 970 ->
  exists (M : positive) (E : Z),
    (let '(mrs, e') := shr_fexp prec emax M1 e loc_Exact in
     match shr_m mrs with
     | Z0 => S754_zero s
     | Zpos m => if e' <=? emax - prec then S754_finite s m e' else S754_infinity s
     | Zneg _ => S754_nan
     end) = S754_finite s M E
    /\ (E = e \/ E = e + 1) /\ Zpos M * 2 ^ (E - e) = M1.
Proof.
  intros HM He. destruct M1 as [|m|m]; [lia | | lia].
  destruct (Z.eq_dec (Zpos m) (2 ^ 53)) as [Heq | Hne].
  - assert (m = 9007199254740992%positive) as -> by lia.
    exists 4503599627370496%positive, (e + 1).
    unfold shr_fexp. rewrite fexp_eq.
    replace (Zdigits2 (Zpos 9007199254740992)) with 54 by reflexivity.
    replace (Z.max (54 + e - 53) (-1074) - e) with 1 by lia.
    cbn [shr shr_record_of_loc SpecFloat.iter_pos].
    replace (e + 1 <=? emax - prec) with true
      by (symmetry; apply Z.leb_le; unfold emax, prec; lia).
    replace (e + 1 - e) with 1 by lia. split; [done | split; [lia | done]].
  - assert (Zpos (digits2_pos m) = 53) as Hd by (apply digits2_pos_unique; lia).
    exists m, e. unfold shr_fexp. cbn [Zdigits2]. rewrite Hd, fexp_eq.
    replace (Z.max (53 + e - 53) (-1074) - e) with 0 by lia.
    cbn [shr shr_record_of_loc shr_m].
    replace (e <=? emax - prec) with true
      by (symmetry; apply Z.leb_le; unfold emax, prec; lia).
    rewrite Z.sub_diag. split; [done | split; [lia | cbn; lia]].
Qed.

Lemma round_nearest_even_bounds (m : Z) (l : location) :
  m <= round_nearest_even m l <= m + 1.
Proof. destruct l as [|[| |]]; cbn; try destruct (Z.even m); lia. Qed.

Lemma loc_of_shr_record_of_loc (m : Z) (l : location) :
  loc_of_shr_record (shr_record_of_loc m l) = l.
Proof. by destruct l as [|[| |]]. Qed.

Lemma shr_m_record_of_loc (m : Z) (l : location) : shr_m (shr_record_of_loc m l) = m.
Proof. by destruct l as [|[| |]]. Qed.

(** Rounding a 53-bit quotient: the mantissa is kept or incremented. *)
Lemma binary_round_aux_53 (s : bool) (q e : Z) (l : location) :
  2 ^ 52 <= q < 2 ^ 53 -> -1074 <= e <= 970 ->
  exists (M : positive) (E : Z),
    binary_round_aux prec emax s q e l = S754_finite s M E
    /\ (E = e \/ E = e + 1)
    /\ (Zpos M * 2 ^ (E - e) = q \/ Zpos M * 2 ^ (E - e) = q + 1).
Proof.
  intros Hq He. destruct q as [|pq|pq]; [lia | | lia].
  assert (Zpos (digits2_pos pq) = 53) as Hd by (apply digits2_pos_unique; lia).
  unfold binary_round_aux. unfold shr_fexp at 1. cbn [Zdigits2]. rewrite Hd, fexp_eq.
  replace (Z.max (53 + e - 53) (-1074) - e) with 0 by lia.
  cbn [shr]. rewrite loc_of_shr_record_of_loc, shr_m_record_of_loc.
  pose proof (round_nearest_even_bounds (Zpos pq) l) as HB.
  destruct (renormalise s (round_nearest_even (Zpos pq) l) e) as (M & E & HR & HE & HV);
    [lia | lia |].
  exists M, E. split; [exact HR | split; [exact HE | lia]].
Qed.

(** Rounding a 54-bit quotient: one bit is shifted out; the mantissa is
    incremented only when that bit was set. *)
Lemma binary_round_aux_54 (s : bool) (q e : Z) (l : location) :
  2 ^ 53 <= q < 2 ^ 54 -> -1074 <= e <= 969 ->
  exists (M : positive) (E : Z),
    binary_round_aux prec emax s q e l = S754_finite s M E
    /\ (E = e + 1 \/ E = e + 2)
    /\ (Zpos M * 2 ^ (E - e - 1) = q / 2
        \/ (Z.odd q = true /\ Zpos M * 2 ^ (E - e - 1) = q / 2 + 1)).
Proof.
  intros Hq He. destruct q as [|pq|pq]; [lia | | lia].
  assert (Zpos (digits2_pos pq) = 54) as Hd by (apply digits2_pos_unique; lia).
  unfold binary_round_aux. unfold shr_fexp at 1. cbn [Zdigits2]. rewrite Hd, fexp_eq.
  replace (Z.max (54 + e - 53) (-1074) - e) with 1 by lia.
  cbn [shr SpecFloat.iter_pos].
  set (mrs := shr_1 (shr_record_of_loc (Zpos pq) l)).
  assert (shr_m mrs = Zpos pq / 2 /\ shr_r mrs = Z.odd (Zpos pq)) as [Hm Hr].
  { unfold mrs. destruct pq as [p|p|]; [| | lia].
    - replace (Zpos p~1 / 2) with (Zpos p)
        by (apply (Z.div_unique _ _ _ 1); lia).
      by destruct l as [|[| |]].
    - replace (Zpos p~0 / 2) with (Zpos p)
        by (apply (Z.div_unique _ _ _ 0); lia).
      by destruct l as [|[| |]]. }
  assert (2 ^ 52 <= Zpos pq / 2 < 2 ^ 53) as Hhalf.
  { split; [apply Z.div_le_lower_bound | apply Z.div_lt_upper_bound]; lia. }
  rewrite Hm.
  pose proof (round_nearest_even_bounds (Zpos pq / 2) (loc_of_shr_record mrs)) as HB.
  destruct (renormalise s (round_nearest_even (Zpos pq / 2) (loc_of_shr_record mrs)) (e + 1))
    as (M & E & HR & HE & HV); [lia | lia |].
  exists M, E. split; [exact HR | split; [lia |]].
  replace (E - e - 1) with (E - (e + 1)) by lia. rewrite HV.
  destruct (Z.odd (Zpos pq)) eqn:Hodd.
  - destruct (Z.eq_dec (round_nearest_even (Zpos pq / 2) (loc_of_shr_record mrs)) (Zpos pq / 2));
      [left; congruence | right; split; [done | lia]].
  - left. destruct mrs as [m r st]. cbn in Hr |- *. subst r.
    by destruct st.
Qed.

(** Rounding a mantissa whose low [n] bits are zero drops exactly those bits. *)
Lemma binary_round_aux_exact (s : bool) (M : positive) (n e : Z) :
  Zpos (digits2_pos M) = 53 -> 0 <= n -> -1074 <= e + n <= 971 ->
  binary_round_aux prec emax s (Zpos M * 2 ^ n) e loc_Exact = S754_finite s M (e + n).
Proof.
  intros Hd Hn He. destruct n as [|n|n]; [| | lia].
  - rewrite Z.mul_1_r, Z.add_0_r in *. by apply binary_round_aux_canonical.
  - pose proof (digits2_pos_bounds M) as HB. rewrite Hd in HB.
    assert (0 < 2 ^ Zpos n) as Hpow by (apply Z.pow_pos_nonneg; lia).
    destruct (Zpos M * 2 ^ Zpos n) as [|P|P] eqn:HP; [lia | | lia].
    assert (Zpos (digits2_pos P) = 53 + Zpos n) as HdP.
    { apply digits2_pos_unique. rewrite <- HP.
      replace (53 + Zpos n - 1) with (52 + Zpos n) by lia.
      rewrite !Z.pow_add_r by lia. nia. }
    unfold binary_round_aux. unfold shr_fexp at 1. cbn [Zdigits2]. rewrite HdP, fexp_eq.
    replace (Z.max (53 + Zpos n + e - 53) (-1074) - e) with (Zpos n) by lia.
    cbn [shr shr_record_of_loc]. rewrite <- HP, iter_pos_shr_1_exact by lia.
    cbn [shr_m loc_of_shr_record round_nearest_even].
    unfold shr_fexp. cbn [Zdigits2]. rewrite Hd, fexp_eq.
    replace (Z.max (53 + (e + Zpos n) - 53) (-1074) - (e + Zpos n)) with 0 by lia.
    cbn [shr shr_record_of_loc shr_m].
    replace (e + Zpos n <=? emax - prec) with true
      by (symmetry; apply Z.leb_le; unfold emax, prec; lia).
    done.
Qed.

Lemma holds_pos (x : spec_float) (k : Z) : holds x k -> 0 < k.
Proof.
  intros (m & c & _ & Hc & Hm & _).
  assert (0 < 2 ^ c) by (apply Z.pow_pos_nonneg; lia). nia.
Qed.

Lemma holds_lt (x : spec_float) (k : Z) : holds x k -> k < 2 ^ 53.
Proof.
  intros (m & c & _ & Hc & Hm & Hd).
  pose proof (digits2_pos_bounds m) as HB. rewrite Hd in HB.
  assert (0 < 2 ^ c) by (apply Z.pow_pos_nonneg; lia). nia.
Qed.

(** The product of two exactly held integers is held exactly as long as it
    fits in 53 bits. *)
Lemma mul_holds (x y : spec_float) (a p : Z) :
  holds x a -> holds y p -> a * p < 2 ^ 53 -> holds (mul x y) (a * p).
Proof.
  intros Hx Hy Hk.
  pose proof (holds_pos _ _ Hx) as Ha. pose proof (holds_pos _ _ Hy) as Hp.
  destruct Hx as (ma & ca & -> & Hca & Hma & Hda).
  destruct Hy as (mp & cp & -> & Hcp & Hmp & Hdp).
  pose proof (digits2_pos_bounds ma) as HBa. rewrite Hda in HBa.
  pose proof (digits2_pos_bounds mp) as HBp. rewrite Hdp in HBp.
  assert (0 < a * p) as Hk0 by nia.
  destruct (of_int_holds (a * p)) as (mk & ck & _ & Hck & Hmk & Hdk); [lia |].
  pose proof (digits2_pos_bounds mk) as HBk. rewrite Hdk in HBk.
  exists mk, ck. split; [| done].
  unfold mul, SFmul. cbn [xorb].
  assert (Zpos (ma * mp) = Zpos mk * 2 ^ (ca + cp - ck) /\ 0 <= ca + cp - ck) as [HP Hn].
  { assert (0 <= ca + cp - ck) as Hn.
    { destruct (Z.le_gt_cases ck (ca + cp)) as [|Hgt]; [lia |].
      assert (2 ^ (ca + cp + 1) <= 2 ^ ck) by (apply Z.pow_le_mono_r; lia).
      rewrite Z.pow_add_r, Z.pow_add_r in H by lia.
      assert (0 < 2 ^ ca) by (apply Z.pow_pos_nonneg; lia).
      assert (0 < 2 ^ cp) by (apply Z.pow_pos_nonneg; lia).
      change (2 ^ 1) with 2 in H.
      assert (Zpos ma * Zpos mp = a * p * (2 ^ ca * 2 ^ cp)) by (rewrite Hma, Hmp; ring).
      assert (2 ^ 52 * 2 ^ 52 <= Zpos ma * Zpos mp) by nia.
      assert (a * p * (2 * (2 ^ ca * 2 ^ cp)) <= Zpos mk) by (rewrite Hmk; nia).
      nia. }
    split; [| done]. rewrite Pos2Z.inj_mul, Hma, Hmp, Hmk.
    assert (2 ^ ca * 2 ^ cp = 2 ^ ck * 2 ^ (ca + cp - ck)) as E
      by (rewrite <- !Z.pow_add_r by lia; f_equal; lia).
    transitivity (a * p * (2 ^ ca * 2 ^ cp)); [ring | rewrite E; ring]. }
  rewrite HP, binary_round_aux_exact by (done || lia).
  f_equal. lia.
Qed.

Lemma of_int_100 : of_int 100 = S754_finite false 7036874417766400 (-46).
Proof. reflexivity. Qed.

Lemma div_core_53 (m1 m2 : positive) (e1 e2 : Z) :
  Zpos (digits2_pos m1) = 53 -> Zpos (digits2_pos m2) = 53 ->
  -1074 <= e1 - e2 - 53 ->
  SFdiv_core_binary prec emax (Zpos m1) e1 (Zpos m2) e2
  = ((Zpos m1 * 2 ^ 53) / Zpos m2, e1 - e2 - 53,
     new_location (Zpos m2) ((Zpos m1 * 2 ^ 53) mod Zpos m2)).
Proof.
  intros H1 H2 He. unfold SFdiv_core_binary. cbn [Zdigits2]. rewrite H1, H2, fexp_eq.
  replace (Z.min (Z.max (53 + e1 - (53 + e2) - 53) (-1074)) (e1 - e2))
    with (e1 - e2 - 53) by lia.
  replace (e1 - e2 - (e1 - e2 - 53)) with 53 by lia.
  cbv iota. rewrite Z.shiftl_mul_pow2 by lia.
  unfold Z.div, Z.modulo. by destruct (Z.div_eucl _ _).
Qed.

(** The integer arithmetic behind [x / 100.0]: neither the rounding
    increment nor the dropped bit moves the quotient across an integer. *)
Lemma quotient_100 (k c : Z) :
  0 < k -> 0 <= c ->
  let q := (k * 2 ^ c * 2 ^ 53) / 7036874417766400 in
  k * 2 ^ c * 32 / 25 = q
  /\ q / 2 ^ (c + 7) = k / 100
  /\ (q + 1) / 2 ^ (c + 7) = k / 100
  /\ (q / 2) / 2 ^ (c + 6) = k / 100
  /\ (Z.odd q = true -> (q / 2 + 1) / 2 ^ (c + 6) = k / 100).
Proof.
  intros Hk Hc q.
  assert (0 < 2 ^ c) as Hu by (apply Z.pow_pos_nonneg; lia).
  assert (q = k * 2 ^ c * 32 / 25) as Hq.
  { unfold q. change 7036874417766400 with (25 * 2 ^ 48).
    replace (k * 2 ^ c * 2 ^ 53) with (k * 2 ^ c * 32 * 2 ^ 48) by (change (2 ^ 53) with (32 * 2 ^ 48); ring).
    apply Z.div_mul_cancel_r; lia. }
  clearbody q. split; [by symmetry |].
  rewrite !Z.pow_add_r by lia. change (2 ^ 7) with 128. change (2 ^ 6) with 64.
  set (u := 2 ^ c) in *. set (t := k / 100).
  assert (100 * t <= k < 100 * t + 100) as Ht.
  { unfold t. pose proof (Z.mul_div_le k 100). pose proof (Z.mul_succ_div_gt k 100). lia. }
  assert (25 * q <= k * u * 32 < 25 * q + 25) as HN.
  { subst q. pose proof (Z.mul_div_le (k * u * 32) 25).
    pose proof (Z.mul_succ_div_gt (k * u * 32) 25). lia. }
  assert (100 * (u * t) <= k * u) as HX1 by nia.
  assert (k * u <= 100 * (u * t) + 99 * u) as HX2 by nia.
  clear Hq. set (X := u * t) in *. set (Y := k * u) in *.
  assert (128 * X <= q <= 128 * X + 128 * u - 2) as Hrange by lia.
  assert (2 * (q / 2) <= q < 2 * (q / 2) + 2) as Hh.
  { pose proof (Z.mul_div_le q 2). pose proof (Z.mul_succ_div_gt q 2). lia. }
  repeat split.
  - symmetry. apply (Z.div_unique_pos _ _ _ (q - 128 * X)); unfold X; lia.
  - symmetry. apply (Z.div_unique_pos _ _ _ (q + 1 - 128 * X)); unfold X; lia.
  - symmetry. apply (Z.div_unique_pos _ _ _ (q / 2 - 64 * X)); unfold X; lia.
  - intros Hodd. rewrite Z.odd_spec in Hodd. destruct Hodd as [h Hh'].
    symmetry. apply (Z.div_unique_pos _ _ _ (q / 2 + 1 - 64 * X)); unfold X; lia.
Qed.

Lemma to_int_finite_neg (M : positive) (E : Z) :
  E <= 0 -> Zpos M < 2 ^ 63 ->
  to_int (S754_finite false M E) = Some (Zpos M / 2 ^ (- E)).
Proof.
  intros HE HM. unfold to_int. rewrite Z.shiftl_div_pow2 by lia.
  assert (0 < 2 ^ (- E)) by (apply Z.pow_pos_nonneg; lia).
  assert (0 <= Zpos M / 2 ^ (- E) <= Zpos M) as Hr.
  { split; [apply Z.div_pos; lia | apply Z.div_le_upper_bound; nia]. }
  replace (- 2 ^ 63 <=? Zpos M / 2 ^ (- E)) with true by (symmetry; apply Z.leb_le; lia).
  replace (Zpos M / 2 ^ (- E) <? 2 ^ 63) with true by (symmetry; apply Z.ltb_lt; lia).
  done.
Qed.

(** Dividing an exactly held integer by [100.0] and truncating gives the
    integer quotient. *)
Lemma to_int_div_100 (x : spec_float) (k : Z) :
  holds x k -> to_int (div x (of_int 100)) = Some (k / 100).
Proof.
  intros Hx. pose proof (holds_pos _ _ Hx) as Hk.
  destruct Hx as (m & c & -> & Hc & Hm & Hd).
  pose proof (digits2_pos_bounds m) as HB. rewrite Hd in HB.
  rewrite of_int_100. unfold div, SFdiv.
  rewrite div_core_53 by (done || lia). cbn [xorb].
  destruct (quotient_100 k c Hk) as (Hq & Q1 & Q2 & Q3 & Q4); [lia |].
  rewrite Hm. set (q := k * 2 ^ c * 2 ^ 53 / 7036874417766400) in *.
  set (l := new_location _ _). clearbody l.
  assert (0 < 2 ^ c) as Hu by (apply Z.pow_pos_nonneg; lia).
  assert (2 ^ 52 <= q < 2 ^ 54) as Hqr.
  { rewrite <- Hq, <- Hm. split; [apply Z.div_le_lower_bound | apply Z.div_lt_upper_bound]; lia. }
  replace (- c - -46 - 53) with (- (c + 7)) by lia.
  destruct (Z_lt_le_dec q (2 ^ 53)) as [Hlt | Hge].
  - destruct (binary_round_aux_53 false q (- (c + 7)) l) as (M & E & -> & HE & HV); [lia | lia |].
    assert (Zpos M <= 2 ^ 53) as HM.
    { assert (1 <= 2 ^ (E - - (c + 7))) by (destruct HE as [-> | ->];
        [rewrite Z.sub_diag | replace (- (c + 7) + 1 - - (c + 7)) with 1 by lia]; cbn; lia).
      nia. }
    rewrite to_int_finite_neg by lia. f_equal.
    assert (Zpos M / 2 ^ (- E) = Zpos M * 2 ^ (E - - (c + 7)) / 2 ^ (c + 7)) as ->.
    { destruct HE as [-> | ->].
      - rewrite Z.sub_diag, Z.mul_1_r. do 2 f_equal. lia.
      - replace (- (c + 7) + 1 - - (c + 7)) with 1 by lia.
        replace (- (- (c + 7) + 1)) with (c + 6) by lia.
        replace (c + 7) with (c + 6 + 1) by lia. rewrite (Z.pow_add_r 2 (c + 6) 1) by lia.
        symmetry. apply Z.div_mul_cancel_r; [apply Z.pow_nonzero; lia | done]. }
    by destruct HV as [-> | ->].
  - destruct (binary_round_aux_54 false q (- (c + 7)) l) as (M & E & -> & HE & HV); [lia | lia |].
    assert (q / 2 < 2 ^ 53) as Hhalf by (apply Z.div_lt_upper_bound; lia).
    assert (Zpos M <= 2 ^ 53) as HM.
    { assert (1 <= 2 ^ (E - - (c + 7) - 1)) by (destruct HE as [-> | ->];
        [replace (- (c + 7) + 1 - - (c + 7) - 1) with 0 by lia
        | replace (- (c + 7) + 2 - - (c + 7) - 1) with 1 by lia]; cbn; lia).
      destruct HV as [HV | [_ HV]]; nia. }
    rewrite to_int_finite_neg by lia. f_equal.
    assert (Zpos M / 2 ^ (- E) = Zpos M * 2 ^ (E - - (c + 7) - 1) / 2 ^ (c + 6)) as ->.
    { destruct HE as [-> | ->].
      - replace (- (c + 7) + 1 - - (c + 7) - 1) with 0 by lia.
        rewrite Z.mul_1_r. do 2 f_equal. lia.
      - replace (- (c + 7) + 2 - - (c + 7) - 1) with 1 by lia.
        replace (- (- (c + 7) + 2)) with (c + 5) by lia.
        replace (c + 6) with (c + 5 + 1) by lia. rewrite (Z.pow_add_r 2 (c + 5) 1) by lia.
        symmetry. apply Z.div_mul_cancel_r; [apply Z.pow_nonzero; lia | done]. }
    destruct HV as [-> | [Hodd ->]]; [done | by apply Q4].
Qed.
End Float64Facts.

(** * The percentile reducer *)

Module PercentileFacts.
Import Float64 Float64Facts Slice Engine.
Local Open Scope Z_scope.

(** Below [2^53] the index computed in binary64 is the integer quotient. *)
Lemma percentileIndex_exact (n p : Z) :
  1 <= n -> n - 1 < 2 ^ 53 -> 0 <= p < 2 ^ 53 -> (n - 1) * p < 2 ^ 53 ->
  percentileIndex n p = Some ((n - 1) * p / 100).
Proof.
  intros Hn Hn' Hp Hk. unfold percentileIndex.
  destruct (Z.eq_dec (n - 1) 0) as [-> | Ha].
  - destruct (Z.eq_dec p 0) as [-> | Hp0]; [done |].
    destruct (of_int_holds p) as (m & c & -> & _); [lia |]. done.
  - destruct (of_int_holds (n - 1)) as (ma & ca & Ea & Ha'); [lia |].
    destruct (Z.eq_dec p 0) as [-> | Hp0].
    + rewrite Ea, Z.mul_0_r. done.
    + apply to_int_div_100, mul_holds; [apply of_int_holds; lia | apply of_int_holds; lia | done].
Qed.

Lemma length_merge_sort (l : list Z) : length (merge_sort Z.le l) = length l.
Proof. apply Permutation_length, merge_sort_Permutation. Qed.

Lemma contents_fresh (h : heap) : contents h (Some (fresh (dom h))) = [].
Proof.
  cbn. assert (h !! fresh (dom h) = None) as ->; [| done].
  apply not_elem_of_dom, is_fresh.
Qed.

(** The heap after the call: the input heap plus the sorted copy at a fresh
    address; the value: a bounds-checked read of the sorted copy. *)
Lemma calculatePercentile_spec (h : heap) (s : slice) (p : Z) :
  calculatePercentile h s p
  = (<[fresh (dom h) := merge_sort Z.le (contents h s)]> h,
     match percentileIndex (len h s) p with
     | Some i =>
         if (0 <=? i) && (i <? len h s)
         then match merge_sort Z.le (contents h s) !! Z.to_nat i with
              | Some v => Returned v
              | None => Panicked IndexOutOfRange
              end
         else Panicked IndexOutOfRange
     | None => Panicked IndexOutOfRange
     end).
Proof.
  unfold calculatePercentile, make. set (l := fresh (dom h)).
  set (n := length (contents h s)).
  assert (contents (<[l := replicate n 0]> h) s = contents h s) as Hsrc.
  { assert (h !! l = None) as Hfresh by apply not_elem_of_dom, is_fresh.
    destruct s as [l' |]; [| done]. destruct (decide (l' = l)) as [-> | Hne].
    - subst n. cbn [contents]. rewrite Hfresh, lookup_insert_eq. done.
    - cbn [contents]. by rewrite lookup_insert_ne. }
  assert (copy (<[l := replicate n 0]> h) (Some l) s = <[l := contents h s]> h) as ->.
  { unfold copy. rewrite Hsrc. cbn [contents]. rewrite lookup_insert_eq. cbn [from_option id].
    rewrite length_replicate, insert_insert_eq. f_equal.
    rewrite take_ge, drop_ge by (rewrite ?length_replicate; subst n; lia).
    apply app_nil_r. }
  assert (sort_Slice (<[l := contents h s]> h) (Some l)
          = <[l := merge_sort Z.le (contents h s)]> h) as ->.
  { unfold sort_Slice. cbn [contents]. rewrite lookup_insert_eq. cbn [from_option id].
    apply insert_insert_eq. }
  assert (contents (<[l := merge_sort Z.le (contents h s)]> h) (Some l)
          = merge_sort Z.le (contents h s)) as Hc.
  { cbn [contents]. by rewrite lookup_insert_eq. }
  assert (len (<[l := merge_sort Z.le (contents h s)]> h) (Some l) = len h s) as Hl.
  { unfold len. by rewrite Hc, length_merge_sort. }
  rewrite Hl. f_equal. unfold index. rewrite Hl, Hc. done.
Qed.

End PercentileFacts.

(** * Invariants of a cell *)

Module CellFacts.
Import Slice Engine Spec.
Local Open Scope Z_scope.


Lemma sumZ_insert (f : worker -> Z) (ws : list worker) (i : nat) (w w' : worker) :
  ws !! i = Some w -> sumZ f (<[i := w']> ws) = sumZ f ws - f w + f w'.
Proof.
  revert i. induction ws as [| a ws IH]; intros [| i] H; simplify_eq/=; [lia |].
  rewrite (IH i H). lia.
Qed.

Lemma sumZ_replicate (f : worker -> Z) (n : nat) (w : worker) :
  sumZ f (replicate n w) = Z.of_nat n * f w.
Proof. induction n as [| n IH]; [done |]. cbn [replicate sumZ]. lia. Qed.

Lemma sumZ_nonneg (f : worker -> Z) (ws : list worker) :
  (forall w, 0 <= f w) -> 0 <= sumZ f ws.
Proof. intros Hf. induction ws as [| a ws IH]; cbn; [lia |]. specialize (Hf a). lia. Qed.

Lemma sumZ_le (f g : worker -> Z) (ws : list worker) :
  (forall w, f w <= g w) -> sumZ f ws <= sumZ g ws.
Proof.
  intros Hfg. induction ws as [| a ws IH]; cbn; [lia |]. specialize (Hfg a). lia.
Qed.

Lemma sumZ_lookup_le (f : worker -> Z) (ws : list worker) (i : nat) (w : worker) :
  (forall w, 0 <= f w) -> ws !! i = Some w -> f w <= sumZ f ws.
Proof.
  intros Hf. revert i. induction ws as [| a ws IH]; intros [| i] H; simplify_eq/=.
  - pose proof (sumZ_nonneg f ws Hf). lia.
  - specialize (IH i H). specialize (Hf a). lia.
Qed.

Lemma run_nil (c : Z) (s : cell) : run c [] s = Some s.
Proof. done. Qed.

Lemma run_snoc (c : Z) (tr : list label) (l : label) (s : cell) :
  run c (tr ++ [l]) s = run c tr s ≫= step c l.
Proof. unfold run. by rewrite foldl_app. Qed.

(** Induction over the executions of a cell. *)
Lemma run_ind (c : Z) (s0 : cell) (P : list label -> cell -> Prop) :
  P [] s0 ->
  (forall tr s l s', run c tr s0 = Some s -> P tr s -> step c l s = Some s' -> P (tr ++ [l]) s') ->
  forall tr s, run c tr s0 = Some s -> P tr s.
Proof.
  intros H0 Hstep tr. induction tr as [| l tr IH] using rev_ind; intros s Hrun.
  - rewrite run_nil in Hrun. by simplify_eq.
  - rewrite run_snoc in Hrun. destruct (run c tr s0) as [s1 |] eqn:H1; [| done].
    cbn in Hrun. eapply Hstep; eauto.
Qed.

Ltac cell_simpl :=
  cbn [jobs closed sem fired disp requestCount workers successCount failedCount
       totalLatency inputTokens outputTokens latencies mem errors
       set_jobs set_closed set_sem set_fired set_disp set_requestCount set_worker
       set_successCount set_failedCount set_totalLatency set_inputTokens
       set_outputTokens set_latencies set_errors fst snd] in *.

(** Linear arithmetic modulo [2^64]. *)
Ltac lia64 :=
  try unfold Int64.add in *; try unfold Int64.wrap in *;
  change (2 ^ 64) with 18446744073709551616 in *;
  change (2 ^ 63) with 9223372036854775808 in *;
  Z.div_mod_to_equations; lia.

Lemma start_returned (c : Z) (result : TestResult) (h : heap) (s0 : cell) :
  start c result h = Returned s0 ->
  0 <= c /\ 0 <= jobsCap c /\
  s0 = {| jobs := 0; closed := false; sem := 0; fired := false; disp := DSelect;
          requestCount := 0; workers := replicate (Z.to_nat c) WRange;
          successCount := 0; failedCount := 0; totalLatency := 0;
          inputTokens := 0; outputTokens := 0; latencies := None; mem := h;
          errors := Errors result |}.
Proof.
  unfold start. destruct (jobsCap c <? 0) eqn:H1; [done |].
  destruct (c <? 0) eqn:H2; [done |]. cbn. intros [= <-].
  apply Z.ltb_ge in H1, H2. done.
Qed.

Lemma inv_start (c : Z) (result : TestResult) (h : heap) (s0 : cell) :
  start c result h = Returned s0 -> inv c s0.
Proof.
  intros (Hc & Hcap & ->)%start_returned.
  split; cell_simpl; rewrite ?sumZ_replicate, ?length_replicate;
    cbn [holdsToken holdsSlot gone alive uncounted afterClose];
    rewrite ?Z.mul_0_r; try lia64; try done.
Qed.

Lemma forallb_exited_alive (ws : list worker) :
  forallb exited ws = true -> sumZ alive ws = 0.
Proof.
  induction ws as [| w ws IH]; [done |]. cbn. intros [Hw Hws]%andb_prop.
  destruct w; try done. cbn. rewrite IH by done. done.
Qed.

Ltac break_step H :=
  unfold step, dispatch, work, ret in H;
  repeat (case_match; try done; simplify_eq).

Lemma alive_nonneg (w : worker) : 0 <= alive w.
Proof. destruct w; cbn; lia. Qed.

Lemma gone_nonneg (w : worker) : 0 <= gone w.
Proof. destruct w; cbn; lia. Qed.

Ltac measure :=
  try match goal with
  | Hw : workers ?s !! ?i = Some _ |- _ =>
      pose proof (sumZ_lookup_le alive _ _ _ alive_nonneg Hw);
      pose proof (sumZ_lookup_le gone _ _ _ gone_nonneg Hw)
  end;
  repeat match goal with
  | Hw : workers ?s !! ?i = Some _ |- context [sumZ ?f (<[?i := _]> (workers ?s))] =>
      rewrite (sumZ_insert f _ _ _ _ Hw)
  end; cbn [holdsToken holdsSlot inCall gone alive uncounted afterClose] in *.

Lemma inv_step (c : Z) (l : label) (s s' : cell) :
  inv c s -> step c l s = Some s' -> inv c s'.
Proof.
  intros [Htok Hslot Hsem Hcl Hgone Hjoin Hcap Hpool] Hstep.
  break_step Hstep.
  all: split; cell_simpl; measure.
  all: try (rewrite ?length_insert; lia64).
  all: try done.
  all: try (intros Hd; specialize (Hjoin Hd); lia).
  all: try (intros Hg; destruct Hgone as [? ?]; [lia | split; congruence || lia]).
  all: try (intros _; by apply forallb_exited_alive).
  all: congruence.
Qed.

Lemma inv_run (c : Z) (result : TestResult) (h : heap) (s0 s : cell) (tr : list label) :
  start c result h = Returned s0 -> run c tr s0 = Some s -> inv c s.
Proof.
  intros Hstart Hrun. revert tr s Hrun.
  apply (run_ind c s0 (fun _ s => inv c s)); [by eapply inv_start |].
  intros tr s l s' _ Hinv Hstep. by eapply inv_step.
Qed.

Lemma total_app (g : Z -> response -> Z) (rs1 rs2 : list (Z * response)) :
  total g (rs1 ++ rs2) = total g rs1 + total g rs2.
Proof. induction rs1 as [| [lat r] rs1 IH]; cbn; [done |]. rewrite IH. lia. Qed.

Lemma total_snoc (g : Z -> response -> Z) (tr : list label) (l : label) :
  total g (returned (tr ++ [l]))
  = total g (returned tr)
    + match l with Return _ latency r => g latency r | _ => 0 end.
Proof.
  unfold returned. rewrite omap_app, total_app. f_equal.
  destruct l; cbn; lia.
Qed.

Lemma occ_app (x : Z) (l1 l2 : list Z) : occ x (l1 ++ l2) = occ x l1 + occ x l2.
Proof. induction l1 as [| y l1 IH]; cbn; [done |]. rewrite IH. lia. Qed.

Lemma contents_append (h : heap) (sl : slice) (x : Z) :
  contents (fst (append h sl x)) (snd (append h sl x)) = contents h sl ++ [x].
Proof.
  destruct sl as [l |]; cbn.
  - by rewrite lookup_insert_eq.
  - by rewrite lookup_insert_eq.
Qed.

Lemma tally_start (c : Z) (result : TestResult) (h : heap) (s0 : cell) :
  start c result h = Returned s0 -> tally [] s0.
Proof.
  intros (Hc & Hcap & ->)%start_returned.
  split; cell_simpl; [.. | unfold int64; lia]; try intros x;
    rewrite ?sumZ_replicate; cbn; rewrite ?Z.mul_0_r; done.
Qed.

Ltac measure_tally :=
  repeat match goal with
  | Hw : workers ?s !! ?i = Some _ |- context [sumZ ?f (<[?i := _]> (workers ?s))] =>
      rewrite (sumZ_insert f _ _ _ _ Hw)
  end;
  rewrite ?contents_append, ?occ_app;
  cbn [pendOk pendErr pendLatency pendInput pendOutput pendSample
       isResp isError respLatency respInput respOutput sampleAt occ] in *.

Lemma tally_step (c : Z) (tr : list label) (l : label) (s s' : cell) :
  tally tr s -> step c l s = Some s' -> tally (tr ++ [l]) s'.
Proof.
  intros [Hok Herr Hlat Hin Hout Hsam (R1 & R2 & R3 & R4 & R5)] Hstep.
  unfold int64 in *.
  break_step Hstep.
  all: try match goal with r : response |- _ => destruct r end.
  all: split;
    [ clear Herr Hlat Hin Hout Hsam R2 R3 R4 R5
    | clear Hok Hlat Hin Hout Hsam R1 R3 R4 R5
    | clear Hok Herr Hin Hout Hsam R1 R2 R4 R5
    | clear Hok Herr Hlat Hout Hsam R1 R2 R3 R5
    | clear Hok Herr Hlat Hin Hsam R1 R2 R3 R4
    | clear Hok Herr Hlat Hin Hout R1 R2 R3 R4 R5; intros x; specialize (Hsam x)
    | clear Hok Herr Hlat Hin Hout Hsam; unfold int64; cell_simpl; repeat split; lia64 ];
    rewrite total_snoc; cell_simpl; measure_tally; unfold sampleAt in *.
  all: try lia64.
  all: repeat case_decide; lia.
Qed.

Lemma tally_run (c : Z) (result : TestResult) (h : heap) (s0 s : cell) (tr : list label) :
  start c result h = Returned s0 -> run c tr s0 = Some s -> tally tr s.
Proof.
  intros Hstart Hrun. revert tr s Hrun.
  apply (run_ind c s0 tally); [by eapply tally_start |].
  intros tr s l s' _ Hinv Hstep. by eapply tally_step.
Qed.
End CellFacts.

(** * The reducer on lists, and the percentile loop *)

Module ReducerFacts.
Import Float64 Slice Engine Spec PercentileFacts.
Local Open Scope Z_scope.

Lemma calculatePercentile_value (h : heap) (s : slice) (p : Z) :
  snd (calculatePercentile h s p) = percentileValue (contents h s) p.
Proof. by rewrite calculatePercentile_spec. Qed.

Lemma calculatePercentile_heap (h : heap) (s : slice) (p : Z) :
  fst (calculatePercentile h s p)
  = <[fresh (dom h) := merge_sort Z.le (contents h s)]> h.
Proof. by rewrite calculatePercentile_spec. Qed.

(** Every array of the heap is left as it was. *)
Lemma calculatePercentile_frame (h : heap) (s : slice) (p : Z) (l : loc) :
  l ∈ dom h -> fst (calculatePercentile h s p) !! l = h !! l.
Proof.
  intros Hl. rewrite calculatePercentile_heap. apply lookup_insert_ne.
  intros <-. by apply (is_fresh (dom h)).
Qed.

Lemma calculatePercentile_dom (h : heap) (s : slice) (p : Z) (l : loc) :
  l ∈ dom h -> l ∈ dom (fst (calculatePercentile h s p)).
Proof. intros Hl. rewrite calculatePercentile_heap, dom_insert. set_solver. Qed.

(** In particular the argument reads the same before and after. *)
Lemma calculatePercentile_input (h : heap) (s : slice) (p : Z) :
  contents (fst (calculatePercentile h s p)) s = contents h s.
Proof.
  destruct s as [l |]; [| done]. cbn [contents].
  destruct (decide (l ∈ dom h)) as [Hl | Hl].
  - by rewrite calculatePercentile_frame.
  - apply not_elem_of_dom in Hl. rewrite calculatePercentile_heap. cbn [contents].
    rewrite Hl. destruct (decide (fresh (dom h) = l)) as [-> | Hne].
    + by rewrite lookup_insert_eq.
    + by rewrite lookup_insert_ne, Hl.
Qed.

Lemma percentileLoop_spec (ps : list Z) (h : heap) (s : slice) (m : gmap Z Z) :
  snd (percentileLoop h s ps m) = percentileEntries (contents h s) ps m
  /\ contents (fst (percentileLoop h s ps m)) s = contents h s
  /\ (forall l, l ∈ dom h ->
        l ∈ dom (fst (percentileLoop h s ps m))
        /\ fst (percentileLoop h s ps m) !! l = h !! l).
Proof.
  revert h m. induction ps as [| p ps IH]; intros h m; [done |].
  cbn [percentileLoop percentileEntries].
  pose proof (calculatePercentile_value h s p) as Hv.
  pose proof (calculatePercentile_input h s p) as Hi.
  pose proof (calculatePercentile_frame h s p) as Hf.
  pose proof (calculatePercentile_dom h s p) as Hd.
  destruct (calculatePercentile h s p) as [h' [v | e]]; cbn [fst snd] in *; rewrite <- Hv.
  - destruct (IH h' (<[p := v]> m)) as (IH1 & IH2 & IH3).
    rewrite IH1, IH2, Hi. split; [done | split; [done |]].
    intros l Hl. destruct (IH3 l (Hd l Hl)) as [Hin ->]. split; [done | by apply Hf].
  - split; [done | split; [done |]]. intros l Hl. split; [by apply Hd | by apply Hf].
Qed.

Lemma percentileValue_panic (l : list Z) (p : Z) (e : panic) :
  percentileValue l p = Panicked e -> e = IndexOutOfRange.
Proof. unfold percentileValue. repeat case_match; congruence. Qed.

(** Below the exactness bound the computed value is the nearest-rank
    element. *)
Lemma percentileValue_exact (l : list Z) (p : Z) :
  l <> [] -> exactSize (Z.of_nat (length l)) -> 0 <= p <= 100 ->
  exists v, nearestRank l p = Some v /\ percentileValue l p = Returned v.
Proof.
  intros Hl Hsize Hp. unfold exactSize in Hsize.
  assert (1 <= Z.of_nat (length l)) as Hn by (destruct l; [done | cbn; lia]).
  set (n := Z.of_nat (length l)) in *.
  assert (0 <= (n - 1) * p <= (n - 1) * 100) as Hk by nia.
  assert (0 <= (n - 1) * p / 100 <= n - 1) as Hi.
  { split; [apply Z.div_pos; lia |]. apply Z.div_le_upper_bound; lia. }
  unfold percentileValue, nearestRank. fold n.
  rewrite percentileIndex_exact by lia.
  replace (0 <=? (n - 1) * p / 100) with true by (symmetry; apply Z.leb_le; lia).
  replace ((n - 1) * p / 100 <? n) with true by (symmetry; apply Z.ltb_lt; lia).
  cbn [andb].
  destruct (merge_sort Z.le l !! Z.to_nat ((n - 1) * p / 100)) as [v |] eqn:Hv; [by exists v |].
  apply lookup_ge_None in Hv. rewrite length_merge_sort in Hv. lia.
Qed.

Lemma StronglySorted_lookup_le (l : list Z) (i j : nat) (x y : Z) :
  StronglySorted Z.le l -> (i <= j)%nat -> l !! i = Some x -> l !! j = Some y -> x <= y.
Proof.
  intros Hs. revert i j. induction Hs as [| a l Hs IH Ha]; intros i j Hij Hx Hy; [done |].
  destruct i as [| i], j as [| j]; simplify_eq/=; [lia | | lia |].
  - rewrite Forall_forall in Ha. apply Ha. by eapply list_elem_of_lookup_2.
  - eapply (IH i j); [lia | done | done].
Qed.

Lemma merge_sort_StronglySorted (l : list Z) : StronglySorted Z.le (merge_sort Z.le l).
Proof. apply StronglySorted_merge_sort; apply _. Qed.

Lemma nearestRank_mono (l : list Z) (p q a b : Z) :
  0 <= p <= q -> nearestRank l p = Some a -> nearestRank l q = Some b -> a <= b.
Proof.
  unfold nearestRank. intros Hpq Ha Hb.
  assert (1 <= Z.of_nat (length l)) as Hn.
  { apply lookup_lt_Some in Ha. rewrite length_merge_sort in Ha. lia. }
  eapply (StronglySorted_lookup_le _ _ _ _ _ (merge_sort_StronglySorted l)); [| exact Ha | exact Hb].
  apply Z2Nat.inj_le; [apply Z.div_pos; nia | apply Z.div_pos; nia |].
  apply Z.div_le_mono; nia.
Qed.

(** The sorted arrangement of a list is unique. *)
Lemma merge_sort_unique (l sorted : list Z) :
  Sorted Z.le sorted -> sorted ≡ₚ l -> sorted = merge_sort Z.le l.
Proof.
  intros Hs Hp.
  apply (StronglySorted_unique Z.le).
  - apply Sorted_StronglySorted; [apply _ | done].
  - apply merge_sort_StronglySorted.
  - by rewrite merge_sort_Permutation.
Qed.

Lemma percentileEntries_lookup (l ps : list Z) (m0 m : gmap Z Z) (p v : Z) :
  percentileEntries l ps m0 = Returned m -> m !! p = Some v ->
  ((p ∈ ps) /\ percentileValue l p = Returned v) \/ ((p ∉ ps) /\ m0 !! p = Some v).
Proof.
  revert m0. induction ps as [| a ps IH]; intros m0 Hm Hv.
  - cbn in Hm. simplify_eq. right. split; [apply not_elem_of_nil | done].
  - cbn in Hm. destruct (percentileValue l a) as [va | e] eqn:Ha; [| done].
    destruct (IH _ Hm Hv) as [[Hin Hval] | [Hnin Hold]].
    + left. split; [by apply elem_of_cons; right | done].
    + destruct (decide (a = p)) as [-> | Hne].
      * rewrite lookup_insert_eq in Hold. simplify_eq. left.
        split; [by apply elem_of_cons; left | done].
      * rewrite lookup_insert_ne in Hold by done. right.
        split; [| done]. rewrite elem_of_cons. intros [-> | ?]; done.
Qed.

Lemma percentileEntries_present (l ps : list Z) (m0 m : gmap Z Z) (p : Z) :
  percentileEntries l ps m0 = Returned m -> (p ∈ ps) \/ is_Some (m0 !! p) ->
  is_Some (m !! p).
Proof.
  revert m0. induction ps as [| a ps IH]; intros m0 Hm Hp.
  - cbn in Hm. simplify_eq. destruct Hp as [Hp | Hp]; [by apply elem_of_nil in Hp | done].
  - cbn in Hm. destruct (percentileValue l a) as [va | e] eqn:Ha; [| done].
    apply (IH _ Hm). destruct (decide (a = p)) as [-> | Hne].
    + right. by rewrite lookup_insert_eq.
    + destruct Hp as [Hp | Hp].
      * apply elem_of_cons in Hp as [-> | Hp]; [done | by left].
      * right. by rewrite lookup_insert_ne.
Qed.

Lemma percentileEntries_total (l ps : list Z) (m0 : gmap Z Z) :
  (forall p, p ∈ ps -> exists v, percentileValue l p = Returned v) ->
  exists m, percentileEntries l ps m0 = Returned m.
Proof.
  revert m0. induction ps as [| a ps IH]; intros m0 Hall; [by exists m0 |].
  cbn. destruct (Hall a) as [v ->]; [by apply elem_of_cons; left |].
  apply IH. intros p Hp. apply Hall. by apply elem_of_cons; right.
Qed.

(** The map does not depend on the order of the requested percentiles. *)
Lemma percentileEntries_perm (l ps ps' : list Z) :
  ps ≡ₚ ps' -> forall m0, percentileEntries l ps m0 = percentileEntries l ps' m0.
Proof.
  induction 1 as [| x ps ps' _ IH | x y ps | ps1 ps2 ps3 _ IH1 _ IH2]; intros m0.
  - done.
  - cbn. destruct (percentileValue l x); [apply IH | done].
  - cbn. destruct (percentileValue l x) as [vx | ex] eqn:Hx,
             (percentileValue l y) as [vy | ey] eqn:Hy; try done.
    + destruct (decide (x = y)) as [-> | Hne].
      * rewrite Hx in Hy. by injection Hy as ->.
      * by rewrite insert_insert_ne.
    + apply percentileValue_panic in Hx, Hy. by subst.
  - by rewrite IH1.
Qed.

End ReducerFacts.

(** * The end of a cell *)

Module FinishFacts.
Import Float64 Slice Engine Spec PercentileFacts ReducerFacts CellFacts.
Local Open Scope Z_scope.

Lemma runTestWithConcurrency_returned (cfg : TestConfig) (c : Z) (result : TestResult)
    (h h' : heap) (sch : schedule) (r : TestResult) (err : option string) :
  runTestWithConcurrency cfg c result h sch = Some (h', Returned (r, err)) ->
  err = None /\
  exists s0 s, start c result h = Returned s0
    /\ run c (sch_trace sch) s0 = Some s
    /\ disp s = DJoined
    /\ finish cfg s (sch_elapsed sch) result = (h', Returned r).
Proof.
  unfold runTestWithConcurrency. intros H.
  repeat (case_match; try done; simplify_eq). eauto 10.
Qed.


(** ** Quiet pools *)

Lemma sumZ_zero (f : worker -> Z) (P : worker -> bool) (ws : list worker) :
  (forall w, P w = true -> f w = 0) -> forallb P ws = true -> sumZ f ws = 0.
Proof.
  intros Hf. induction ws as [| w ws IH]; [done |]. cbn.
  intros [Hw Hws]%andb_prop. rewrite (Hf w Hw), IH by done. done.
Qed.

Lemma alive_exited (ws : list worker) : sumZ alive ws = 0 -> forallb exited ws = true.
Proof.
  induction ws as [| w ws IH]; [done |]. cbn. intros H.
  pose proof (alive_nonneg w). pose proof (sumZ_nonneg alive ws alive_nonneg).
  rewrite IH by lia. destruct w; cbn in *; lia || done.
Qed.

Lemma exited_recorded (ws : list worker) :
  forallb exited ws = true -> forallb recorded ws = true.
Proof.
  induction ws as [| w ws IH]; [done |]. cbn. intros [Hw Hws]%andb_prop.
  rewrite IH by done. by destruct w.
Qed.

(** Once the dispatcher has joined the workers the channel is empty and no
    worker holds anything. *)
Lemma joined_quiet (c : Z) (s : cell) :
  inv c s -> disp s = DJoined ->
  jobs s = 0%nat /\ forallb exited (workers s) = true.
Proof.
  intros [_ _ _ _ Hgone Hjoin Hcap Hpool] Hd. specialize (Hjoin Hd).
  pose proof (alive_exited _ Hjoin) as Hex. split; [| done].
  destruct (workers s) as [| w ws] eqn:Hws.
  - assert (c = 0) as -> by (cbn in Hpool; lia).
    assert (jobsCap 0 = 0) as Hz by reflexivity. lia.
  - apply Hgone. cbn in Hex |- *. apply andb_prop in Hex as [Hw _].
    pose proof (sumZ_nonneg gone ws gone_nonneg). destruct w; try done. cbn. lia.
Qed.

Lemma joined_tokens (c : Z) (s : cell) :
  inv c s -> disp s = DJoined ->
  (successCount s + failedCount s - requestCount s) mod 2 ^ 64 = 0.
Proof.
  intros Hinv Hd. destruct (joined_quiet c s Hinv Hd) as [Hj Hex].
  destruct Hinv as [Htok _ _ _ _ _ _ _].
  rewrite Hj, Hd, (sumZ_zero holdsToken exited) in Htok; [| by intros [] | done].
  cbn [uncounted] in Htok. lia64.
Qed.

(** When every measurement has been added, the accumulators are the sums
    over the invocations that have returned. *)
Lemma recorded_tally (tr : list label) (s : cell) :
  tally tr s -> forallb recorded (workers s) = true ->
  successCount s = Int64.wrap (total isResp (returned tr))
  /\ failedCount s = Int64.wrap (total isError (returned tr))
  /\ totalLatency s = Int64.wrap (total respLatency (returned tr))
  /\ inputTokens s = Int64.wrap (total respInput (returned tr))
  /\ outputTokens s = Int64.wrap (total respOutput (returned tr))
  /\ forall x, occ x (contents (mem s) (latencies s)) = total (sampleAt x) (returned tr).
Proof.
  intros [Hok Herr Hlat Hin Hout Hsam (R1 & R2 & R3 & R4 & R5)] Hrec.
  unfold int64 in *.
  rewrite (sumZ_zero pendOk recorded) in Hok; [| by intros [| | |? []|? []| | | | | | |] | done].
  rewrite (sumZ_zero pendErr recorded) in Herr; [| by intros [| | |? []|? []| | | | | | |] | done].
  rewrite (sumZ_zero pendLatency recorded) in Hlat; [| by intros [| | |? []|? []| | | | | | |] | done].
  rewrite (sumZ_zero pendInput recorded) in Hin; [| by intros [| | |? []|? []| | | | | | |] | done].
  rewrite (sumZ_zero pendOutput recorded) in Hout; [| by intros [| | |? []|? []| | | | | | |] | done].
  repeat split; [clear Herr Hlat Hin Hout | clear Hok Hlat Hin Hout | clear Hok Herr Hin Hout
                | clear Hok Herr Hlat Hout | clear Hok Herr Hlat Hin |]; try lia64.
  intros x. specialize (Hsam x).
  rewrite (sumZ_zero (pendSample x) recorded) in Hsam; [lia | by intros [] | done].
Qed.

Lemma occ_fst_total (x : Z) (rs : list (Z * response)) :
  occ x (fst <$> rs) = total (sampleAt x) rs.
Proof. induction rs as [| [lat r] rs IH]; [done |]. cbn. rewrite IH. done. Qed.

Lemma occ_nonneg (x : Z) (l : list Z) : 0 <= occ x l.
Proof. induction l as [| y l IH]; cbn; [lia |]. case_decide; lia. Qed.

Lemma occ_elem_of (x : Z) (l : list Z) : 0 < occ x l -> x ∈ l.
Proof.
  induction l as [| y l IH]; cbn; [lia |]. case_decide as Hy.
  - intros _. subst. by left.
  - intros H. right. apply IH. lia.
Qed.

Lemma occ_Permutation_proper (x : Z) (l1 l2 : list Z) : l1 ≡ₚ l2 -> occ x l1 = occ x l2.
Proof. induction 1; cbn; lia. Qed.

(** Lists with the same number of occurrences of every value are
    permutations of each other. *)
Lemma occ_Permutation (l1 l2 : list Z) :
  (forall x, occ x l1 = occ x l2) -> l1 ≡ₚ l2.
Proof.
  revert l2. induction l1 as [| a l1 IH]; intros l2 H.
  - destruct l2 as [| b l2]; [done |]. specialize (H b). cbn in H.
    pose proof (occ_nonneg b l2). case_decide; [lia | done].
  - assert (a ∈ l2) as Ha.
    { apply occ_elem_of. rewrite <- H. cbn. pose proof (occ_nonneg a l1).
      case_decide; [lia | done]. }
    apply elem_of_Permutation in Ha as [l2' Hl2]. rewrite Hl2. constructor.
    apply IH. intros x. specialize (H x).
    rewrite (occ_Permutation_proper x l2 (a :: l2') Hl2) in H. cbn in H. lia.
Qed.

(** ** [finish] *)


Lemma averages_returned (s : cell) (td : Z) (r0 : TestResult) :
  0 < successCount s ->
  exists a, addAverages s td r0 = Returned a
    /\ RequestsPerSec a = div (of_int (SuccessRequests a)) (Duration.Seconds td)
    /\ TokensPerSec a = div (of_int (TotalTokens a)) (Duration.Seconds td)
    /\ TotalRequests a = TotalRequests r0 /\ SuccessRequests a = SuccessRequests r0
    /\ FailedRequests a = FailedRequests r0
    /\ LatencyPercentiles a = LatencyPercentiles r0.
Proof.
  intros Hs. unfold addAverages, Int64.quot.
  replace (successCount s =? 0) with false by (symmetry; apply Z.eqb_neq; lia).
  eexists. split; [done |]. cbn. done.
Qed.

Lemma guard_true (l ps : list Z) :
  (0 <? Z.of_nat (length l)) && (0 <? Z.of_nat (length ps)) = true ->
  l <> [] /\ ps <> [].
Proof. by destruct l, ps. Qed.

Lemma guard_false (l ps : list Z) :
  (0 <? Z.of_nat (length l)) && (0 <? Z.of_nat (length ps)) = false ->
  l = [] \/ ps = [].
Proof. destruct l, ps; auto. done. Qed.

(** What [finish] returns, stage by stage. *)
Lemma finish_returned (cfg : TestConfig) (s : cell) (td : Z) (result : TestResult)
    (h' : heap) (r : TestResult) :
  finish cfg s td result = (h', Returned r) ->
  exists a,
    ((0 < successCount s /\ addAverages s td (addCounts s td result) = Returned a)
     \/ (successCount s <= 0 /\ a = addCounts s td result))
    /\ contents h' (latencies s) = contents (mem s) (latencies s)
    /\ ((contents (mem s) (latencies s) <> [] /\ Config.LatencyPercentiles cfg <> []
         /\ exists m,
              percentileEntries (contents (mem s) (latencies s))
                                (Config.LatencyPercentiles cfg) ∅ = Returned m
              /\ r = storePercentiles m (storeLatencies (latencies s) a))
        \/ ((contents (mem s) (latencies s) = [] \/ Config.LatencyPercentiles cfg = [])
            /\ r = storeLatencies (latencies s) a)).
Proof.
  unfold finish, len. intros H.
  destruct (percentileLoop_spec (Config.LatencyPercentiles cfg) (mem s) (latencies s) ∅)
    as (Hv & Hc & _).
  assert (exists a,
    (if 0 <? successCount s then addAverages s td (addCounts s td result)
     else Returned (addCounts s td result)) = Returned a
    /\ ((0 < successCount s /\ addAverages s td (addCounts s td result) = Returned a)
        \/ (successCount s <= 0 /\ a = addCounts s td result))) as (a & Ea & Ha).
  { destruct (0 <? successCount s) eqn:Hsc.
    - apply Z.ltb_lt in Hsc.
      destruct (addAverages s td (addCounts s td result)) as [a | p]; [| done].
      exists a. split; [done | by left].
    - apply Z.ltb_ge in Hsc. eexists. split; [done | by right]. }
  rewrite Ea in H. exists a. split; [done |].
  destruct (_ && _) eqn:G.
  - apply guard_true in G as [G1 G2].
    destruct (percentileLoop _ _ _ _) as [h1 [m | e]]; [| done].
    cbn [fst snd] in *. simplify_eq. split; [done |]. left.
    split; [done | split; [done |]]. by exists m.
  - apply guard_false in G. simplify_eq. split; [done |]. by right.
Qed.

(** [finish] returns whenever every requested percentile has a value. *)
Lemma finish_total (cfg : TestConfig) (s : cell) (td : Z) (result : TestResult) :
  (contents (mem s) (latencies s) <> [] ->
   forall p, p ∈ Config.LatencyPercentiles cfg ->
     exists v, percentileValue (contents (mem s) (latencies s)) p = Returned v) ->
  exists h' r, finish cfg s td result = (h', Returned r).
Proof.
  intros Hall. unfold finish, len.
  destruct (percentileLoop_spec (Config.LatencyPercentiles cfg) (mem s) (latencies s) ∅)
    as (Hv & _ & _).
  assert (exists a, (if 0 <? successCount s
                     then addAverages s td (addCounts s td result)
                     else Returned (addCounts s td result)) = Returned a) as [a ->].
  { destruct (0 <? successCount s) eqn:Hsc; [| by eexists].
    apply Z.ltb_lt in Hsc. destruct (averages_returned s td (addCounts s td result) Hsc)
      as (a & -> & _). by eexists. }
  destruct (contents (mem s) (latencies s)) as [| x l] eqn:Hl; [cbn; by eauto |].
  destruct (Config.LatencyPercentiles cfg) as [| p ps] eqn:Hp; [cbn; by eauto |].
  destruct (percentileEntries_total (x :: l) (p :: ps) ∅) as [m Hm]; [by apply Hall |].
  rewrite Hm in Hv. cbn -[percentileLoop].
  destruct (percentileLoop _ _ _ _) as [h1 res]. cbn in Hv. subst res. by eauto.
Qed.

Lemma percentileEntries_panic (l ps : list Z) (m0 : gmap Z Z) (e : panic) :
  percentileEntries l ps m0 = Panicked e -> e = IndexOutOfRange.
Proof.
  revert m0. induction ps as [| p ps IH]; intros m0; [done |]. cbn.
  destruct (percentileValue l p) eqn:Hp; [apply IH |].
  intros [= <-]. by eapply percentileValue_panic.
Qed.

(** The division by [successCount] is guarded: [finish] never divides by zero. *)
Lemma finish_no_division_by_zero (cfg : TestConfig) (s : cell) (td : Z) (result : TestResult) :
  snd (finish cfg s td result) <> Panicked DivideByZero.
Proof.
  unfold finish, len.
  destruct (percentileLoop_spec (Config.LatencyPercentiles cfg) (mem s) (latencies s) ∅)
    as (Hv & _ & _).
  assert (exists a, (if 0 <? successCount s
                     then addAverages s td (addCounts s td result)
                     else Returned (addCounts s td result)) = Returned a) as [a ->].
  { destruct (0 <? successCount s) eqn:Hsc; [| by eexists].
    apply Z.ltb_lt in Hsc. destruct (averages_returned s td (addCounts s td result) Hsc)
      as (a & -> & _). by eexists. }
  destruct (_ && _); [| done].
  destruct (percentileLoop _ _ _ _) as [h1 [m | e]]; [done |]. cbn in Hv |- *.
  symmetry in Hv. apply percentileEntries_panic in Hv. by subst.
Qed.

End FinishFacts.

(** * The matrix driver *)

Module RunFacts.
Import Slice Engine Spec.
Local Open Scope Z_scope.

Lemma levels_resolve (cfg : TestConfig) (mdl : LLMModel) :
  (if 0 <? Z.of_nat (length (GetConcurrencyLevels mdl))
   then GetConcurrencyLevels mdl
   else if 0 <? Z.of_nat (length (Config.ConcurrencyLevels cfg))
        then Config.ConcurrencyLevels cfg
        else [Config.Concurrency cfg])
  = resolveLevels cfg mdl.
Proof.
  unfold resolveLevels.
  destruct (GetConcurrencyLevels mdl); [| done].
  by destruct (Config.ConcurrencyLevels cfg).
Qed.

Section Facts.
Context {World : Type}.
Variable runCell :
  LLMModel -> Z -> TestResult -> World -> World * TestResult * option string.

Lemma runCells_app (cs1 cs2 : list (LLMModel * Z)) (acc : gmap string TestResult)
    (w : World) :
  runCells runCell (cs1 ++ cs2) acc w
  = match runCells runCell cs1 acc w with
    | (w1, acc1, done1, Some f) => (w1, acc1, done1, Some f)
    | (w1, acc1, done1, None) =>
        match runCells runCell cs2 acc1 w1 with
        | (w2, acc2, done2, f) => (w2, acc2, done1 ++ done2, f)
        end
    end.
Proof.
  revert acc w. induction cs1 as [| [mdl c] cs1 IH]; intros acc w.
  - cbn. by destruct (runCells runCell cs2 acc w) as [[[? ?] ?] ?].
  - cbn. destruct (runCell mdl c _ w) as [[w' r'] [err |]]; [done |].
    rewrite IH. destruct (runCells runCell cs1 _ w') as [[[w1 acc1] done1] [f |]]; [done |].
    by destruct (runCells runCell cs2 acc1 w1) as [[[? ?] ?] ?].
Qed.

Lemma runLevels_runCells (mdl : LLMModel) (levels : list Z)
    (acc : gmap string TestResult) (w : World) :
  runLevels runCell mdl levels acc w
  = loopOutcome (runCells runCell (map (pair mdl) levels) acc w).
Proof.
  revert acc w. induction levels as [| c levels IH]; intros acc w; [done |].
  cbn. destruct (runCell mdl c _ w) as [[w' r'] [err |]]; [done |].
  rewrite IH. unfold resultKey.
  by destruct (runCells runCell _ _ w') as [[[w1 acc1] done1] [[[m1 c1] e1] |]].
Qed.

Lemma runModels_runCells (cfg : TestConfig) (mdls : list LLMModel)
    (acc : gmap string TestResult) (w : World) :
  runModels runCell cfg mdls acc w
  = loopOutcome (runCells runCell (matrix cfg mdls) acc w).
Proof.
  revert acc w. induction mdls as [| mdl mdls IH]; intros acc w; [done |].
  cbn [runModels matrix flat_map]. rewrite levels_resolve, runLevels_runCells, runCells_app.
  fold (matrix cfg mdls).
  destruct (runCells runCell (map (pair mdl) (resolveLevels cfg mdl)) acc w)
    as [[[w1 acc1] done1] [[[m1 c1] e1] |]]; [done |].
  cbn [loopOutcome]. rewrite IH.
  by destruct (runCells runCell (matrix cfg mdls) acc1 w1)
    as [[[w2 acc2] done2] [[[m2 c2] e2] |]].
Qed.

(** The cells that completed are a prefix of the list; the failing cell,
    if any, is the next one. *)
Lemma runCells_completed (cells : list (LLMModel * Z)) (acc : gmap string TestResult)
    (w : World) :
  match runCells runCell cells acc w with
  | (_, _, completed, None) => completed = cells
  | (_, _, completed, Some (mdl, c, _)) =>
      exists rest, cells = completed ++ (mdl, c) :: rest
  end.
Proof.
  revert acc w. induction cells as [| [mdl c] cells IH]; intros acc w; [done |].
  cbn. destruct (runCell mdl c _ w) as [[w' r'] [err |]]; [by exists cells |].
  specialize (IH (<[resultKey mdl c := r']> acc) w').
  destruct (runCells runCell cells _ w') as [[[w1 acc1] done1] [[[m1 c1] e1] |]].
  - destruct IH as [rest ->]. by exists rest.
  - by rewrite IH.
Qed.
End Facts.

Lemma matrix_model (cfg : TestConfig) (mdls : list LLMModel) (mdl : LLMModel) (c : Z) :
  (mdl, c) ∈ matrix cfg mdls -> mdl ∈ mdls /\ c ∈ resolveLevels cfg mdl.
Proof.
  unfold matrix. rewrite list_elem_of_In, in_flat_map.
  intros (m & Hm & Hc). apply in_map_iff in Hc as (c' & [= <- <-] & Hc').
  by rewrite !list_elem_of_In.
Qed.

Lemma runCells_noteCell (cells : list (LLMModel * Z)) (acc : gmap string TestResult)
    (seen : list (string * Z)) :
  exists acc',
    runCells noteCell cells acc seen = (seen ++ (cellName <$> cells), acc', cells, None).
Proof.
  revert acc seen. induction cells as [| [mdl c] cells IH]; intros acc seen.
  - exists acc. cbn. by rewrite app_nil_r.
  - cbn [runCells noteCell].
    destruct (IH (<[resultKey mdl c := newTestResult (GetName mdl) c]> acc)
                 (seen ++ [(GetName mdl, c)])) as [acc' ->].
    exists acc'. cbn. by rewrite <- app_assoc.
Qed.

End RunFacts.

(** * From executions to results *)

Module ClaimFacts.
Import Float64 Slice Engine Spec PercentileFacts ReducerFacts CellFacts FinishFacts RunFacts.
Local Open Scope Z_scope.

Lemma inFlight_sum (s : cell) : Z.of_nat (inFlight s) = sumZ inCall (workers s).
Proof.
  unfold inFlight. induction (workers s) as [| w ws IH]; [done |].
  destruct w; cbn [List.filter invoking inCall sumZ length]; lia.
Qed.

Lemma total_count (rs : list (Z * response)) :
  total isResp rs + total isError rs = Z.of_nat (length rs).
Proof. induction rs as [| [lat [r | msg]] rs IH]; cbn [total isResp isError length]; lia. Qed.




(** In a joined state every accumulator is the sum over the invocations of
    the trace. *)
Lemma joined_tally (c : Z) (result : TestResult) (h : heap) (s0 s : cell)
    (tr : list label) :
  start c result h = Returned s0 -> run c tr s0 = Some s -> disp s = DJoined ->
  (successCount s + failedCount s - requestCount s) mod 2 ^ 64 = 0
  /\ successCount s = Int64.wrap (total isResp (returned tr))
  /\ failedCount s = Int64.wrap (total isError (returned tr))
  /\ totalLatency s = Int64.wrap (total respLatency (returned tr))
  /\ inputTokens s = Int64.wrap (total respInput (returned tr))
  /\ outputTokens s = Int64.wrap (total respOutput (returned tr))
  /\ contents (mem s) (latencies s) ≡ₚ (returned tr).*1.
Proof.
  intros Hstart Hrun Hd.
  pose proof (inv_run _ _ _ _ _ _ Hstart Hrun) as Hinv.
  pose proof (tally_run _ _ _ _ _ _ Hstart Hrun) as Htally.
  destruct (joined_quiet c s Hinv Hd) as [_ Hex].
  destruct (recorded_tally _ _ Htally (exited_recorded _ Hex))
    as (H1 & H2 & H3 & H4 & H5 & H6).
  repeat (split; [done || by apply (joined_tokens c) |]).
  apply occ_Permutation. intros x. by rewrite H6, occ_fst_total.
Qed.

(** A cell that returns went through such a state. *)
Lemma cell_returned (cfg : TestConfig) (c : Z) (result : TestResult) (h h' : heap)
    (sch : schedule) (r : TestResult) (err : option string) :
  runTestWithConcurrency cfg c result h sch = Some (h', Returned (r, err)) ->
  err = None /\
  exists s,
    finish cfg s (sch_elapsed sch) result = (h', Returned r)
    /\ (successCount s + failedCount s - requestCount s) mod 2 ^ 64 = 0
    /\ successCount s = Int64.wrap (total isResp (returned (sch_trace sch)))
    /\ failedCount s = Int64.wrap (total isError (returned (sch_trace sch)))
    /\ totalLatency s = Int64.wrap (total respLatency (returned (sch_trace sch)))
    /\ inputTokens s = Int64.wrap (total respInput (returned (sch_trace sch)))
    /\ outputTokens s = Int64.wrap (total respOutput (returned (sch_trace sch)))
    /\ contents (mem s) (latencies s) ≡ₚ (returned (sch_trace sch)).*1.
Proof.
  intros (-> & s0 & s & Hstart & Hrun & Hd & Hfin)%runTestWithConcurrency_returned.
  split; [done |]. exists s. split; [done |].
  exact (joined_tally _ _ _ _ _ _ Hstart Hrun Hd).
Qed.

(** The fields of the result [finish] returns. *)
Lemma finish_fields (cfg : TestConfig) (s : cell) (td : Z) (result : TestResult)
    (h' : heap) (r : TestResult) :
  finish cfg s td result = (h', Returned r) ->
  TotalRequests r = Int64.add (TotalRequests result) (requestCount s)
  /\ SuccessRequests r = Int64.add (SuccessRequests result) (successCount s)
  /\ FailedRequests r = Int64.add (FailedRequests result) (failedCount s)
  /\ AllLatencies r = latencies s
  /\ contents h' (latencies s) = contents (mem s) (latencies s)
  /\ (0 < successCount s ->
        RequestsPerSec r = div (of_int (SuccessRequests r)) (Duration.Seconds td)
        /\ TokensPerSec r = div (of_int (TotalTokens r)) (Duration.Seconds td))
  /\ (successCount s <= 0 ->
        RequestsPerSec r = RequestsPerSec result /\ TokensPerSec r = TokensPerSec result
        /\ AvgLatency r = AvgLatency result
        /\ AvgInputTokens r = AvgInputTokens result
        /\ AvgOutputTokens r = AvgOutputTokens result
        /\ AvgTotalTokens r = AvgTotalTokens result).
Proof.
  intros (a & Ha & Hc & Hr)%finish_returned.
  assert (exists m0, r = storeLatencies (latencies s) a
                     \/ r = storePercentiles m0 (storeLatencies (latencies s) a)) as [m0 Hr'].
  { destruct Hr as [(_ & _ & m & _ & ->) | (_ & ->)]; [exists m; by right | exists ∅; by left]. }
  clear Hr. destruct Ha as [[Hs Ha] | [Hs ->]].
  - destruct (averages_returned s td (addCounts s td result) Hs)
      as (a' & Ea & E1 & E2 & E3 & E4 & E5 & _).
    rewrite Ea in Ha. injection Ha as ->.
    assert (TotalRequests r = TotalRequests a /\ SuccessRequests r = SuccessRequests a
            /\ FailedRequests r = FailedRequests a /\ AllLatencies r = latencies s
            /\ RequestsPerSec r = RequestsPerSec a /\ TokensPerSec r = TokensPerSec a
            /\ TotalTokens r = TotalTokens a) as (F1 & F2 & F3 & F4 & F5 & F6 & F7)
      by (by destruct Hr' as [-> | ->]).
    rewrite F1, F2, F3, F4, F5, F6, F7, E3, E4, E5.
    split; [done |]. split; [done |]. split; [done |]. split; [done |]. split; [done |].
    split; [intros _; by rewrite <- E4 | intros; lia].
  - assert (TotalRequests r = TotalRequests (addCounts s td result)
            /\ SuccessRequests r = SuccessRequests (addCounts s td result)
            /\ FailedRequests r = FailedRequests (addCounts s td result)
            /\ AllLatencies r = latencies s
            /\ RequestsPerSec r = RequestsPerSec result /\ TokensPerSec r = TokensPerSec result
            /\ AvgLatency r = AvgLatency result
            /\ AvgInputTokens r = AvgInputTokens result
            /\ AvgOutputTokens r = AvgOutputTokens result
            /\ AvgTotalTokens r = AvgTotalTokens result)
      as (F1 & F2 & F3 & F4 & F5 & F6 & F7 & F8 & F9 & F10)
      by (by destruct Hr' as [-> | ->]).
    rewrite F1, F2, F3, F4.
    split; [done |]. split; [done |]. split; [done |]. split; [done |]. split; [done |].
    split; [intros; lia | done].
Qed.


(** An entry of the map the percentile loop builds from the empty one, at a
    size binary64 handles exactly, is the nearest-rank value. *)
Lemma stored_percentile (l ps : list Z) (m : gmap Z Z) (p : Z) :
  percentileEntries l ps ∅ = Returned m -> p ∈ ps ->
  l <> [] -> exactSize (Z.of_nat (length l)) -> 0 <= p <= 100 ->
  exists v, m !! p = Some v /\ nearestRank l p = Some v.
Proof.
  intros Hm Hp Hl Hsize Hr.
  destruct (percentileEntries_present l ps ∅ m p Hm (or_introl Hp)) as [v Hv].
  exists v. split; [done |].
  destruct (percentileEntries_lookup l ps ∅ m p v Hm Hv) as [[_ Hval] | [Hn _]]; [| done].
  destruct (percentileValue_exact l p Hl Hsize Hr) as (v' & Hrank & Hval').
  rewrite Hval in Hval'. by injection Hval' as ->.
Qed.

(** Which map [finish] stores. *)
Lemma finish_percentiles (cfg : TestConfig) (s : cell) (td : Z) (result : TestResult)
    (h' : heap) (r : TestResult) :
  finish cfg s td result = (h', Returned r) ->
  (contents (mem s) (latencies s) <> [] -> Config.LatencyPercentiles cfg <> [] ->
     exists m, LatencyPercentiles r = Some m
       /\ percentileEntries (contents (mem s) (latencies s))
                            (Config.LatencyPercentiles cfg) ∅ = Returned m)
  /\ (contents (mem s) (latencies s) = [] \/ Config.LatencyPercentiles cfg = [] ->
        LatencyPercentiles r = LatencyPercentiles result).
Proof.
  intros (a & Ha & _ & Hr)%finish_returned.
  assert (LatencyPercentiles a = LatencyPercentiles result) as Hlp.
  { destruct Ha as [[Hs Ha] | [_ ->]]; [| done].
    destruct (averages_returned s td (addCounts s td result) Hs) as (a' & Ea & Hrest).
    rewrite Ea in Ha. injection Ha as ->. by destruct Hrest as (_ & _ & _ & _ & _ & ->). }
  destruct Hr as [(Hl & Hps & m & Hm & ->) | (Hno & ->)].
  - split; [intros _ _; by exists m |]. by intros [? | ?].
  - split; [| done]. intros Hl Hps. by destruct Hno.
Qed.


End ClaimFacts.

(** * The claims *)

Import Float64 Slice Engine Spec Examples.
Import PercentileFacts ReducerFacts CellFacts FinishFacts RunFacts ClaimFacts.
Local Open Scope Z_scope.

(** C1.  For every cell that [runTestWithConcurrency] completes, the counts of
    the result reconcile: [SuccessRequests + FailedRequests == TotalRequests]
    (given that they did in the result handed in, as in the fresh result [Run]
    creates).  Every token pushed yields exactly one outcome: the three counts
    grow by the number of successful, of failed and of all invocations of the
    execution. *)
Theorem C1_counts_reconcile (cfg : TestConfig) (c : Z) (result : TestResult)
    (h h' : heap) (sch : schedule) (r : TestResult) (err : option string) :
  Int64.add (SuccessRequests result) (FailedRequests result) = TotalRequests result ->
  runTestWithConcurrency cfg c result h sch = Some (h', Returned (r, err)) ->
  Int64.add (SuccessRequests r) (FailedRequests r) = TotalRequests r
  /\ SuccessRequests r
     = Int64.add (SuccessRequests result)
                 (Int64.wrap (total isResp (returned (sch_trace sch))))
  /\ FailedRequests r
     = Int64.add (FailedRequests result)
                 (Int64.wrap (total isError (returned (sch_trace sch))))
  /\ TotalRequests r
     = Int64.add (TotalRequests result)
                 (Int64.wrap (Z.of_nat (length (returned (sch_trace sch))))).
Proof.
  intros Hpre (_ & s & Hfin & Htok & Hok & Herr & _)%cell_returned.
  destruct (finish_fields _ _ _ _ _ _ Hfin) as (-> & -> & -> & _).
  rewrite <- Hok, <- Herr, <- total_count.
  set (a := total isResp _) in *. set (b := total isError _) in *.
  clearbody a b. clear Hfin.
  repeat split; try done; lia64.
Qed.

(** A cell with one failing invocation completes and its counts reconcile. *)
Lemma C1_witness :
  exists h' r err,
    runTestWithConcurrency cfgEx 1 (newTestResult "m" 1) ∅ schFail
    = Some (h', Returned (r, err))
    /\ Int64.add (SuccessRequests r) (FailedRequests r) = TotalRequests r
    /\ TotalRequests r = 1.
Proof.
  destruct (runTestWithConcurrency cfgEx 1 (newTestResult "m" 1) ∅ schFail)
    as [[h' [[r err] | p]] |] eqn:E; [| by vm_compute in E | by vm_compute in E].
  exists h', r, err. split; [done |].
  destruct (C1_counts_reconcile cfgEx 1 (newTestResult "m" 1) ∅ h' schFail r err)
    as (H1 & _ & _ & H4); [reflexivity | exact E |].
  split; [exact H1 | exact H4].
Defined.

(** C9.  At every instant of a cell run at concurrency level [c], the
    invocations of [GenerateResponse] in flight are at most the semaphore
    slots taken (a worker holds its slot for the whole invocation), which are
    at most [c]. *)
Theorem C9_in_flight_bound (c : Z) (result : TestResult) (h : heap) (s0 s : cell)
    (tr : list label) :
  start c result h = Returned s0 -> run c tr s0 = Some s ->
  Z.of_nat (inFlight s) <= Z.of_nat (sem s) /\ Z.of_nat (sem s) <= c.
Proof.
  intros Hstart Hrun. destruct (inv_run _ _ _ _ _ _ Hstart Hrun) as [_ Hslot Hsem _ _ _ _ _].
  split; [| done]. rewrite inFlight_sum, Hslot. apply sumZ_le. by intros [].
Qed.

(** Two workers, both in flight at level 2: the bound is reached, not passed. *)
Lemma C9_witness :
  exists s0 s,
    start 2 (newTestResult "m" 2) ∅ = Returned s0
    /\ run 2 bothInvoking s0 = Some s
    /\ inFlight s = 2%nat
    /\ Z.of_nat (inFlight s) <= Z.of_nat (sem s) /\ Z.of_nat (sem s) <= 2.
Proof.
  destruct (start 2 (newTestResult "m" 2) ∅) as [s0 | p] eqn:E0; [| by vm_compute in E0].
  destruct (run 2 bothInvoking s0) as [s |] eqn:E1.
  2:{ vm_compute in E0. injection E0 as <-. by vm_compute in E1. }
  exists s0, s. split; [done |]. split; [done |]. split.
  - vm_compute in E0. injection E0 as <-. vm_compute in E1. injection E1 as <-. reflexivity.
  - exact (C9_in_flight_bound 2 (newTestResult "m" 2) ∅ s0 s bothInvoking E0 E1).
Defined.




(** C2.  For a non-empty latency slice of length [n] and a percentile [p]
    between 0 and 100, [calculatePercentile] returns the element at
    zero-based index [floor((n-1) * p / 100)] of the ascending arrangement of
    the slice, for [n] in the range where binary64 holds [(n-1) * p] exactly;
    on the five samples 10ms .. 50ms and [p = 50] it returns 30ms. *)
Theorem C2_nearest_rank :
  (forall (h : heap) (latencies : slice) (p : Z),
     contents h latencies <> [] -> exactSize (len h latencies) -> 0 <= p <= 100 ->
     exists v,
       snd (calculatePercentile h latencies p) = Returned v
       /\ forall sorted, Sorted Z.le sorted -> sorted ≡ₚ contents h latencies ->
            sorted !! Z.to_nat ((len h latencies - 1) * p / 100) = Some v)
  /\ snd (calculatePercentile hEx (Some 1%positive) 50) = Returned (30 * ms).
Proof.
  split; [| by vm_compute].
  intros h latencies p Hne Hsize Hp. unfold len in *.
  destruct (percentileValue_exact _ p Hne Hsize Hp) as (v & Hrank & Hval).
  exists v. rewrite calculatePercentile_value. split; [done |].
  intros sorted Hs Hperm. by rewrite (merge_sort_unique _ _ Hs Hperm).
Qed.

Lemma C2_witness :
  exists v,
    snd (calculatePercentile hEx (Some 1%positive) 90) = Returned v
    /\ [10 * ms; 20 * ms; 30 * ms; 40 * ms; 50 * ms] !! 3%nat = Some v.
Proof.
  destruct C2_nearest_rank as [H _].
  destruct (H hEx (Some 1%positive) 90) as (v & Hv & Hsorted);
    [done | by vm_compute | lia |].
  exists v. split; [exact Hv |].
  apply (Hsorted [10 * ms; 20 * ms; 30 * ms; 40 * ms; 50 * ms]).
  - repeat constructor; by vm_compute.
  - rewrite <- (merge_sort_Permutation Z.le (contents hEx (Some 1%positive))).
    by vm_compute.
Defined.

(** C7.  On a fixed non-empty latency slice (of a size binary64 handles
    exactly) and percentiles [p <= q] between 0 and 100,
    [calculatePercentile] returns for [p] at most what it returns for [q];
    hence a cell in which some invocation returned and whose configuration
    requests 50, 90, 95 and 99 stores a map with
    P50 <= P90 <= P95 <= P99. *)
Theorem C7_percentile_monotone :
  (forall (h : heap) (latencies : slice) (p q : Z),
     contents h latencies <> [] -> exactSize (len h latencies) ->
     0 <= p -> p <= q -> q <= 100 ->
     exists a b,
       snd (calculatePercentile h latencies p) = Returned a
       /\ snd (calculatePercentile h latencies q) = Returned b
       /\ a <= b)
  /\ (forall (cfg : TestConfig) (c : Z) (result : TestResult) (h h' : heap)
        (sch : schedule) (r : TestResult) (err : option string),
        returned (sch_trace sch) <> [] ->
        exactSize (Z.of_nat (length (returned (sch_trace sch)))) ->
        50 ∈ Config.LatencyPercentiles cfg -> 90 ∈ Config.LatencyPercentiles cfg ->
        95 ∈ Config.LatencyPercentiles cfg -> 99 ∈ Config.LatencyPercentiles cfg ->
        runTestWithConcurrency cfg c result h sch = Some (h', Returned (r, err)) ->
        exists (m : gmap Z Z) (p50 p90 p95 p99 : Z),
          LatencyPercentiles r = Some m
          /\ m !! 50 = Some p50 /\ m !! 90 = Some p90
          /\ m !! 95 = Some p95 /\ m !! 99 = Some p99
          /\ p50 <= p90 /\ p90 <= p95 /\ p95 <= p99).
Proof.
  split.
  - intros h latencies p q Hne Hsize Hp Hpq Hq. unfold len in *.
    destruct (percentileValue_exact _ p Hne Hsize) as (a & Ha & Hva); [lia |].
    destruct (percentileValue_exact _ q Hne Hsize) as (b & Hb & Hvb); [lia |].
    exists a, b. rewrite !calculatePercentile_value.
    repeat (split; [done |]). by apply (nearestRank_mono (contents h latencies) p q a b).
  - intros cfg c result h h' sch r err Hne Hsize H50 H90 H95 H99 Hrun.
    destruct (cell_returned _ _ _ _ _ _ _ _ Hrun) as (_ & s & Hfin & _ & _ & _ & _ & _ & _ & Hperm).
    set (l := contents (mem s) (latencies s)) in *.
    assert (length l = length (returned (sch_trace sch))) as Hlen
      by (by rewrite (Permutation_length Hperm), length_fmap).
    assert (l <> []) as Hl.
    { intros El. rewrite El in Hlen. by destruct (returned (sch_trace sch)). }
    rewrite <- Hlen in Hsize.
    destruct (finish_percentiles _ _ _ _ _ _ Hfin) as [Hstored _].
    destruct Hstored as (m & Hm & Hent); [done | by intros E; rewrite E in H50; apply elem_of_nil in H50 |].
    destruct (stored_percentile l _ m 50 Hent H50 Hl Hsize) as (p50 & M50 & R50); [lia |].
    destruct (stored_percentile l _ m 90 Hent H90 Hl Hsize) as (p90 & M90 & R90); [lia |].
    destruct (stored_percentile l _ m 95 Hent H95 Hl Hsize) as (p95 & M95 & R95); [lia |].
    destruct (stored_percentile l _ m 99 Hent H99 Hl Hsize) as (p99 & M99 & R99); [lia |].
    exists m, p50, p90, p95, p99. repeat (split; [done |]).
    split; [by apply (nearestRank_mono l 50 90) |].
    split; [by apply (nearestRank_mono l 90 95) | by apply (nearestRank_mono l 95 99)].
Qed.

Lemma C7_witness :
  exists a b,
    snd (calculatePercentile hEx (Some 1%positive) 50) = Returned a
    /\ snd (calculatePercentile hEx (Some 1%positive) 99) = Returned b
    /\ a <= b.
Proof.
  destruct C7_percentile_monotone as [H _].
  apply (H hEx (Some 1%positive) 50 99); [done | by vm_compute | lia | lia | lia].
Defined.

(** C10.  [calculatePercentile] sorts a fresh copy: its argument, and every
    other array of the heap, reads the same before and after the call, and so
    after any number of calls; the slice stored as [AllLatencies] is the
    workers' slice with its contents as they were when the workers had
    finished; and the values computed do not depend on the order in which the
    percentiles are requested. *)
Theorem C10_input_untouched :
  (forall (h : heap) (latencies : slice) (p : Z),
     contents (fst (calculatePercentile h latencies p)) latencies = contents h latencies
     /\ forall l, l ∈ dom h -> fst (calculatePercentile h latencies p) !! l = h !! l)
  /\ (forall (h : heap) (latencies : slice) (ps : list Z) (m : gmap Z Z),
        contents (fst (percentileLoop h latencies ps m)) latencies = contents h latencies)
  /\ (forall (cfg : TestConfig) (s : cell) (totalDuration : Z) (result : TestResult)
        (h' : heap) (r : TestResult),
        finish cfg s totalDuration result = (h', Returned r) ->
        AllLatencies r = latencies s
        /\ contents h' (AllLatencies r) = contents (mem s) (latencies s))
  /\ (forall (h : heap) (latencies : slice) (ps ps' : list Z) (m : gmap Z Z),
        ps ≡ₚ ps' ->
        snd (percentileLoop h latencies ps m) = snd (percentileLoop h latencies ps' m)).
Proof.
  split; [| split; [| split]].
  - intros h latencies p. split; [apply calculatePercentile_input |].
    intros l Hl. by apply calculatePercentile_frame.
  - intros h latencies ps m. by destruct (percentileLoop_spec ps h latencies m) as (_ & ? & _).
  - intros cfg s td result h' r Hfin.
    destruct (finish_fields _ _ _ _ _ _ Hfin) as (_ & _ & _ & Hall & Hcont & _).
    by rewrite Hall.
  - intros h latencies ps ps' m Hperm.
    destruct (percentileLoop_spec ps h latencies m) as (-> & _).
    destruct (percentileLoop_spec ps' h latencies m) as (-> & _).
    by apply percentileEntries_perm.
Qed.

Lemma C10_witness :
  contents (fst (calculatePercentile hEx (Some 1%positive) 50)) (Some 1%positive)
    = [30 * ms; 10 * ms; 50 * ms; 20 * ms; 40 * ms]
  /\ snd (percentileLoop hEx (Some 1%positive) [50; 99] ∅)
     = snd (percentileLoop hEx (Some 1%positive) [99; 50] ∅).
Proof.
  destruct C10_input_untouched as (Hinput & _ & _ & Horder).
  split.
  - destruct (Hinput hEx (Some 1%positive) 50) as [-> _]. reflexivity.
  - apply Horder. apply perm_swap.
Defined.






(** C5.  [Run] resolves the levels of a model by priority (the model's own
    non-empty list, else the non-empty global list, else the single global
    value), and runs the cells of the models in configured order, one per
    resolved level in listed order: the cells it hands to a runner that notes
    them are the matrix, and whatever the runner, the cells it completes
    without an error are the whole matrix.  A variant with override [5, 10]
    under the global list [10, 20, 50] yields the cells (variant, 5) and
    (variant, 10), and a model without override the global list. *)
Theorem C5_matrix_resolution :
  (forall (cfg : TestConfig) (mdl : LLMModel),
     (GetConcurrencyLevels mdl <> [] -> resolveLevels cfg mdl = GetConcurrencyLevels mdl)
     /\ (GetConcurrencyLevels mdl = [] -> Config.ConcurrencyLevels cfg <> [] ->
           resolveLevels cfg mdl = Config.ConcurrencyLevels cfg)
     /\ (GetConcurrencyLevels mdl = [] -> Config.ConcurrencyLevels cfg = [] ->
           resolveLevels cfg mdl = [Config.Concurrency cfg]))
  /\ (forall (e : TestEngine) (seen : list (string * Z)),
        (Run noteCell e seen).1.1
        = seen ++ (cellName <$> matrix (config e) (models e)))
  /\ (forall (World : Type)
        (runCell : LLMModel -> Z -> TestResult -> World -> World * TestResult * option string)
        (e : TestEngine) (w : World),
        (Run runCell e w).1.1
        = (runCells runCell (matrix (config e) (models e)) ∅ w).1.1.1
        /\ ((Run runCell e w).2.2 = None ->
              (runCells runCell (matrix (config e) (models e)) ∅ w).1.2
              = matrix (config e) (models e)))
  /\ (Run noteCell engineEx []).1.1
     = [("variant"%string, 5); ("variant"%string, 10);
        ("plain"%string, 10); ("plain"%string, 20); ("plain"%string, 50)].
Proof.
  split; [| split; [| split]].
  - intros cfg mdl. unfold resolveLevels.
    destruct (GetConcurrencyLevels mdl), (Config.ConcurrencyLevels cfg); by repeat split.
  - intros e seen. unfold Run. rewrite runModels_runCells.
    destruct (runCells_noteCell (matrix (config e) (models e)) ∅ seen) as [acc ->].
    done.
  - intros World runCell e w. unfold Run. rewrite runModels_runCells.
    pose proof (runCells_completed runCell (matrix (config e) (models e)) ∅ w) as Hc.
    destruct (runCells runCell (matrix (config e) (models e)) ∅ w)
      as [[[w' acc] completed] [[[mdl c] inner] |]]; by cbn.
  - by vm_compute.
Qed.

Lemma C5_witness :
  resolveLevels cfgEx variant = [5; 10] /\ resolveLevels cfgEx plain = [10; 20; 50].
Proof.
  destruct C5_matrix_resolution as (Hlevels & _).
  split.
  - destruct (Hlevels cfgEx variant) as (-> & _); done.
  - destruct (Hlevels cfgEx plain) as (_ & -> & _); done.
Defined.

(** C8.  Whatever the cell runner, [Run] runs the cells of the matrix up to
    the first that returns an error.  If there is one, [Run] returns no
    result map, together with an error that carries the name of the model of
    the failing cell and the inner error; the results of the cells completed
    before are returned nowhere, and the engine keeps the results it had.  If
    there is none, every cell of the matrix completed and [Run] returns the
    map of their results.  With a runner that fails at level 20, the matrix
    of the example stops at (plain, 20). *)
Theorem C8_all_or_nothing :
  (forall (World : Type)
     (runCell : LLMModel -> Z -> TestResult -> World -> World * TestResult * option string)
     (e : TestEngine) (w : World),
     match runCells runCell (matrix (config e) (models e)) ∅ w with
     | (w', _, completed, Some (mdl, c, inner)) =>
         Run runCell e w
         = (w', e, (None, Some ("测试模型 " +:+ GetName mdl +:+ " 失败: " +:+ inner)))
         /\ mdl ∈ models e
         /\ exists rest, matrix (config e) (models e) = completed ++ (mdl, c) :: rest
     | (w', acc, completed, None) =>
         Run runCell e w
         = (w', {| config := config e; models := models e; results := acc |},
            (Some acc, None))
         /\ completed = matrix (config e) (models e)
     end)
  /\ Run failsAt20 engineEx []
     = ([("variant"%string, 5); ("variant"%string, 10);
         ("plain"%string, 10); ("plain"%string, 20)],
        engineEx,
        (None, Some "测试模型 plain 失败: connection refused"%string)).
Proof.
  split; [| by vm_compute].
  intros World runCell e w. unfold Run. rewrite runModels_runCells.
  pose proof (runCells_completed runCell (matrix (config e) (models e)) ∅ w) as Hc.
  destruct (runCells runCell (matrix (config e) (models e)) ∅ w)
    as [[[w' acc] completed] [[[mdl c] inner] |]]; cbn [loopOutcome]; [| done].
  split; [done |]. split; [| done].
  destruct Hc as [rest Hc].
  apply (matrix_model (config e) (models e) mdl c).
  rewrite Hc. set_solver.
Qed.

(** * Further properties of the percentile reducer *)

Module ReducerEdges.
Import Float64 Slice Engine Spec PercentileFacts ReducerFacts.
Local Open Scope Z_scope.

Lemma percentileValue_nil (p : Z) : percentileValue [] p = Panicked IndexOutOfRange.
Proof.
  unfold percentileValue. cbn [length]. destruct (percentileIndex _ p) as [i |]; [| done].
  by destruct (0 <=? i) eqn:H0, (i <? Z.of_nat 0) eqn:H1.
Qed.

(** The value depends on the samples as a multiset only. *)
Lemma percentileValue_perm (l l' : list Z) (p : Z) :
  l ≡ₚ l' -> percentileValue l p = percentileValue l' p.
Proof.
  intros Hp. unfold percentileValue. rewrite (Permutation_length Hp).
  rewrite (merge_sort_unique l' (merge_sort Z.le l)); [done | |].
  - apply Sorted_merge_sort. apply _.
  - by rewrite merge_sort_Permutation.
Qed.

(** The value at a non-negative percentile, whatever its size, while
    binary64 holds the product exactly. *)
Lemma percentileValue_rank (l : list Z) (p : Z) :
  l <> [] -> 0 <= p < 2 ^ 53 -> Z.of_nat (length l) - 1 < 2 ^ 53 ->
  (Z.of_nat (length l) - 1) * p < 2 ^ 53 ->
  percentileValue l p
  = if (Z.of_nat (length l) - 1) * p / 100 <? Z.of_nat (length l)
    then match nearestRank l p with
         | Some v => Returned v
         | None => Panicked IndexOutOfRange
         end
    else Panicked IndexOutOfRange.
Proof.
  intros Hl Hp Hn Hk.
  assert (1 <= Z.of_nat (length l)) as Hn1 by (destruct l; [done | cbn; lia]).
  unfold percentileValue, nearestRank. rewrite percentileIndex_exact by lia.
  replace (0 <=? (Z.of_nat (length l) - 1) * p / 100) with true; [done |].
  symmetry. apply Z.leb_le, Z.div_pos; nia.
Qed.

Lemma nearestRank_elem (l : list Z) (p v : Z) : nearestRank l p = Some v -> v ∈ l.
Proof.
  unfold nearestRank. intros Hv. apply list_elem_of_lookup_2 in Hv.
  by rewrite merge_sort_Permutation in Hv.
Qed.

Lemma nearestRank_0 (l : list Z) (v : Z) :
  nearestRank l 0 = Some v -> forall x, x ∈ l -> v <= x.
Proof.
  unfold nearestRank. rewrite Z.mul_0_r. cbn [Z.div Z.to_nat]. intros Hv x Hx.
  rewrite <- (merge_sort_Permutation Z.le l) in Hx.
  apply list_elem_of_lookup_1 in Hx as [i Hi].
  apply (StronglySorted_lookup_le _ 0 i v x (merge_sort_StronglySorted l)); [lia | done | done].
Qed.

Lemma nearestRank_100 (l : list Z) (v : Z) :
  nearestRank l 100 = Some v -> forall x, x ∈ l -> x <= v.
Proof.
  unfold nearestRank. rewrite Z.div_mul by lia. intros Hv x Hx.
  rewrite <- (merge_sort_Permutation Z.le l) in Hx.
  apply list_elem_of_lookup_1 in Hx as [i Hi].
  pose proof (lookup_lt_Some _ _ _ Hi) as Hlt. rewrite length_merge_sort in Hlt.
  apply (StronglySorted_lookup_le _ i (Z.to_nat (Z.of_nat (length l) - 1)) x v
           (merge_sort_StronglySorted l)); [lia | done | done].
Qed.

Lemma percentileValue_elem (l : list Z) (p v : Z) :
  percentileValue l p = Returned v -> v ∈ l.
Proof.
  unfold percentileValue. destruct (percentileIndex _ p) as [i |]; [| done].
  destruct (_ && _); [| done].
  destruct (merge_sort Z.le l !! Z.to_nat i) as [x |] eqn:Hx; [| done].
  intros [= <-]. apply list_elem_of_lookup_2 in Hx.
  by rewrite merge_sort_Permutation in Hx.
Qed.

(** The keys of the map the percentile loop builds: those it started with
    and the requested percentiles. *)
Lemma percentileEntries_dom (l ps : list Z) (m0 m : gmap Z Z) :
  percentileEntries l ps m0 = Returned m -> dom m = dom m0 ∪ list_to_set ps.
Proof.
  revert m0. induction ps as [| p ps IH]; intros m0 Hm.
  - cbn in Hm. simplify_eq. by rewrite list_to_set_nil, (right_id_L ∅ (∪)).
  - cbn in Hm. destruct (percentileValue l p) as [v | e]; [| done].
    rewrite (IH _ Hm), dom_insert_L, list_to_set_cons.
    by rewrite (comm_L (∪) {[p]} (dom m0)), (assoc_L (∪)).
Qed.

End ReducerEdges.

(** * Further properties of the result of a cell *)

Module ResultFacts.
Import Float64 Slice Engine Spec PercentileFacts ReducerFacts CellFacts FinishFacts ClaimFacts.
Local Open Scope Z_scope.

Lemma wrap_small (z : Z) : int64 z -> Int64.wrap z = z.
Proof. unfold int64. intros H. lia64. Qed.

Lemma total_nonneg (g : Z -> response -> Z) (rs : list (Z * response)) :
  (forall lat r, 0 <= g lat r) -> 0 <= total g rs.
Proof.
  intros Hg. induction rs as [| [lat r] rs IH]; [done |].
  cbn [total]. specialize (Hg lat r). lia.
Qed.

Lemma total_isResp_le (rs : list (Z * response)) :
  0 <= total isResp rs <= Z.of_nat (length rs).
Proof.
  pose proof (total_count rs).
  assert (0 <= total isResp rs) by (apply total_nonneg; by intros ? []).
  assert (0 <= total isError rs) by (apply total_nonneg; by intros ? []).
  lia.
Qed.

Lemma total_no_success (g : Z -> response -> Z) (rs : list (Z * response)) :
  total isResp rs = 0 -> (forall lat msg, g lat (Error msg) = 0) -> total g rs = 0.
Proof.
  intros Hz Hg. induction rs as [| [lat [r | msg]] rs IH]; [done | |].
  - cbn [total isResp] in Hz. pose proof (total_isResp_le rs). lia.
  - cbn [total isResp] in *. rewrite Hg, IH; [done | lia].
Qed.

(** The token and latency fields of the result [finish] returns. *)
Lemma finish_tokens (cfg : TestConfig) (s : cell) (td : Z) (result : TestResult)
    (h' : heap) (r : TestResult) :
  finish cfg s td result = (h', Returned r) ->
  TotalDuration r = Int64.add (TotalDuration result) td
  /\ Errors r = errors s
  /\ (0 < successCount s ->
        AvgLatency r = Int64.wrap (Z.quot (totalLatency s) (successCount s))
        /\ InputTokens r = Int64.add (InputTokens result) (inputTokens s)
        /\ OutputTokens r = Int64.add (OutputTokens result) (outputTokens s)
        /\ TotalTokens r
           = Int64.add (TotalTokens result) (Int64.add (inputTokens s) (outputTokens s))
        /\ AvgInputTokens r = div (of_int (InputTokens r)) (of_int (SuccessRequests r))
        /\ AvgOutputTokens r = div (of_int (OutputTokens r)) (of_int (SuccessRequests r))
        /\ AvgTotalTokens r = div (of_int (TotalTokens r)) (of_int (SuccessRequests r)))
  /\ (successCount s <= 0 ->
        AvgLatency r = AvgLatency result
        /\ InputTokens r = InputTokens result /\ OutputTokens r = OutputTokens result
        /\ TotalTokens r = TotalTokens result).
Proof.
  intros (a & Ha & Hc & Hr)%finish_returned.
  assert (TotalDuration r = TotalDuration a /\ Errors r = Errors a
          /\ AvgLatency r = AvgLatency a /\ InputTokens r = InputTokens a
          /\ OutputTokens r = OutputTokens a /\ TotalTokens r = TotalTokens a
          /\ AvgInputTokens r = AvgInputTokens a /\ AvgOutputTokens r = AvgOutputTokens a
          /\ AvgTotalTokens r = AvgTotalTokens a /\ SuccessRequests r = SuccessRequests a)
    as (F1 & F2 & F3 & F4 & F5 & F6 & F7 & F8 & F9 & F10).
  { by destruct Hr as [(_ & _ & m & _ & ->) | (_ & ->)]. }
  rewrite F1, F2, F3, F4, F5, F6, F7, F8, F9, F10. clear F1 F2 F3 F4 F5 F6 F7 F8 F9 F10 Hr.
  destruct Ha as [[Hs Ha] | [Hs ->]].
  - unfold addAverages, Int64.quot in Ha.
    replace (successCount s =? 0) with false in Ha by (symmetry; apply Z.eqb_neq; lia).
    injection Ha as <-. cbn. repeat split; try done; lia.
  - cbn. repeat split; try done; lia.
Qed.

End ResultFacts.

(** * Further properties of the concurrent phase *)

Module CellEdges.
Import Slice Engine Spec CellSpec CellFacts FinishFacts ClaimFacts.
Local Open Scope Z_scope.

Lemma sumZ_lookup_lt (f : worker -> Z) (ws : list worker) (i : nat) (w : worker) :
  (forall w, f w <= 1) -> ws !! i = Some w -> f w = 0 ->
  sumZ f ws <= Z.of_nat (length ws) - 1.
Proof.
  intros Hf. revert i. induction ws as [| a ws IH]; intros [| i] H H0; simplify_eq/=.
  - assert (sumZ f ws <= sumZ (fun _ => 1) ws) as Hle by (by apply sumZ_le).
    assert (sumZ (fun _ => 1) ws = Z.of_nat (length ws)) as Hone
      by (clear; induction ws as [| ? ? IH]; [done | cbn [sumZ length]; lia]).
    lia.
  - specialize (IH i H H0). specialize (Hf a). lia.
Qed.

Lemma holdsSlot_le (w : worker) : holdsSlot w <= 1.
Proof. destruct w; cbn; lia. Qed.

Lemma holdsSlot_nonneg (w : worker) : 0 <= holdsSlot w.
Proof. destruct w; cbn; lia. Qed.

(** A worker that is about to acquire finds a free slot: the semaphore
    counts workers of a pool of [c], and this one holds none. *)
Lemma acquire_free (c : Z) (s : cell) (i : nat) :
  inv c s -> workers s !! i = Some WAcquire -> Z.of_nat (sem s) < c.
Proof.
  intros [_ Hslot _ _ _ _ _ Hpool] Hw.
  pose proof (sumZ_lookup_lt holdsSlot _ _ _ holdsSlot_le Hw eq_refl). lia.
Qed.

Lemma release_held (c : Z) (s : cell) (i : nat) (w : worker) :
  inv c s -> workers s !! i = Some w -> holdsSlot w = 1 -> (0 < sem s)%nat.
Proof.
  intros [_ Hslot _ _ _ _ _ _] Hw H1.
  pose proof (sumZ_lookup_le holdsSlot _ _ _ holdsSlot_nonneg Hw). lia.
Qed.

(** A worker that has not exited can take a step, unless it is inside the
    invocation, or waits at an open and empty channel. *)
Lemma worker_moves (c : Z) (s : cell) (i : nat) (w : worker) :
  inv c s -> workers s !! i = Some w -> w <> WExit ->
  (w = WRange -> jobs s <> 0%nat \/ closed s = true) ->
  is_Some (work c i s) \/ w = WInvoke.
Proof.
  intros Hinv Hw Hex Hrange. unfold work. rewrite Hw.
  destruct w as [| | | lat r | lat [r | msg] | msg | seen msg | lat r | r | r | |].
  - left. destruct (jobs s) as [| n]; [| by eexists].
    destruct Hrange as [? | ->]; [done .. |]. by eexists.
  - left. pose proof (acquire_free c s i Hinv Hw) as Hfree.
    replace (Z.of_nat (sem s) <? c) with true by (symmetry; apply Z.ltb_lt; lia).
    by eexists.
  - by right.
  - left. by eexists.
  - left. by eexists.
  - left. by eexists.
  - left. by eexists.
  - left. by eexists.
  - left. by eexists.
  - left. by eexists.
  - left. by eexists.
  - left. pose proof (release_held c s i WRelease Hinv Hw eq_refl) as Hheld.
    destruct (sem s); [lia | by eexists].
  - done.
Qed.

Lemma not_all_exited (ws : list worker) :
  forallb exited ws = false -> exists i w, ws !! i = Some w /\ w <> WExit.
Proof.
  induction ws as [| a ws IH]; [done |]. cbn [forallb].
  destruct (exited a) eqn:Ha; cbn [andb].
  - intros (i & w & Hw & Hne)%IH. by exists (S i), w.
  - intros _. exists 0%nat, a. split; [done |]. by intros ->.
Qed.

Lemma jobsCap_double (c : Z) : 0 <= c < 2 ^ 62 -> jobsCap c = 2 * c.
Proof.
  intros Hc. unfold jobsCap. change (2 ^ 62) with 4611686018427387904 in Hc. lia64.
Qed.

(** No reachable state is stuck before the join. *)
Lemma progress (c : Z) (s : cell) :
  0 < c < 2 ^ 62 -> inv c s -> disp s <> DJoined -> canMove c s.
Proof.
  intros Hc Hinv Hd. pose proof Hinv as [_ _ _ Hcl Hgone _ Hcap Hpool].
  unfold canMove, dispatch.
  destruct (disp s) eqn:Ed; [left; by eexists | | left; by eexists | left; by eexists | | done].
  - (* the send *)
    destruct (Z.of_nat (jobs s) <? jobsCap c) eqn:Hfull; [left; by eexists |].
    apply Z.ltb_ge in Hfull. rewrite jobsCap_double in Hfull by lia.
    right. exists 0%nat.
    destruct (lookup_lt_is_Some_2 (workers s) 0) as [w Hw]; [lia |].
    destruct (worker_moves c s 0 w Hinv Hw) as [Hm | ->]; [| | by left | by right].
    + intros ->. destruct Hgone as [Hclosed _].
      { pose proof (sumZ_lookup_le gone _ _ _ gone_nonneg Hw). cbn in *. lia. }
      cbn in Hcl. congruence.
    + intros _. left. lia.
  - (* the wait *)
    destruct (forallb exited (workers s)) eqn:Hall; [left; by eexists |].
    destruct (not_all_exited _ Hall) as (i & w & Hw & Hne).
    right. exists i.
    destruct (worker_moves c s i w Hinv Hw Hne) as [Hm | ->]; [| by left | by right].
    intros _. right. by rewrite Hcl.
Qed.

End CellEdges.

(** * Degenerate concurrency levels *)

Module LevelEdges.
Import Slice Engine Spec CellSpec CellFacts.
Local Open Scope Z_scope.

Lemma start_negative (c : Z) (result : TestResult) (h : heap) :
  c < 0 -> start c result h = Panicked MakeChanSize.
Proof.
  intros Hc. unfold start.
  replace (c <? 0) with true by (symmetry; apply Z.ltb_lt; lia).
  by rewrite orb_true_r.
Qed.

Lemma level0_start (result : TestResult) (h : heap) (s0 : cell) :
  start 0 result h = Returned s0 -> level0 [] s0.
Proof. intros (_ & _ & ->)%start_returned. repeat split. by left. Qed.

Lemma level0_step (tr : list label) (l : label) (s s' : cell) :
  level0 tr s -> step 0 l s = Some s' -> level0 (tr ++ [l]) s'.
Proof.
  intros (Hw & Hreq & Hd) Hstep. unfold level0.
  destruct l as [| | i | i lat r]; cbn [step] in Hstep.
  - destruct (fired s) eqn:Hf; [done |]. injection Hstep as <-. cell_simpl.
    split; [done |]. split; [done |].
    destruct (disp s); try done; try (by destruct Hd as [? ?]; congruence).
    destruct Hd as [[-> _] | [_ ?]]; [by right | congruence].
  - unfold dispatch in Hstep. destruct (disp s) eqn:Ed; try done.
    + injection Hstep as <-. cell_simpl. split; [done |]. split; [done |].
      destruct Hd as [[-> Hf] | [-> Hf]]; rewrite Hf; done.
    + by destruct (Z.of_nat (jobs s) <? jobsCap 0) eqn:Hfull;
        [apply Z.ltb_lt in Hfull; change (jobsCap 0) with 0 in Hfull; lia |].
    + injection Hstep as <-. cell_simpl. destruct Hd as [-> Hf]. done.
    + rewrite Hw in Hstep. cbn in Hstep. injection Hstep as <-. cell_simpl.
      destruct Hd as [-> Hf]. done.
  - unfold work in Hstep. by rewrite Hw in Hstep.
  - unfold ret in Hstep. by rewrite Hw in Hstep.
Qed.

Lemma level0_run (result : TestResult) (h : heap) (s0 s : cell) (tr : list label) :
  start 0 result h = Returned s0 -> run 0 tr s0 = Some s -> level0 tr s.
Proof.
  intros Hstart Hrun. revert tr s Hrun.
  apply (run_ind 0 s0 level0); [by eapply level0_start |].
  intros tr s l s' _ Hinv Hstep. by eapply level0_step.
Qed.

(** Once the dispatcher of a cell without workers is at the send, it stays
    there. *)
Lemma level0_blocked (s : cell) (tr : list label) (s' : cell) :
  workers s = [] -> disp s = DSend -> run 0 tr s = Some s' ->
  workers s' = [] /\ disp s' = DSend.
Proof.
  intros Hw Hd. revert tr s'.
  apply (run_ind 0 s (fun _ s' => workers s' = [] /\ disp s' = DSend)); [done |].
  intros tr s1 l s2 _ [Hw1 Hd1] Hstep.
  destruct l as [| | i | i lat r]; cbn [step] in Hstep.
  - destruct (fired s1); [done |]. by injection Hstep as <-.
  - unfold dispatch in Hstep. rewrite Hd1 in Hstep.
    by destruct (Z.of_nat (jobs s1) <? jobsCap 0) eqn:Hfull;
      [apply Z.ltb_lt in Hfull; change (jobsCap 0) with 0 in Hfull; lia |].
  - unfold work in Hstep. by rewrite Hw1 in Hstep.
  - unfold ret in Hstep. by rewrite Hw1 in Hstep.
Qed.

End LevelEdges.

(** * The error list *)

Module ErrorFacts.
Import Slice Engine Spec CellSpec CellFacts FinishFacts ClaimFacts.
Local Open Scope Z_scope.

Lemma failedMsgs_snoc (tr : list label) (l : label) :
  failedMsgs (returned (tr ++ [l]))
  = failedMsgs (returned tr)
    ++ match l with Return _ _ (Error msg) => [msg] | _ => [] end.
Proof.
  unfold failedMsgs, returned. rewrite !omap_app. f_equal.
  by destruct l as [| | i | i lat [r | msg]].
Qed.

Lemma errPending_nonneg (w : worker) : 0 <= errPending w.
Proof. destruct w as [| | | ? [] | ? [] | | | | | | |]; cbn; lia. Qed.

Lemma seenLength_nonneg (w : worker) : 0 <= seenLength w.
Proof. destruct w; cbn; lia. Qed.






Lemma failedMsgs_length (rs : list (Z * response)) :
  Z.of_nat (length (failedMsgs rs)) = total isError rs.
Proof.
  induction rs as [| [lat [r | msg]] rs IH]; [done | |]; cbn [failedMsgs omap total isError] in *.
  - cbn. unfold failedMsgs in IH. lia.
  - cbn. unfold failedMsgs in IH. lia.
Qed.

(** ** A single worker *)

Lemma errs1_start (result : TestResult) (h : heap) (s0 : cell) :
  start 1 result h = Returned s0 -> errs1 (Errors result) [] s0.
Proof.
  intros (_ & _ & ->)%start_returned. exists WRange. cell_simpl.
  split; [done |]. split; [by rewrite !app_nil_r | done].
Qed.

Lemma errs1_step (c : Z) (e0 : list string) (tr : list label) (l : label) (s s' : cell) :
  errs1 e0 tr s -> step c l s = Some s' -> errs1 e0 (tr ++ [l]) s'.
Proof.
  intros (w & Hws & Hlist & Hseen) Hstep. unfold errs1.
  rewrite failedMsgs_snoc.
  destruct l as [| | i | i lat r]; cbn [step] in Hstep.
  - destruct (fired s); [done |]. injection Hstep as <-. cell_simpl.
    exists w. by rewrite app_nil_r.
  - unfold dispatch in Hstep.
    repeat (case_match; try done; simplify_eq); cell_simpl;
      exists w; by rewrite app_nil_r.
  - unfold work in Hstep. rewrite Hws in Hstep.
    destruct i as [| i]; [| done]. cbn [lookup list_lookup] in Hstep.
    rewrite app_nil_r.
    repeat (case_match; try done; simplify_eq); cell_simpl; rewrite Hws;
      cbn [list_insert insert]; eexists; (split; [done |]);
      cbn [pendMsg] in *; rewrite ?app_nil_r in *;
      (split; [try done | try done]).
    + by intros ? ? [= <- <-].
    + by rewrite (Hseen _ _ eq_refl).
  - unfold ret in Hstep. rewrite Hws in Hstep.
    destruct i as [| i]; [| done]. cbn [lookup list_lookup] in Hstep.
    destruct w; try done. injection Hstep as <-. cell_simpl. rewrite Hws.
    eexists. split; [done |]. cbn [pendMsg] in *. rewrite app_nil_r in Hlist.
    split; [| done].
    destruct r as [r | msg]; cbn [pendMsg]; by rewrite Hlist, ?app_nil_r, <- ?app_assoc.
Qed.

Lemma errs1_run (result : TestResult) (h : heap) (s0 s : cell) (tr : list label) :
  start 1 result h = Returned s0 -> run 1 tr s0 = Some s -> errs1 (Errors result) tr s.
Proof.
  intros Hstart Hrun. revert tr s Hrun.
  apply (run_ind 1 s0 (errs1 (Errors result))); [by eapply errs1_start |].
  intros tr s l s' _ Hinv Hstep. by eapply errs1_step.
Qed.

End ErrorFacts.

(** * Configuration, models, setup and report *)

Module ConfigFacts.
Import Engine ConfigFile.
Local Open Scope Z_scope.

Lemma validateModels_complete (i : Z) (models : list ModelConfig) :
  validateModels i models = None <-> Forall complete models.
Proof.
  revert i. induction models as [| m ms IH]; intros i; cbn [validateModels].
  - split; [by constructor | done].
  - rewrite Forall_cons. unfold complete at 1.
    repeat case_decide; rewrite ?IH; split; try done; try tauto.
Qed.

(** The error names the first incomplete model: by its position, counted
    from 1, when it has no name; by its name otherwise. *)
Lemma validateModels_first (i : Z) (pre post : list ModelConfig) (m : ModelConfig) :
  Forall complete pre -> ~ complete m ->
  validateModels i (pre ++ m :: post)
  = Some (if decide (ModelConfig.Name m = EmptyString)
          then "模型 #" +:+ pretty (i + Z.of_nat (length pre) + 1) +:+ " 未指定名称"
          else if decide (ModelConfig.Type_ m = EmptyString)
          then "模型 " +:+ ModelConfig.Name m +:+ " 未指定类型"
          else "模型 " +:+ ModelConfig.Name m +:+ " 未指定API密钥").
Proof.
  intros Hpre Hm. revert i. induction Hpre as [| a pre (Ha1 & Ha2 & Ha3) _ IH]; intros i.
  - cbn [app validateModels length]. rewrite Z.add_0_r.
    unfold complete in Hm. repeat case_decide; try done. by destruct Hm.
  - cbn [app validateModels length]. rewrite !decide_False by done.
    rewrite IH.
    by replace (i + 1 + Z.of_nat (length pre) + 1)
      with (i + Z.of_nat (S (length pre)) + 1) by lia.
Qed.

Lemma setDefaults_nonzero (config : Config) :
  Config.Concurrency (Test (setDefaults config)) <> 0
  /\ Config.Duration (Test (setDefaults config)) <> 0
  /\ Config.RequestTimeout (Test (setDefaults config)) <> 0
  /\ Config.MaxRetries (Test (setDefaults config)) <> 0.
Proof.
  cbn. repeat split; case_match; try done; by apply Z.eqb_neq.
Qed.

End ConfigFacts.

Module ModelFacts.
Import Engine ConfigFile ModelPkg.
Local Open Scope Z_scope.

Section Facts.
Variable NewGeminiModel : ModelConfig -> list ProxyConfig -> LLMModel + string.

Lemma active_cons (cfg : ModelConfig) (cfgs : list ModelConfig) :
  active (cfg :: cfgs) = if ModelConfig.Skip cfg then active cfgs else cfg :: active cfgs.
Proof. unfold active. cbn. by destruct (ModelConfig.Skip cfg). Qed.

(** With built-in types only, the loop appends one model per entry that is
    not skipped, in order. *)
Lemma initializeLoop_builtin (cfgs : list ModelConfig) (proxies : list ProxyConfig)
    (acc : list LLMModel) :
  Forall builtin (active cfgs) ->
  initializeLoop NewGeminiModel cfgs proxies acc = inl (acc ++ (BaseModel <$> active cfgs)).
Proof.
  revert acc. induction cfgs as [| cfg cfgs IH]; intros acc Hall.
  - cbn. by rewrite app_nil_r.
  - rewrite active_cons in Hall |- *. cbn [initializeLoop].
    destruct (ModelConfig.Skip cfg); [by apply IH |].
    apply Forall_cons in Hall as [[Ht | Ht] Hall].
    + rewrite decide_True by done. cbn [NewOpenAIModel]. rewrite IH by done.
      by rewrite <- app_assoc.
    + rewrite Ht. cbn [NewAnthropicModel decide]. rewrite decide_False, decide_True by done.
      cbn [NewAnthropicModel]. rewrite IH by done. by rewrite <- app_assoc.
Qed.

(** A successful run built a model for every entry that is not skipped, and
    each of them had a supported type. *)
Lemma initializeLoop_inl (cfgs : list ModelConfig) (proxies : list ProxyConfig)
    (acc models : list LLMModel) :
  initializeLoop NewGeminiModel cfgs proxies acc = inl models ->
  length models = (length acc + length (active cfgs))%nat
  /\ Forall supported (active cfgs).
Proof.
  revert acc. induction cfgs as [| cfg cfgs IH]; intros acc H.
  - cbn in H. injection H as <-. cbn. split; [lia | constructor].
  - rewrite active_cons. cbn [initializeLoop] in H.
    destruct (ModelConfig.Skip cfg); [by apply IH |].
    assert (supported cfg /\ exists model,
              initializeLoop NewGeminiModel cfgs proxies (acc ++ [model]) = inl models)
      as (Hsup & model & Hrest).
    { unfold supported, builtin. repeat case_decide; cbn in H.
      - split; [tauto | by eexists].
      - split; [tauto | by eexists].
      - destruct (NewGeminiModel cfg proxies) as [model | e]; [| done].
        split; [tauto | by eexists].
      - done. }
    destruct (IH _ Hrest) as [Hlen Hall]. rewrite length_app in Hlen. cbn [length] in *.
    split; [lia | by constructor].
Qed.

(** The first entry that is not skipped and has an unsupported type stops
    the loop with an error that quotes the type. *)
Lemma initializeLoop_unsupported (pre post : list ModelConfig) (cfg : ModelConfig)
    (proxies : list ProxyConfig) (acc : list LLMModel) :
  Forall builtin (active pre) -> ModelConfig.Skip cfg = false -> ~ supported cfg ->
  initializeLoop NewGeminiModel (pre ++ cfg :: post) proxies acc
  = inr ("不支持的模型类型: " +:+ ModelConfig.Type_ cfg).
Proof.
  revert acc. induction pre as [| a pre IH]; intros acc Hpre Hskip Hsup.
  - cbn [app initializeLoop]. rewrite Hskip. unfold supported, builtin in Hsup.
    repeat case_decide; try done; tauto.
  - rewrite active_cons in Hpre. cbn [app initializeLoop].
    destruct (ModelConfig.Skip a); [by apply IH |].
    apply Forall_cons in Hpre as [[Ht | Ht] Hpre].
    + rewrite decide_True by done. cbn [NewOpenAIModel]. by apply IH.
    + rewrite Ht, decide_False, decide_True by done. cbn [NewAnthropicModel]. by apply IH.
Qed.
End Facts.

End ModelFacts.

Module SetupFacts.
Import Engine ConfigFile EngineSetup.
Local Open Scope Z_scope.

(** For each name the map holds the URL of the last proxy of that name. *)
Lemma proxyMap_lookup (ps : list ProxyConfig) (name : string) :
  proxyMap ps !! name = ProxyConfig.URL <$> lastNamed name ps.
Proof.
  unfold proxyMap, lastNamed. induction ps as [| p ps IH] using rev_ind; [done |].
  rewrite foldl_app, List.filter_app. cbn [foldl List.filter].
  destruct (decide (ProxyConfig.Name p = name)) as [<- | Hne].
  - rewrite lookup_insert_eq, bool_decide_eq_true_2 by done. by rewrite last_snoc.
  - rewrite lookup_insert_ne, bool_decide_eq_false_2 by done. by rewrite app_nil_r.
Qed.

End SetupFacts.

Module RunEdges.
Import Engine Spec RunSpec RunFacts.
Local Open Scope Z_scope.

Lemma size_list_to_set_le (l : list string) :
  (size (list_to_set l : gset string) <= length l)%nat.
Proof.
  induction l as [| a l IH]; [by rewrite list_to_set_nil, size_empty |].
  rewrite list_to_set_cons, size_union_alt, size_singleton. cbn [length].
  assert (list_to_set l ∖ {[a]} ⊆ (list_to_set l : gset string)) as Hsub
    by (by intros y [? _]%elem_of_difference).
  apply subseteq_size in Hsub. lia.
Qed.

Section Facts.
Context {World : Type}.
Variable runCell :
    LLMModel -> Z -> TestResult -> World -> World * TestResult * option string.

(** The keys of the map: those it started with and those of the cells that
    completed. *)
Lemma runCells_dom (cells : list (LLMModel * Z)) (acc : gmap string TestResult)
    (w : World) :
  dom (runCells runCell cells acc w).1.1.2
  = dom acc ∪ list_to_set (cellKey <$> (runCells runCell cells acc w).1.2).
Proof.
  revert acc w. induction cells as [| [mdl c] cells IH]; intros acc w.
  - cbn. by rewrite (right_id_L ∅ (∪)).
  - cbn [runCells]. destruct (runCell mdl c _ w) as [[w' r'] [err |]].
    + cbn. by rewrite (right_id_L ∅ (∪)).
    + specialize (IH (<[resultKey mdl c := r']> acc) w').
      destruct (runCells runCell cells _ w') as [[[w1 acc1] done1] f]. cbn in *.
      rewrite IH, dom_insert_L. unfold cellKey at 2. cbn.
      by rewrite (comm_L (∪) {[resultKey mdl c]} (dom acc)), (assoc_L (∪)).
Qed.
End Facts.

End RunEdges.

Module ReportFacts.
Import Engine Report ReducerFacts.
Local Open Scope Z_scope.

Lemma foldl_union (l : list Z) (acc : gset Z) :
  foldl (fun (acc : gset Z) (p : Z) => {[p]} ∪ acc) acc l = acc ∪ list_to_set l.
Proof.
  revert acc. induction l as [| p l IH]; intros acc; cbn [foldl].
  - by rewrite list_to_set_nil, (right_id_L ∅ (∪)).
  - rewrite IH, list_to_set_cons.
    by rewrite (comm_L (∪) {[p]} acc), (assoc_L (∪)).
Qed.

Lemma StronglySorted_lt (l : list Z) :
  StronglySorted Z.le l -> NoDup l -> StronglySorted Z.lt l.
Proof.
  induction 1 as [| a l Hs IH Ha]; intros Hnd; [constructor |].
  apply NoDup_cons in Hnd as [Hin Hnd]. constructor; [by apply IH |].
  rewrite Forall_forall in Ha |- *. intros x Hx.
  specialize (Ha x Hx). assert (a <> x) by (by intros ->). lia.
Qed.

Section Facts.
Variable range : gset Z -> list Z.
Hypothesis range_visits : forall X, range X ≡ₚ elements X.

Lemma elem_of_range (X : gset Z) (p : Z) : p ∈ range X <-> p ∈ X.
Proof. by rewrite range_visits, elem_of_elements. Qed.

(** The set the first loop collects. *)
Lemma collected (results : list TestResult) (acc : gset Z) (p : Z) :
  p ∈ foldl (fun (acc : gset Z) (result : TestResult) =>
               match LatencyPercentiles result with
               | Some m =>
                   foldl (fun (acc : gset Z) (p : Z) => {[p]} ∪ acc) acc (range (dom m))
               | None => acc
               end) acc results
  <-> p ∈ acc \/ reported results p.
Proof.
  revert acc. induction results as [| r rs IH]; intros acc; cbn [foldl].
  - split; [by left |]. intros [? | (r & m & Hr & _)]; [done |].
    by apply elem_of_nil in Hr.
  - rewrite IH. unfold reported. split.
    + intros [Hacc | (r' & m & Hr' & Hm & Hp)].
      * destruct (LatencyPercentiles r) as [m |] eqn:Hm; [| by left].
        rewrite foldl_union, elem_of_union, elem_of_list_to_set, elem_of_range in Hacc.
        destruct Hacc as [? | Hp]; [by left |]. right. exists r, m.
        split; [by apply elem_of_cons; left |]. split; [done |]. by apply elem_of_dom.
      * right. exists r', m. split; [by apply elem_of_cons; right | done].
    + intros [Hacc | (r' & m & Hr' & Hm & Hp)].
      * left. destruct (LatencyPercentiles r); [| done].
        rewrite foldl_union, elem_of_union. by left.
      * apply elem_of_cons in Hr' as [-> | Hr'].
        -- left. rewrite Hm, foldl_union, elem_of_union, elem_of_list_to_set, elem_of_range.
           right. by apply elem_of_dom.
        -- right. by exists r', m.
Qed.

Lemma getAllPercentiles_elem (results : list TestResult) (p : Z) :
  p ∈ getAllPercentiles range results <-> reported results p.
Proof.
  unfold getAllPercentiles. rewrite merge_sort_Permutation, elem_of_range, collected.
  split; [| by right]. intros [Hp | ?]; [| done]. by apply elem_of_empty in Hp.
Qed.

Lemma getAllPercentiles_sorted (results : list TestResult) :
  StronglySorted Z.lt (getAllPercentiles range results).
Proof.
  unfold getAllPercentiles. apply StronglySorted_lt; [apply merge_sort_StronglySorted |].
  rewrite merge_sort_Permutation, range_visits. apply NoDup_elements.
Qed.
End Facts.

Lemma StronglySorted_lt_le (l : list Z) : StronglySorted Z.lt l -> StronglySorted Z.le l.
Proof.
  induction 1 as [| a l _ IH Ha]; constructor; [done |].
  eapply Forall_impl; [done |]. intros; cbn in *; lia.
Qed.

Lemma StronglySorted_lt_NoDup (l : list Z) : StronglySorted Z.lt l -> NoDup l.
Proof.
  induction 1 as [| a l _ IH Ha]; constructor; [| done].
  rewrite Forall_forall in Ha. intros Hin. specialize (Ha a Hin). lia.
Qed.

(** Two strictly ascending lists with the same elements are equal. *)
Lemma StronglySorted_lt_unique (l1 l2 : list Z) :
  StronglySorted Z.lt l1 -> StronglySorted Z.lt l2 ->
  (forall x, x ∈ l1 <-> x ∈ l2) -> l1 = l2.
Proof.
  intros H1 H2 Helem. apply (StronglySorted_unique Z.le).
  - by apply StronglySorted_lt_le.
  - by apply StronglySorted_lt_le.
  - apply NoDup_Permutation; [by apply StronglySorted_lt_NoDup .. | done].
Qed.

End ReportFacts.

(** * The heap around a cell, and the backlog *)

Module FrameFacts.
Import Slice Engine Spec CellSpec CellFacts ReducerFacts FinishFacts ClaimFacts.
Local Open Scope Z_scope.

Lemma framed_start (c : Z) (result : TestResult) (h : heap) (s0 : cell) :
  start c result h = Returned s0 -> framed h s0.
Proof. intros (_ & _ & ->)%start_returned. by split. Qed.

Lemma framed_append (h0 : heap) (s : cell) (x : Z) :
  framed h0 s -> framed h0 (set_latencies (append (mem s) (latencies s) x) s).
Proof.
  intros [Hmem Hlat]. unfold framed, append. cell_simpl.
  assert (forall l, l ∈ dom h0 -> l ∈ dom (mem s)) as Hsub.
  { intros l Hl. apply elem_of_dom. rewrite Hmem by done. by apply elem_of_dom. }
  destruct (latencies s) as [l' |] eqn:El; cbn [fst snd].
  - split.
    + intros l Hl. rewrite lookup_insert_ne; [by apply Hmem |].
      intros <-. by apply (Hlat l').
    + intros l [= <-]. by apply Hlat.
  - split.
    + intros l Hl. rewrite lookup_insert_ne; [by apply Hmem |].
      intros <-. apply (is_fresh (dom (mem s))). by apply Hsub.
    + intros l [= <-] Hl. apply (is_fresh (dom (mem s))). by apply Hsub.
Qed.

Lemma framed_step (c : Z) (h0 : heap) (l : label) (s s' : cell) :
  framed h0 s -> step c l s = Some s' -> framed h0 s'.
Proof.
  intros Hf Hstep. break_step Hstep; try done.
  by apply (framed_append h0 s).
Qed.

Lemma framed_run (c : Z) (result : TestResult) (h : heap) (s0 s : cell) (tr : list label) :
  start c result h = Returned s0 -> run c tr s0 = Some s -> framed h s.
Proof.
  intros Hstart Hrun. revert tr s Hrun.
  apply (run_ind c s0 (fun _ s => framed h s)); [by eapply framed_start |].
  intros tr s l s' _ Hf Hstep. by eapply framed_step.
Qed.

(** [finish] leaves every array of the heap it starts from as it was. *)
Lemma finish_frame (cfg : TestConfig) (s : cell) (td : Z) (result : TestResult)
    (h' : heap) (out : go_result TestResult) (l : loc) :
  finish cfg s td result = (h', out) -> l ∈ dom (mem s) -> h' !! l = mem s !! l.
Proof.
  unfold finish. intros H Hl.
  destruct (if 0 <? successCount s then _ else _); [| by injection H as <- _].
  destruct (_ && _); [| by injection H as <- _].
  destruct (percentileLoop_spec (Config.LatencyPercentiles cfg) (mem s) (latencies s) ∅)
    as (_ & _ & Hframe).
  destruct (Hframe l Hl) as [_ Hsame].
  destruct (percentileLoop _ _ _ _) as [h1 [m | e]]; injection H as <- _; exact Hsame.
Qed.

Lemma holdsToken_le (w : worker) : 0 <= holdsToken w <= 1.
Proof. destruct w; cbn; lia. Qed.

Lemma sumZ_bounds (f : worker -> Z) (ws : list worker) :
  (forall w, 0 <= f w <= 1) -> 0 <= sumZ f ws <= Z.of_nat (length ws).
Proof.
  intros Hf. induction ws as [| w ws IH]; [done |].
  cbn [sumZ length]. specialize (Hf w). lia.
Qed.

End FrameFacts.

Module ClientFacts.
Import Engine ConfigFile ModelPkg.
Local Open Scope Z_scope.

Lemma proxyClients_lookup (Parse : string -> option string) (ps : list ProxyConfig)
    (name : string) :
  proxyClients Parse ps !! name = lastUsable Parse name ps.
Proof.
  unfold proxyClients, lastUsable. induction ps as [| p ps IH] using rev_ind; [done |].
  rewrite foldl_app, omap_app. cbn [foldl omap list_omap].
  case_decide as Hn; destruct (Parse (ProxyConfig.URL p)) as [u |] eqn:Hu;
    rewrite ?app_nil_r; try done.
  - subst name. by rewrite lookup_insert_eq, last_snoc.
  - by rewrite lookup_insert_ne.
Qed.

End ClientFacts.

(** * Termination of a cell *)

Module DrainFacts.
Import Slice Engine Spec CellSpec CellFacts CellEdges.
Local Open Scope Z_scope.

Lemma run_None (c : Z) (tr : list label) :
  foldl (fun (o : option cell) (l : label) => o ≫= step c l) None tr = None.
Proof. by induction tr. Qed.

Lemma run_cons (c : Z) (l : label) (tr : list label) (s : cell) :
  run c (l :: tr) s = step c l s ≫= run c tr.
Proof.
  unfold run. cbn [foldl mbind option_bind].
  destruct (step c l s) as [s' |]; [done |]. apply run_None.
Qed.

Lemma run_app (c : Z) (tr1 tr2 : list label) (s : cell) :
  run c (tr1 ++ tr2) s = run c tr1 s ≫= run c tr2.
Proof.
  revert s. induction tr1 as [| l tr1 IH]; intros s; [done |].
  cbn [app]. rewrite !run_cons. destruct (step c l s) as [s' |]; [apply IH | done].
Qed.

Lemma inv_steps (c : Z) (tr : list label) (s s' : cell) :
  inv c s -> run c tr s = Some s' -> inv c s'.
Proof.
  intros Hinv. revert tr s'. apply (run_ind c s (fun _ s' => inv c s')); [done |].
  intros tr s1 l s2 _ H1 Hstep. by eapply inv_step.
Qed.

Lemma sameChannels_refl (s : cell) : sameChannels s s.
Proof. done. Qed.

Lemma sameChannels_trans (s1 s2 s3 : cell) :
  sameChannels s1 s2 -> sameChannels s2 s3 -> sameChannels s1 s3.
Proof.
  unfold sameChannels. intros (? & ? & ? & ?) (? & ? & ? & ?).
  repeat split; congruence.
Qed.

Lemma insert_twice (ws : list worker) (i : nat) (w w' : worker) :
  <[i := w]> (<[i := w']> ws) = <[i := w]> ws.
Proof. rewrite list_insert_insert. by rewrite decide_True. Qed.

(** One step of worker [i] toward the head of its loop. *)
Lemma nudge (c : Z) (s : cell) (i : nat) (w : worker) :
  inv c s -> workers s !! i = Some w -> (0 < dist w)%nat ->
  exists l s' w',
    step c l s = Some s' /\ workers s' = <[i := w']> (workers s)
    /\ (dist w' < dist w)%nat /\ w' <> WExit /\ sameChannels s s'.
Proof.
  intros Hinv Hw Hd.
  destruct w as [| | | lat r | lat [r | msg] | msg | seen msg | lat r | r | r | |];
    cbn [dist] in Hd; try lia.
  - (* acquire *)
    pose proof (acquire_free c s i Hinv Hw) as Hfree.
    exists (Work i). do 2 eexists. cbn [step]. unfold work. rewrite Hw.
    replace (Z.of_nat (sem s) <? c) with true by (symmetry; apply Z.ltb_lt; lia).
    split; [done |]. cell_simpl. repeat split; [cbn; lia | done].
  - (* the invocation returns *)
    exists (Return i 0 (Resp {| resp_InputTokens := 0; resp_OutputTokens := 0 |})).
    do 2 eexists. cbn [step]. unfold ret. rewrite Hw.
    split; [done |]. cell_simpl. repeat split; [cbn; lia | done].
  - exists (Work i). do 2 eexists. cbn [step]. unfold work. rewrite Hw.
    split; [done |]. cell_simpl. repeat split; [destruct r; cbn; lia | done].
  - exists (Work i). do 2 eexists. cbn [step]. unfold work. rewrite Hw.
    split; [done |]. cell_simpl. repeat split; [cbn; lia | done].
  - exists (Work i). do 2 eexists. cbn [step]. unfold work. rewrite Hw.
    split; [done |]. cell_simpl. repeat split; [cbn; lia | done].
  - exists (Work i). do 2 eexists. cbn [step]. unfold work. rewrite Hw.
    split; [done |]. cell_simpl. repeat split; [cbn; lia | done].
  - exists (Work i). do 2 eexists. cbn [step]. unfold work. rewrite Hw.
    split; [done |]. cell_simpl. repeat split; [cbn; lia | done].
  - exists (Work i). do 2 eexists. cbn [step]. unfold work. rewrite Hw.
    split; [done |]. cell_simpl. repeat split; [cbn; lia | done].
  - exists (Work i). do 2 eexists. cbn [step]. unfold work. rewrite Hw.
    split; [done |]. cell_simpl. repeat split; [cbn; lia | done].
  - exists (Work i). do 2 eexists. cbn [step]. unfold work. rewrite Hw.
    split; [done |]. cell_simpl. repeat split; [cbn; lia | done].
  - (* release *)
    pose proof (release_held c s i WRelease Hinv Hw eq_refl) as Hheld.
    destruct (sem s) as [| n] eqn:Hsem; [lia |].
    exists (Work i), (set_worker i WRange (set_sem n s)), WRange.
    cbn [step]. unfold work. rewrite Hw, Hsem.
    split; [done |]. cell_simpl. repeat split; [cbn; lia | done].
Qed.

(** Worker [i] can be brought back to the head of its loop. *)
Lemma to_range (c : Z) (n : nat) (s : cell) (i : nat) (w : worker) :
  (dist w <= n)%nat -> inv c s -> workers s !! i = Some w -> w <> WExit ->
  exists tr s',
    run c tr s = Some s' /\ workers s' = <[i := WRange]> (workers s)
    /\ sameChannels s s'.
Proof.
  revert s w. induction n as [| n IH]; intros s w Hn Hinv Hw Hex.
  - exists [], s. split; [done |]. split; [| done].
    destruct w as [| | | ? [] | ? [] | | | | | | |]; cbn [dist] in Hn; try lia;
      [by rewrite list_insert_id | by destruct Hex].
  - destruct (Nat.eq_dec (dist w) 0%nat) as [H0 | H0].
    { apply (IH s w); [lia | done ..]. }
    destruct (nudge c s i w Hinv Hw) as (l & s1 & w1 & Hstep & Hws & Hlt & Hne & Hsame); [lia |].
    destruct (IH s1 w1) as (tr & s2 & Hrun & Hws2 & Hsame2); [lia | by eapply inv_step | | done |].
    { rewrite Hws. apply list_lookup_insert_eq. by eapply lookup_lt_Some. }
    exists (l :: tr), s2. rewrite run_cons, Hstep. split; [done |].
    split; [| by eapply sameChannels_trans].
    by rewrite Hws2, Hws, insert_twice.
Qed.

Lemma exited_cases (w : worker) : w = WExit \/ w <> WExit.
Proof. destruct w; (by left) || (by right). Qed.

(** After the close, worker [i] can drain the channel and exit. *)
Lemma drain_one (c : Z) (n : nat) (s : cell) (i : nat) :
  jobs s = n -> inv c s -> closed s = true -> (i < length (workers s))%nat ->
  exists tr s',
    run c tr s = Some s' /\ workers s' = <[i := WExit]> (workers s)
    /\ jobs s' = 0%nat /\ closed s' = true /\ disp s' = disp s /\ fired s' = fired s.
Proof.
  revert s. induction n as [| n IH]; intros s Hjobs Hinv Hcl Hi.
  - destruct (lookup_lt_is_Some_2 _ _ Hi) as [w Hw].
    destruct (exited_cases w) as [-> | Hne].
    { exists [], s. rewrite list_insert_id by done. by repeat split. }
    destruct (to_range c (dist w) s i w) as (tr & s1 & Hrun & Hws & Hj & Hc & Hd & Hf);
      [lia | done .. |].
    exists (tr ++ [Work i]). eexists. rewrite run_app, Hrun. cbn [mbind option_bind].
    rewrite run_cons. cbn [step]. unfold work.
    rewrite Hws, list_lookup_insert_eq by done. rewrite Hj, Hjobs, Hc, Hcl.
    cbn [mbind option_bind]. rewrite run_nil. split; [done |]. cell_simpl.
    rewrite Hws, insert_twice.
    repeat split; congruence.
  - destruct (lookup_lt_is_Some_2 _ _ Hi) as [w Hw].
    destruct (exited_cases w) as [-> | Hne].
    { destruct Hinv as [_ _ _ _ Hgone _ _ _]. destruct Hgone as [_ ?]; [| lia].
      pose proof (sumZ_lookup_le gone _ _ _ gone_nonneg Hw). cbn in *. lia. }
    destruct (to_range c (dist w) s i w) as (tr & s1 & Hrun & Hws & Hj & Hc & Hd & Hf);
      [lia | done .. |].
    assert (step c (Work i) s1
            = Some (set_worker i WAcquire (set_jobs n s1))) as Hstep.
    { cbn [step]. unfold work. rewrite Hws, list_lookup_insert_eq by done.
      by rewrite Hj, Hjobs. }
    destruct (IH (set_worker i WAcquire (set_jobs n s1)))
      as (tr2 & s2 & Hrun2 & Hws2 & Hj2 & Hc2 & Hd2 & Hf2).
    + done.
    + eapply inv_step; [| exact Hstep]. by eapply inv_steps.
    + cell_simpl. congruence.
    + cell_simpl. by rewrite length_insert, Hws, length_insert.
    + exists (tr ++ Work i :: tr2), s2.
      rewrite run_app, Hrun. cbn [mbind option_bind]. rewrite run_cons, Hstep.
      cbn [mbind option_bind]. split; [done |]. cell_simpl.
      rewrite Hws2, Hws, !insert_twice.
      repeat split; congruence.
Qed.

(** After the close, the first [k] workers can be made to exit. *)
Lemma drain_first (c : Z) (k : nat) (s : cell) :
  inv c s -> closed s = true -> (k <= length (workers s))%nat ->
  exists tr s',
    run c tr s = Some s' /\ length (workers s') = length (workers s)
    /\ (forall i, (i < k)%nat -> workers s' !! i = Some WExit)
    /\ closed s' = true /\ disp s' = disp s /\ fired s' = fired s.
Proof.
  intros Hinv Hcl. induction k as [| k IH]; intros Hk.
  - exists [], s. repeat split; try done. intros i Hi. lia.
  - destruct IH as (tr & s1 & Hrun & Hlen & Hex & Hc & Hd & Hf); [lia |].
    destruct (drain_one c (jobs s1) s1 k) as (tr2 & s2 & Hrun2 & Hws & _ & Hc2 & Hd2 & Hf2);
      [done | by eapply inv_steps | done | lia |].
    exists (tr ++ tr2), s2. rewrite run_app, Hrun. cbn [mbind option_bind].
    split; [done |]. rewrite Hws, length_insert.
    split; [done |]. split; [| repeat split; congruence].
    intros i Hi. destruct (decide (i = k)) as [-> | Hne].
    + apply list_lookup_insert_eq. lia.
    + rewrite list_lookup_insert_ne by done. apply Hex. lia.
Qed.

Lemma all_exited (ws : list worker) :
  (forall i, (i < length ws)%nat -> ws !! i = Some WExit) -> forallb exited ws = true.
Proof.
  induction ws as [| w ws IH]; [done |]. intros H. cbn [forallb].
  assert (w = WExit) as -> by (specialize (H 0%nat); cbn in H; by injection (H ltac:(lia))).
  cbn. apply IH. intros i Hi. apply (H (S i)). cbn. lia.
Qed.

(** Once the timer has fired, the dispatcher can be brought to the wait. *)
Lemma to_wait (c : Z) (s : cell) :
  0 < c < 2 ^ 62 -> inv c s -> fired s = true ->
  exists tr s', run c tr s = Some s' /\ (disp s' = DWait \/ disp s' = DJoined).
Proof.
  intros Hc Hinv Hf.
  assert (forall s, disp s = DClose -> exists tr s',
            run c tr s = Some s' /\ disp s' = DWait) as Hclose.
  { intros s1 Hd. exists [Dispatch]. eexists. rewrite run_cons. cbn [step].
    unfold dispatch. rewrite Hd. cbn [mbind option_bind]. by rewrite run_nil. }
  assert (forall s, disp s = DSelect -> fired s = true -> exists tr s',
            run c tr s = Some s' /\ disp s' = DWait) as Hselect.
  { intros s1 Hd Hf1.
    destruct (Hclose (set_disp DClose s1)) as (tr & s2 & Hrun & Hd2); [done |].
    exists (Dispatch :: tr), s2. rewrite run_cons. cbn [step].
    unfold dispatch. by rewrite Hd, Hf1. }
  assert (forall s, disp s = DCount -> fired s = true -> exists tr s',
            run c tr s = Some s' /\ disp s' = DWait) as Hcount.
  { intros s1 Hd Hf1.
    destruct (Hselect (set_disp DSelect (set_requestCount (Int64.add (requestCount s1) 1) s1)))
      as (tr & s2 & Hrun & Hd2); [done .. |].
    exists (Dispatch :: tr), s2. rewrite run_cons. cbn [step].
    unfold dispatch. by rewrite Hd. }
  assert (forall s, disp s = DSend -> fired s = true ->
            Z.of_nat (jobs s) < jobsCap c -> exists tr s',
            run c tr s = Some s' /\ disp s' = DWait) as Hsend.
  { intros s1 Hd Hf1 Hroom.
    destruct (Hcount (set_disp DCount (set_jobs (S (jobs s1)) s1)))
      as (tr & s2 & Hrun & Hd2); [done .. |].
    exists (Dispatch :: tr), s2. rewrite run_cons. cbn [step].
    unfold dispatch. rewrite Hd.
    by replace (Z.of_nat (jobs s1) <? jobsCap c) with true
      by (symmetry; apply Z.ltb_lt; lia). }
  destruct (disp s) eqn:Hd.
  - destruct (Hselect s) as (tr & s' & ? & ?); [done .. |]. exists tr, s'. by auto.
  - destruct (Z.lt_ge_cases (Z.of_nat (jobs s)) (jobsCap c)) as [Hroom | Hfull].
    { destruct (Hsend s) as (tr & s' & ? & ?); [done .. |]. exists tr, s'. by auto. }
    (* the channel is full: worker 0 takes a token first *)
    pose proof Hinv as [_ _ _ Hcl Hgone _ Hcap Hpool].
    rewrite jobsCap_double in Hfull, Hcap by lia.
    destruct (lookup_lt_is_Some_2 (workers s) 0) as [w Hw]; [lia |].
    assert (w <> WExit) as Hne.
    { intros ->. destruct Hgone as [Hclosed _].
      - pose proof (sumZ_lookup_le gone _ _ _ gone_nonneg Hw). cbn in *. lia.
      - rewrite Hd in Hcl. cbn in Hcl. congruence. }
    destruct (to_range c (dist w) s 0 w) as (tr & s1 & Hrun & Hws & Hj & Hc1 & Hd1 & Hf1);
      [lia | done .. |].
    destruct (jobs s) as [| n] eqn:Hjobs; [lia |].
    assert (step c (Work 0) s1 = Some (set_worker 0 WAcquire (set_jobs n s1))) as Hstep.
    { cbn [step]. unfold work. rewrite Hws, list_lookup_insert_eq by (by eapply lookup_lt_Some).
      by rewrite Hj. }
    destruct (Hsend (set_worker 0 WAcquire (set_jobs n s1))) as (tr2 & s2 & Hrun2 & Hd2).
    + cell_simpl. congruence.
    + cell_simpl. congruence.
    + cell_simpl. rewrite jobsCap_double by lia. lia.
    + exists (tr ++ Work 0 :: tr2), s2. rewrite run_app, Hrun. cbn [mbind option_bind].
      rewrite run_cons, Hstep. by auto.
  - destruct (Hcount s) as (tr & s' & ? & ?); [done .. |]. exists tr, s'. by auto.
  - destruct (Hclose s) as (tr & s' & ? & ?); [done .. |]. exists tr, s'. by auto.
  - exists [], s. by auto.
  - exists [], s. by auto.
Qed.

(** Every reachable state has a continuation in which the dispatcher joins
    the workers. *)
Lemma can_finish (c : Z) (s : cell) :
  0 < c < 2 ^ 62 -> inv c s -> exists tr s', run c tr s = Some s' /\ disp s' = DJoined.
Proof.
  intros Hc Hinv.
  assert (exists tr0 s0, run c tr0 s = Some s0 /\ fired s0 = true) as (tr0 & s0 & Hrun0 & Hf).
  { destruct (fired s) eqn:Hf; [by exists [], s |].
    exists [Fire]. eexists. rewrite run_cons. cbn [step]. rewrite Hf.
    cbn [mbind option_bind]. by rewrite run_nil. }
  pose proof (inv_steps _ _ _ _ Hinv Hrun0) as Hinv0.
  destruct (to_wait c s0 Hc Hinv0 Hf) as (tr1 & s1 & Hrun1 & Hd1).
  pose proof (inv_steps _ _ _ _ Hinv0 Hrun1) as Hinv1.
  destruct Hd1 as [Hd1 | Hd1].
  2:{ exists (tr0 ++ tr1), s1. rewrite run_app, Hrun0. by split. }
  assert (closed s1 = true) as Hcl
    by (destruct Hinv1 as [_ _ _ -> _ _ _ _]; by rewrite Hd1).
  destruct (drain_first c (length (workers s1)) s1 Hinv1 Hcl)
    as (tr2 & s2 & Hrun2 & Hlen & Hex & _ & Hd2 & _); [lia |].
  rewrite <- Hlen in Hex. apply all_exited in Hex.
  exists (tr0 ++ tr1 ++ tr2 ++ [Dispatch]). eexists.
  rewrite run_app, Hrun0. cbn [mbind option_bind]. rewrite run_app, Hrun1.
  cbn [mbind option_bind]. rewrite run_app, Hrun2. cbn [mbind option_bind].
  rewrite run_cons. cbn [step]. unfold dispatch. rewrite Hd2, Hd1, Hex.
  cbn [mbind option_bind]. by rewrite run_nil.
Qed.

End DrainFacts.

(** * Further properties of the code *)

Import CellSpec MoreExamples ReducerEdges ResultFacts CellEdges LevelEdges ErrorFacts.
Import ConfigFile ModelPkg EngineSetup Report RunSpec PackageExamples.
Import ConfigFacts ModelFacts SetupFacts RunEdges ReportFacts DrainFacts FrameFacts
  ClientFacts.

(** X1.  [calculatePercentile] on an empty slice panics with an index out of
    range, whatever the percentile; [runTestWithConcurrency] guards the call:
    with no sample the tail of the function returns, allocates nothing and
    leaves [LatencyPercentiles] as it found it. *)
Theorem X1_empty_slice :
  (forall (h : heap) (sl : slice) (p : Z),
     contents h sl = [] ->
     snd (calculatePercentile h sl p) = Panicked IndexOutOfRange)
  /\ (forall (cfg : TestConfig) (s : cell) (totalDuration : Z) (result : TestResult),
        contents (mem s) (latencies s) = [] ->
        exists r, finish cfg s totalDuration result = (mem s, Returned r)
          /\ LatencyPercentiles r = LatencyPercentiles result).
Proof.
  split.
  - intros h sl p Hl. by rewrite calculatePercentile_value, Hl, percentileValue_nil.
  - intros cfg s totalDuration result Hl.
    destruct (finish_total cfg s totalDuration result) as (h' & r & Hfin); [done |].
    destruct (finish_percentiles _ _ _ _ _ _ Hfin) as [_ Hkept].
    exists r. split; [| by apply Hkept; left].
    rewrite Hfin. f_equal.
    revert Hfin. unfold finish, len. rewrite Hl. cbn [length Z.of_nat Z.ltb Z.compare andb].
    destruct (if 0 <? successCount s then _ else _); by intros [= <- _].
Qed.

Lemma X1_witness :
  snd (calculatePercentile ∅ None 50) = Panicked IndexOutOfRange.
Proof. destruct X1_empty_slice as [H _]. by apply H. Defined.

(** X2.  On a non-empty slice of a size binary64 handles exactly, the value
    [calculatePercentile] returns for a percentile between 0 and 100 is one of
    the samples; for 0 it is the smallest sample and for 100 the largest. *)
Theorem X2_percentile_extremes (h : heap) (sl : slice) :
  contents h sl <> [] -> exactSize (len h sl) ->
  (forall p, 0 <= p <= 100 ->
     exists v, snd (calculatePercentile h sl p) = Returned v /\ v ∈ contents h sl)
  /\ (exists lo, snd (calculatePercentile h sl 0) = Returned lo
        /\ forall x, x ∈ contents h sl -> lo <= x)
  /\ (exists hi, snd (calculatePercentile h sl 100) = Returned hi
        /\ forall x, x ∈ contents h sl -> x <= hi).
Proof.
  intros Hne Hsize. unfold len in Hsize. split; [| split].
  - intros p Hp. destruct (percentileValue_exact _ p Hne Hsize Hp) as (v & Hrank & Hval).
    exists v. rewrite calculatePercentile_value. split; [done | by eapply nearestRank_elem].
  - destruct (percentileValue_exact _ 0 Hne Hsize) as (v & Hrank & Hval); [lia |].
    exists v. rewrite calculatePercentile_value. split; [done | by apply nearestRank_0].
  - destruct (percentileValue_exact _ 100 Hne Hsize) as (v & Hrank & Hval); [lia |].
    exists v. rewrite calculatePercentile_value. split; [done | by apply nearestRank_100].
Qed.

Lemma X2_witness :
  exists lo hi,
    snd (calculatePercentile hEx (Some 1%positive) 0) = Returned lo
    /\ snd (calculatePercentile hEx (Some 1%positive) 100) = Returned hi
    /\ lo <= 30 * ms <= hi.
Proof.
  destruct (X2_percentile_extremes hEx (Some 1%positive)) as (_ & (lo & Hlo & Hmin) & (hi & Hhi & Hmax));
    [done | by vm_compute |].
  exists lo, hi. split; [exact Hlo |]. split; [exact Hhi |].
  split; [apply Hmin | apply Hmax]; repeat constructor.
Defined.

(** X3.  The value [calculatePercentile] computes depends on the samples as
    a multiset only: two slices with the same samples in any order give the
    same value, or the same panic, at every percentile. *)
Theorem X3_order_irrelevant (h1 h2 : heap) (sl1 sl2 : slice) (p : Z) :
  contents h1 sl1 ≡ₚ contents h2 sl2 ->
  snd (calculatePercentile h1 sl1 p) = snd (calculatePercentile h2 sl2 p).
Proof. intros Hp. rewrite !calculatePercentile_value. by apply percentileValue_perm. Qed.

Lemma X3_witness :
  snd (calculatePercentile {[ 1%positive := [3; 1; 2] ]} (Some 1%positive) 50)
  = snd (calculatePercentile {[ 2%positive := [1; 2; 3] ]} (Some 2%positive) 50).
Proof.
  apply X3_order_irrelevant.
  rewrite <- (merge_sort_Permutation Z.le (contents {[ 1%positive := [3; 1; 2] ]} (Some 1%positive))).
  by vm_compute.
Defined.

(** X4.  A percentile above 100 is not rejected.  On a non-empty slice of
    length [n], for a non-negative percentile [p] (with [(n-1) * p] below
    [2^53]), [calculatePercentile] returns the sample of rank
    [floor((n-1) * p / 100)] when that rank is below [n], and panics with an
    index out of range otherwise. *)
Theorem X4_percentile_above_100 (h : heap) (sl : slice) (p : Z) :
  contents h sl <> [] -> 0 <= p < 2 ^ 53 -> len h sl - 1 < 2 ^ 53 ->
  (len h sl - 1) * p < 2 ^ 53 ->
  ((len h sl - 1) * p / 100 < len h sl ->
     exists v, snd (calculatePercentile h sl p) = Returned v
       /\ merge_sort Z.le (contents h sl) !! Z.to_nat ((len h sl - 1) * p / 100) = Some v)
  /\ (len h sl <= (len h sl - 1) * p / 100 ->
        snd (calculatePercentile h sl p) = Panicked IndexOutOfRange).
Proof.
  intros Hne Hp Hn Hk. unfold len in *.
  rewrite calculatePercentile_value, percentileValue_rank by done.
  split; intros Hi.
  - replace (_ <? _) with true by (symmetry; apply Z.ltb_lt; lia).
    unfold nearestRank.
    destruct (lookup_lt_is_Some_2 (merge_sort Z.le (contents h sl))
                (Z.to_nat ((Z.of_nat (length (contents h sl)) - 1) * p / 100))) as [v Hv].
    { rewrite length_merge_sort.
      assert (0 <= (Z.of_nat (length (contents h sl)) - 1) * p / 100)
        by (apply Z.div_pos; [| lia]; destruct (contents h sl); [done | cbn [length]; nia]).
      lia. }
    exists v. by rewrite Hv.
  - by replace (_ <? _) with false by (symmetry; apply Z.ltb_ge; lia).
Qed.

Lemma X4_witness :
  snd (calculatePercentile hEx (Some 1%positive) 125) = Panicked IndexOutOfRange
  /\ exists v, snd (calculatePercentile hEx (Some 1%positive) 101) = Returned v.
Proof.
  split.
  - apply (X4_percentile_above_100 hEx (Some 1%positive) 125);
      [done | by vm_compute | by vm_compute | by vm_compute | by vm_compute].
  - destruct (X4_percentile_above_100 hEx (Some 1%positive) 101) as [H _];
      [done | by vm_compute | by vm_compute | by vm_compute |].
    destruct H as (v & Hv & _); [by vm_compute |]. by exists v.
Defined.

(** X5.  The slice stored as [AllLatencies] holds one sample per invocation
    of the cell, failed or not, and nothing else: it replaces what the result
    held before, while [TotalRequests] grows by its length. *)
Theorem X5_one_sample_per_request (cfg : TestConfig) (c : Z) (result : TestResult)
    (h h' : heap) (sch : schedule) (r : TestResult) (err : option string) :
  runTestWithConcurrency cfg c result h sch = Some (h', Returned (r, err)) ->
  contents h' (AllLatencies r) ≡ₚ (returned (sch_trace sch)).*1
  /\ TotalRequests r
     = Int64.add (TotalRequests result) (Int64.wrap (len h' (AllLatencies r))).
Proof.
  intros (_ & s & Hfin & Htok & Hok & Herr & _ & _ & _ & Hperm)%cell_returned.
  destruct (finish_fields _ _ _ _ _ _ Hfin) as (-> & _ & _ & -> & Hcont & _).
  unfold len. rewrite Hcont. split; [done |].
  rewrite (Permutation_length Hperm), length_fmap, <- total_count.
  set (a := total isResp _) in *. set (b := total isError _) in *.
  clearbody a b. clear Hfin Hperm Hcont. lia64.
Qed.

Lemma X5_witness :
  exists h' r err,
    runTestWithConcurrency cfgEx 1 (newTestResult "m" 1) ∅ schFail
      = Some (h', Returned (r, err))
    /\ contents h' (AllLatencies r) ≡ₚ [7 * ms].
Proof.
  destruct (runTestWithConcurrency cfgEx 1 (newTestResult "m" 1) ∅ schFail)
    as [[h' [[r err] | p]] |] eqn:E; [| by vm_compute in E | by vm_compute in E].
  exists h', r, err. split; [done |].
  by destruct (X5_one_sample_per_request cfgEx 1 (newTestResult "m" 1) ∅ h' schFail r err E).
Defined.

(** X6.  In a cell with fewer than [2^63] invocations, of which at least one
    succeeds, the token fields grow by the tokens of the successful
    invocations; with no success they are left as they were.  Either way
    [TotalTokens == InputTokens + OutputTokens] is kept if it held in the
    result handed in. *)
Theorem X6_token_totals (cfg : TestConfig) (c : Z) (result : TestResult)
    (h h' : heap) (sch : schedule) (r : TestResult) (err : option string) :
  Z.of_nat (length (returned (sch_trace sch))) < 2 ^ 63 ->
  runTestWithConcurrency cfg c result h sch = Some (h', Returned (r, err)) ->
  (0 < total isResp (returned (sch_trace sch)) ->
     InputTokens r
     = Int64.add (InputTokens result)
                 (Int64.wrap (total respInput (returned (sch_trace sch))))
     /\ OutputTokens r
        = Int64.add (OutputTokens result)
                    (Int64.wrap (total respOutput (returned (sch_trace sch))))
     /\ TotalTokens r
        = Int64.add (TotalTokens result)
                    (Int64.wrap (total respInput (returned (sch_trace sch))
                                 + total respOutput (returned (sch_trace sch)))))
  /\ (total isResp (returned (sch_trace sch)) = 0 ->
        InputTokens r = InputTokens result /\ OutputTokens r = OutputTokens result
        /\ TotalTokens r = TotalTokens result)
  /\ (Int64.add (InputTokens result) (OutputTokens result) = TotalTokens result ->
        Int64.add (InputTokens r) (OutputTokens r) = TotalTokens r).
Proof.
  intros Hlen (_ & s & Hfin & _ & Hok & _ & _ & Hin & Hout & _)%cell_returned.
  pose proof (total_isResp_le (returned (sch_trace sch))) as Hrange.
  rewrite wrap_small in Hok by (unfold int64; lia).
  destruct (finish_tokens _ _ _ _ _ _ Hfin) as (_ & _ & Hpos & Hzero).
  rewrite Hok in Hpos, Hzero. clear Hfin Hok.
  set (n := total isResp _) in *. set (a := total respInput _) in *.
  set (b := total respOutput _) in *. clearbody n a b.
  split; [| split].
  - intros Hn. destruct (Hpos Hn) as (_ & -> & -> & -> & _). rewrite Hin, Hout.
    clear. repeat split; lia64.
  - intros Hn. destruct Hzero as (_ & -> & -> & ->); [lia | done].
  - intros Hpre. destruct (Z.lt_ge_cases 0 n) as [Hn | Hn].
    + destruct (Hpos Hn) as (_ & -> & -> & -> & _). rewrite <- Hpre.
      clear. lia64.
    + by destruct Hzero as (_ & -> & -> & ->).
Qed.

Lemma X6_witness :
  exists h' r err,
    runTestWithConcurrency cfgEx 1 (newTestResult "m" 1) ∅ schOk
      = Some (h', Returned (r, err))
    /\ InputTokens r = 12 /\ OutputTokens r = 30 /\ TotalTokens r = 42.
Proof.
  destruct (runTestWithConcurrency cfgEx 1 (newTestResult "m" 1) ∅ schOk)
    as [[h' [[r err] | p]] |] eqn:E; [| by vm_compute in E | by vm_compute in E].
  exists h', r, err. split; [done |].
  destruct (X6_token_totals cfgEx 1 (newTestResult "m" 1) ∅ h' schOk r err)
    as (Hpos & _); [by vm_compute | exact E |].
  apply Hpos. by vm_compute.
Defined.

(** X7.  [AvgLatency] is the truncated mean of the latencies of the
    successful invocations alone (the failed ones count in the percentiles,
    not here), as long as their number and their sum fit in 63 bits. *)
Theorem X7_average_latency (cfg : TestConfig) (c : Z) (result : TestResult)
    (h h' : heap) (sch : schedule) (r : TestResult) (err : option string) :
  Z.of_nat (length (returned (sch_trace sch))) < 2 ^ 63 ->
  0 < total isResp (returned (sch_trace sch)) ->
  int64 (total respLatency (returned (sch_trace sch))) ->
  runTestWithConcurrency cfg c result h sch = Some (h', Returned (r, err)) ->
  AvgLatency r
  = Z.quot (total respLatency (returned (sch_trace sch)))
           (total isResp (returned (sch_trace sch))).
Proof.
  intros Hlen Hn Hsum (_ & s & Hfin & _ & Hok & _ & Hlat & _)%cell_returned.
  pose proof (total_isResp_le (returned (sch_trace sch))) as Hrange.
  rewrite wrap_small in Hok by (unfold int64; lia).
  rewrite wrap_small in Hlat by done.
  destruct (finish_tokens _ _ _ _ _ _ Hfin) as (_ & _ & Hpos & _).
  destruct Hpos as (-> & _); [lia |]. rewrite Hok, Hlat.
  apply wrap_small. unfold int64 in *.
  set (a := total respLatency _) in *. set (n := total isResp _) in *.
  clearbody a n. clear - Hn Hsum.
  destruct (Z.le_gt_cases 0 a) as [Ha | Ha].
  - rewrite Z.quot_div_nonneg by lia.
    assert (0 <= a / n) by (apply Z.div_pos; lia).
    assert (a / n <= a) by (apply Z.div_le_upper_bound; nia). lia.
  - replace a with (- - a) by lia. rewrite Z.quot_opp_l by lia.
    rewrite Z.quot_div_nonneg by lia.
    assert (0 <= - a / n) by (apply Z.div_pos; lia).
    assert (- a / n <= - a) by (apply Z.div_le_upper_bound; nia). lia.
Qed.

Lemma X7_witness :
  exists h' r err,
    runTestWithConcurrency cfgEx 1 (newTestResult "m" 1) ∅ schOk
      = Some (h', Returned (r, err))
    /\ AvgLatency r = 7 * ms.
Proof.
  destruct (runTestWithConcurrency cfgEx 1 (newTestResult "m" 1) ∅ schOk)
    as [[h' [[r err] | p]] |] eqn:E; [| by vm_compute in E | by vm_compute in E].
  exists h', r, err. split; [done |].
  apply (X7_average_latency cfgEx 1 (newTestResult "m" 1) ∅ h' schOk r err);
    [by vm_compute | by vm_compute | vm_compute; split; [discriminate | reflexivity] | exact E].
Defined.

(** X8.  Deadlock freedom.  At a concurrency level of at least 1, in every
    state a cell reaches before the dispatcher has joined the workers, the
    dispatcher or some worker can take a step, or some invocation is in
    flight. *)
Theorem X8_never_stuck (c : Z) (result : TestResult) (h : heap) (s0 s : cell)
    (tr : list label) :
  0 < c < 2 ^ 62 ->
  start c result h = Returned s0 -> run c tr s0 = Some s ->
  disp s <> DJoined -> canMove c s.
Proof.
  intros Hc Hstart Hrun. apply progress; [done |]. by eapply inv_run.
Qed.

Lemma X8_witness :
  exists s0 s,
    start 2 (newTestResult "m" 2) ∅ = Returned s0
    /\ run 2 bothInvoking s0 = Some s /\ canMove 2 s.
Proof.
  destruct (start 2 (newTestResult "m" 2) ∅) as [s0 | p] eqn:E0; [| by vm_compute in E0].
  destruct (run 2 bothInvoking s0) as [s |] eqn:E1.
  2:{ vm_compute in E0. injection E0 as <-. by vm_compute in E1. }
  exists s0, s. split; [done |]. split; [done |].
  apply (X8_never_stuck 2 (newTestResult "m" 2) ∅ s0 s bothInvoking); [lia | done | done |].
  vm_compute in E0. injection E0 as <-. vm_compute in E1. injection E1 as <-. done.
Defined.

(** X9.  The semaphore never blocks: whenever a worker is about to send on
    [sem], fewer than [c] slots are taken and the send goes through. *)
Theorem X9_semaphore_never_blocks (c : Z) (result : TestResult) (h : heap)
    (s0 s : cell) (tr : list label) (i : nat) :
  start c result h = Returned s0 -> run c tr s0 = Some s ->
  workers s !! i = Some WAcquire ->
  Z.of_nat (sem s) < c
  /\ work c i s = Some (set_worker i WInvoke (set_sem (S (sem s)) s)).
Proof.
  intros Hstart Hrun Hw.
  pose proof (acquire_free c s i (inv_run _ _ _ _ _ _ Hstart Hrun) Hw) as Hfree.
  split; [done |]. unfold work. rewrite Hw.
  by replace (Z.of_nat (sem s) <? c) with true by (symmetry; apply Z.ltb_lt; lia).
Qed.

Lemma X9_witness :
  exists s0 s,
    start 1 (newTestResult "m" 1) ∅ = Returned s0
    /\ run 1 [Dispatch; Dispatch; Dispatch; Work 0] s0 = Some s
    /\ Z.of_nat (sem s) < 1.
Proof.
  destruct (start 1 (newTestResult "m" 1) ∅) as [s0 | p] eqn:E0; [| by vm_compute in E0].
  destruct (run 1 [Dispatch; Dispatch; Dispatch; Work 0] s0) as [s |] eqn:E1.
  2:{ vm_compute in E0. injection E0 as <-. by vm_compute in E1. }
  exists s0, s. split; [done |]. split; [done |].
  apply (X9_semaphore_never_blocks 1 (newTestResult "m" 1) ∅ s0 s
           [Dispatch; Dispatch; Dispatch; Work 0] 0 E0 E1).
  vm_compute in E0. injection E0 as <-. vm_compute in E1. injection E1 as <-. done.
Defined.

(** X10.  Degenerate concurrency levels.  A negative level panics at
    [make(chan ...)] before anything else happens.  At level 0 there is no
    worker and the channel has no buffer: no request is ever counted, a
    dispatcher that has reached the send stays blocked there whatever
    happens next, and the cell gets to the end only when the timer fires
    before the dispatcher's first [select]. *)
Theorem X10_degenerate_levels :
  (forall (cfg : TestConfig) (c : Z) (result : TestResult) (h : heap) (sch : schedule),
     c < 0 ->
     runTestWithConcurrency cfg c result h sch = Some (h, Panicked MakeChanSize))
  /\ (forall (result : TestResult) (h : heap) (s0 s : cell) (tr : list label),
        start 0 result h = Returned s0 -> run 0 tr s0 = Some s ->
        requestCount s = 0
        /\ (disp s = DJoined -> tr = [Fire; Dispatch; Dispatch; Dispatch])
        /\ (disp s = DSend ->
              forall tr' s', run 0 tr' s = Some s' -> disp s' = DSend)).
Proof.
  split.
  - intros cfg c result h sch Hc. unfold runTestWithConcurrency.
    by rewrite start_negative.
  - intros result h s0 s tr Hstart Hrun.
    destruct (level0_run _ _ _ _ _ Hstart Hrun) as (Hw & Hreq & Hd).
    split; [done |]. split.
    + intros Ed. rewrite Ed in Hd. by destruct Hd.
    + intros Ed tr' s' Hrun'. by destruct (level0_blocked s tr' s' Hw Ed Hrun').
Qed.

Lemma X10_witness :
  runTestWithConcurrency cfgEx (-1) (newTestResult "m" (-1)) ∅ schOk
  = Some (∅, Panicked MakeChanSize).
Proof. destruct X10_degenerate_levels as [H _]. apply H. lia. Defined.



(** X12.  With a single worker no error is lost: the cell leaves in
    [result.Errors] the list it found followed by the messages of the failed
    invocations, in the order in which they returned. *)
Theorem X12_single_worker_errors (cfg : TestConfig) (result : TestResult)
    (h h' : heap) (sch : schedule) (r : TestResult) (err : option string) :
  runTestWithConcurrency cfg 1 result h sch = Some (h', Returned (r, err)) ->
  Errors r = Errors result ++ failedMsgs (returned (sch_trace sch)).
Proof.
  intros (_ & s0 & s & Hstart & Hrun & Hd & Hfin)%runTestWithConcurrency_returned.
  destruct (finish_tokens _ _ _ _ _ _ Hfin) as (_ & -> & _).
  destruct (errs1_run _ _ _ _ _ Hstart Hrun) as (w & Hws & Hlist & _).
  destruct (joined_quiet 1 s (inv_run _ _ _ _ _ _ Hstart Hrun) Hd) as [_ Hex].
  rewrite Hws in Hex. destruct w; try done. by rewrite app_nil_r in Hlist.
Qed.

Lemma X12_witness :
  exists h' r err,
    runTestWithConcurrency cfgEx 1 (newTestResult "m" 1) ∅ schFail
      = Some (h', Returned (r, err))
    /\ Errors r = ["boom"%string].
Proof.
  destruct (runTestWithConcurrency cfgEx 1 (newTestResult "m" 1) ∅ schFail)
    as [[h' [[r err] | p]] |] eqn:E; [| by vm_compute in E | by vm_compute in E].
  exists h', r, err. split; [done |].
  exact (X12_single_worker_errors cfgEx (newTestResult "m" 1) ∅ h' schFail r err E).
Defined.

(** X13.  When some invocation returned and some percentile is configured,
    the percentile map of the result is built from scratch: its keys are the
    configured percentiles (a percentile listed twice has one entry, and
    entries the result held before are gone), and every value is the latency
    of an invocation of this cell. *)
Theorem X13_percentile_keys (cfg : TestConfig) (c : Z) (result : TestResult)
    (h h' : heap) (sch : schedule) (r : TestResult) (err : option string) :
  returned (sch_trace sch) <> [] -> Config.LatencyPercentiles cfg <> [] ->
  runTestWithConcurrency cfg c result h sch = Some (h', Returned (r, err)) ->
  exists m : gmap Z Z,
    LatencyPercentiles r = Some m
    /\ dom m = list_to_set (Config.LatencyPercentiles cfg)
    /\ forall p v, m !! p = Some v -> v ∈ (returned (sch_trace sch)).*1.
Proof.
  intros Hne Hps (_ & s & Hfin & _ & _ & _ & _ & _ & _ & Hperm)%cell_returned.
  destruct (finish_percentiles _ _ _ _ _ _ Hfin) as [Hstored _].
  destruct Hstored as (m & Hm & Hent); [| done |].
  { intros El. rewrite El in Hperm. apply Permutation_nil_l in Hperm.
    by destruct (returned (sch_trace sch)). }
  exists m. split; [done |]. split.
  - by rewrite (percentileEntries_dom _ _ _ _ Hent), dom_empty_L, (left_id_L ∅ (∪)).
  - intros p v Hv.
    destruct (percentileEntries_lookup _ _ _ _ _ _ Hent Hv) as [[_ Hval] | [_ Hold]]; [| done].
    rewrite <- Hperm. by eapply percentileValue_elem.
Qed.

Lemma X13_witness :
  exists h' r err (m : gmap Z Z),
    runTestWithConcurrency cfgEx 1 (newTestResult "m" 1) ∅ schFail
      = Some (h', Returned (r, err))
    /\ LatencyPercentiles r = Some m
    /\ dom m = list_to_set [50; 90; 95; 99].
Proof.
  destruct (runTestWithConcurrency cfgEx 1 (newTestResult "m" 1) ∅ schFail)
    as [[h' [[r err] | p]] |] eqn:E; [| by vm_compute in E | by vm_compute in E].
  destruct (X13_percentile_keys cfgEx 1 (newTestResult "m" 1) ∅ h' schFail r err)
    as (m & Hm & Hdom & _); [done | done | exact E |].
  exists h', r, err, m. split; [done |]. split; [exact Hm | exact Hdom].
Defined.

(** X14.  [validateConfig] accepts a configuration exactly when it has at
    least one model, a non-empty user message, and every model has a name, a
    type and an API key; otherwise the error is about the first model that
    lacks one of them, named by its position counted from 1 when it is the
    name that is missing. *)
Theorem X14_validateConfig :
  (forall config : Config,
     validateConfig config = None
     <-> Models config <> []
         /\ PromptConfig.UserMessage (Prompt config) <> EmptyString
         /\ Forall complete (Models config))
  /\ (forall (config : Config) (pre post : list ModelConfig) (m : ModelConfig),
        PromptConfig.UserMessage (Prompt config) <> EmptyString ->
        Models config = pre ++ m :: post -> Forall complete pre ->
        ModelConfig.Name m = EmptyString ->
        validateConfig config
        = Some ("模型 #" +:+ pretty (Z.of_nat (length pre) + 1) +:+ " 未指定名称")).
Proof.
  split.
  - intros config. unfold validateConfig.
    destruct (Models config) as [| m ms] eqn:Hm; [cbn; split; [done | by intros [? _]] |].
    replace (Z.of_nat (length (m :: ms)) =? 0) with false by (symmetry; apply Z.eqb_neq; cbn [length]; lia).
    case_decide; [split; [done | by intros (_ & ? & _)] |].
    rewrite validateModels_complete. split; [done | by intros (_ & _ & ?)].
  - intros config pre post m Hmsg Hmodels Hpre Hname. unfold validateConfig.
    rewrite Hmodels.
    replace (Z.of_nat (length (pre ++ m :: post)) =? 0) with false
      by (symmetry; apply Z.eqb_neq; rewrite length_app; cbn [length]; lia).
    rewrite decide_False by done.
    rewrite validateModels_first by (done || by intros (? & _)).
    by rewrite decide_True.
Qed.

(** X15.  A configuration [LoadConfig] returns is the parsed file with the
    defaults filled in: it passes [validateConfig], and its concurrency,
    duration, request timeout and retry count are not zero (zero becomes 1,
    30s, 30s and 3; any other value, a negative one included, is kept).
    Models, prompt and proxies are as parsed. *)
Theorem X15_LoadConfig (ReadFile : string -> string + string)
    (Unmarshal : string -> Config + string) (filePath : string) (config : Config) :
  LoadConfig ReadFile Unmarshal filePath = inl config ->
  validateConfig config = None
  /\ Config.Concurrency (Test config) <> 0 /\ Config.Duration (Test config) <> 0
  /\ Config.RequestTimeout (Test config) <> 0 /\ Config.MaxRetries (Test config) <> 0
  /\ exists data parsed,
       ReadFile filePath = inl data /\ Unmarshal data = inl parsed
       /\ config = setDefaults parsed
       /\ (Config.Concurrency (Test parsed) <> 0 ->
             Config.Concurrency (Test config) = Config.Concurrency (Test parsed))
       /\ Config.ConcurrencyLevels (Test config) = Config.ConcurrencyLevels (Test parsed)
       /\ Config.LatencyPercentiles (Test config) = Config.LatencyPercentiles (Test parsed)
       /\ Models config = Models parsed.
Proof.
  unfold LoadConfig. intros H.
  destruct (ReadFile filePath) as [data | e] eqn:Hread; [| done].
  destruct (Unmarshal data) as [parsed | e] eqn:Hparse; [| done].
  destruct (validateConfig (setDefaults parsed)) eqn:Hvalid; [done |].
  injection H as <-. split; [done |].
  destruct (setDefaults_nonzero parsed) as (H1 & H2 & H3 & H4).
  repeat (split; [done |]). exists data, parsed. repeat (split; [done |]).
  split; [| done]. intros Hc. cbn. by rewrite (proj2 (Z.eqb_neq _ _) Hc).
Qed.
Lemma X15_witness :
  exists config,
    LoadConfig readEx unmarshalEx "config.yaml" = inl config
    /\ Config.Concurrency (Test config) = 1
    /\ Config.Duration (Test config) = 30 * Duration.Second
    /\ Config.RequestTimeout (Test config) = 120 * Duration.Second
    /\ validateConfig config = None.
Proof.
  destruct (LoadConfig readEx unmarshalEx "config.yaml") as [config | e] eqn:E;
    [| by vm_compute in E].
  exists config. split; [done |].
  destruct (X15_LoadConfig readEx unmarshalEx "config.yaml" config E)
    as (Hvalid & _ & _ & _ & _ & data & parsed & _ & Hparsed & -> & _).
  injection Hparsed as <-. by repeat split.
Defined.

(** X16.  [InitializeModels] builds one model per entry that is not skipped,
    in the order of the configuration.  When it succeeds, every such entry
    had a supported type; when all of them are of type openai or anthropic it
    cannot fail, and each model answers [GetName], [GetConcurrencyLevels] and
    [GetStreamSetting] from its entry.  The first entry that is not skipped
    and has another type stops it with an error quoting the type; a skipped
    entry is never looked at. *)
Theorem X16_InitializeModels
    (NewGeminiModel : ModelConfig -> list ProxyConfig -> LLMModel + string)
    (proxies : list ProxyConfig) :
  (forall modelConfigs models,
     InitializeModels NewGeminiModel modelConfigs proxies = inl models ->
     length models = length (active modelConfigs)
     /\ Forall supported (active modelConfigs))
  /\ (forall modelConfigs,
        Forall builtin (active modelConfigs) ->
        InitializeModels NewGeminiModel modelConfigs proxies
        = inl (BaseModel <$> active modelConfigs))
  /\ (forall pre cfg post,
        Forall builtin (active pre) -> ModelConfig.Skip cfg = false -> ~ supported cfg ->
        InitializeModels NewGeminiModel (pre ++ cfg :: post) proxies
        = inr ("不支持的模型类型: " +:+ ModelConfig.Type_ cfg)).
Proof.
  unfold InitializeModels. split; [| split].
  - intros modelConfigs models H. by apply initializeLoop_inl in H.
  - intros modelConfigs H. by rewrite initializeLoop_builtin.
  - intros pre cfg post Hpre Hskip Hsup. by apply initializeLoop_unsupported.
Qed.

Lemma X16_witness :
  InitializeModels noGemini [variantCfg; skippedCfg; plainCfg] []
  = inl [BaseModel variantCfg; BaseModel plainCfg].
Proof.
  destruct (X16_InitializeModels noGemini []) as (_ & H & _).
  apply (H [variantCfg; skippedCfg; plainCfg]).
  change (active [variantCfg; skippedCfg; plainCfg]) with [variantCfg; plainCfg].
  apply Forall_cons. split; [by left |]. apply Forall_cons. split; [by right | constructor].
Defined.

(** X17.  In the engine [NewTestEngine] returns, the proxy map holds for
    each name the URL of the last proxy configured under that name (an
    earlier one of the same name is overwritten, a name not configured has no
    entry), and the result map is empty. *)
Theorem X17_NewTestEngine (testConfig : TestConfig) (models : list LLMModel)
    (prompt : PromptConfig) (proxies : list ProxyConfig) (name : string) :
  EngineSetup.proxies (NewTestEngine testConfig models prompt proxies) !! name
  = ProxyConfig.URL <$> lastNamed name proxies
  /\ results (engine (NewTestEngine testConfig models prompt proxies)) = ∅
  /\ config (engine (NewTestEngine testConfig models prompt proxies)) = testConfig
  /\ Engine.models (engine (NewTestEngine testConfig models prompt proxies)) = models.
Proof. split; [apply proxyMap_lookup | done]. Qed.

(** X18.  When [Run] returns a result map, the keys of the map are the keys
    [name-level] of the cells of the matrix: every cell has an entry, two
    cells of the same name and level share one, and the engine stores the
    same map. *)
Theorem X18_result_keys (World : Type)
    (runCell : LLMModel -> Z -> TestResult -> World -> World * TestResult * option string)
    (e e' : TestEngine) (w w' : World) (res : gmap string TestResult)
    (err : option string) :
  Run runCell e w = (w', e', (Some res, err)) ->
  err = None /\ results e' = res
  /\ dom res = list_to_set (cellKey <$> matrix (config e) (models e))
  /\ (size res <= length (matrix (config e) (models e)))%nat.
Proof.
  unfold Run. rewrite runModels_runCells.
  pose proof (runCells_completed runCell (matrix (config e) (models e)) ∅ w) as Hc.
  pose proof (runCells_dom runCell (matrix (config e) (models e)) ∅ w) as Hd.
  destruct (runCells runCell (matrix (config e) (models e)) ∅ w)
    as [[[w1 acc] completed] [[[mdl c] inner] |]]; cbn [loopOutcome]; [done |].
  intros [= <- <- <- <-]. cbn in Hd. subst completed.
  rewrite dom_empty_L, (left_id_L ∅ (∪)) in Hd.
  repeat split; [done |].
  rewrite <- size_dom, Hd.
  etransitivity; [apply size_list_to_set_le |]. by rewrite length_fmap.
Qed.

Lemma X18_witness :
  exists res,
    (Run noteCell engineEx []).2.1 = Some res
    /\ dom res = list_to_set (cellKey <$> matrix cfgEx [variant; plain]).
Proof.
  destruct (Run noteCell engineEx []) as [[w' e'] [[res |] err]] eqn:E;
    [| by vm_compute in E].
  exists res. split; [done |].
  by destruct (X18_result_keys _ noteCell engineEx e' [] w' res err E) as (_ & _ & Hdom & _).
Defined.

(** X19.  From the configuration to the cells.  When every model entry that
    is not skipped is of type openai or anthropic, the models
    [InitializeModels] builds, handed to [NewTestEngine] and [Run], are run
    entry by entry in the order of the file, each at its own
    [concurrency_levels] if it has any, else at the global list if that is
    not empty, else at the single global concurrency. *)
Theorem X19_configured_cells
    (NewGeminiModel : ModelConfig -> list ProxyConfig -> LLMModel + string)
    (cfg : Config) :
  Forall builtin (active (Models cfg)) ->
  exists models,
    InitializeModels NewGeminiModel (Models cfg) (Proxies cfg) = inl models
    /\ (Run noteCell (engine (NewTestEngine (Test cfg) models (Prompt cfg) (Proxies cfg))) []).1.1
       = flat_map (fun entry =>
                     pair (ModelConfig.Name entry)
                     <$> match ModelConfig.ConcurrencyLevels entry with
                         | _ :: _ => ModelConfig.ConcurrencyLevels entry
                         | [] =>
                             match Config.ConcurrencyLevels (Test cfg) with
                             | _ :: _ => Config.ConcurrencyLevels (Test cfg)
                             | [] => [Config.Concurrency (Test cfg)]
                             end
                         end)
                  (active (Models cfg)).
Proof.
  intros Hall. exists (BaseModel <$> active (Models cfg)).
  split; [unfold InitializeModels; by rewrite initializeLoop_builtin |].
  unfold Run. rewrite runModels_runCells. cbn [NewTestEngine engine config models].
  destruct (runCells_noteCell (matrix (Test cfg) (BaseModel <$> active (Models cfg))) ∅ [])
    as [acc ->].
  cbn [loopOutcome fst snd app]. unfold matrix. clear Hall acc.
  induction (active (Models cfg)) as [| entry entries IH]; [done |].
  cbn [fmap list_fmap flat_map]. rewrite fmap_app. f_equal; [| apply IH].
  rewrite <- list_fmap_compose. unfold resolveLevels, BaseModel. cbn.
  destruct (ModelConfig.ConcurrencyLevels entry); by apply list_fmap_ext.
Qed.

Lemma X19_witness :
  exists models,
    InitializeModels noGemini (Models parsedEx) (Proxies parsedEx) = inl models
    /\ (Run noteCell (engine (NewTestEngine (Test parsedEx) models (Prompt parsedEx)
                                           (Proxies parsedEx))) []).1.1
       = [("variant"%string, 5); ("variant"%string, 10);
          ("plain"%string, 10); ("plain"%string, 20); ("plain"%string, 50)].
Proof.
  apply (X19_configured_cells noGemini parsedEx).
  change (active (Models parsedEx)) with [variantCfg; plainCfg].
  apply Forall_cons. split; [by left |]. apply Forall_cons. split; [by right | constructor].
Defined.

(** X20.  [getAllPercentiles] returns, in strictly ascending order and each
    once, the percentiles for which some result has an entry (a result
    without a map adds none), whatever the order in which the maps are
    iterated. *)
Theorem X20_getAllPercentiles (range range' : gset Z -> list Z)
    (results : list TestResult) :
  (forall X, range X ≡ₚ elements X) -> (forall X, range' X ≡ₚ elements X) ->
  StronglySorted Z.lt (getAllPercentiles range results)
  /\ (forall p, p ∈ getAllPercentiles range results <-> reported results p)
  /\ getAllPercentiles range results = getAllPercentiles range' results.
Proof.
  intros Hr Hr'. split; [by apply getAllPercentiles_sorted |].
  split; [intros p; by apply getAllPercentiles_elem |].
  apply StronglySorted_lt_unique; [by apply getAllPercentiles_sorted .. |].
  intros p. by rewrite !getAllPercentiles_elem.
Qed.

Lemma X20_witness :
  getAllPercentiles elements
    [withPercentiles [99; 50]; newTestResult "n" 2; withPercentiles [90; 50]]
  = getAllPercentiles (fun X => reverse (elements X))
      [withPercentiles [99; 50]; newTestResult "n" 2; withPercentiles [90; 50]].
Proof.
  apply X20_getAllPercentiles; [done | intros X; apply reverse_Permutation].
Defined.

(** X21.  A cell can always finish.  At a concurrency level of at least 1,
    every execution of a cell can be continued (the timer fires, the
    invocations in flight return, the workers drain the channel) to the point
    where [wg.Wait()] returns; under the whole schedule
    [runTestWithConcurrency] gets past its concurrent phase. *)
Theorem X21_cell_can_finish (cfg : TestConfig) (c : Z) (result : TestResult)
    (h : heap) (s0 s : cell) (tr : list label) (elapsed : Z) :
  0 < c < 2 ^ 62 ->
  start c result h = Returned s0 -> run c tr s0 = Some s ->
  exists tr' s',
    run c (tr ++ tr') s0 = Some s' /\ disp s' = DJoined
    /\ is_Some (runTestWithConcurrency cfg c result h
                  {| sch_trace := tr ++ tr'; sch_elapsed := elapsed |}).
Proof.
  intros Hc Hstart Hrun.
  destruct (can_finish c s Hc (inv_run _ _ _ _ _ _ Hstart Hrun)) as (tr' & s' & Hrun' & Hd).
  exists tr', s'.
  assert (run c (tr ++ tr') s0 = Some s') as Hall by (by rewrite run_app, Hrun).
  split; [done |]. split; [done |].
  unfold runTestWithConcurrency. rewrite Hstart. cbn [sch_trace sch_elapsed].
  rewrite Hall, Hd. by destruct (finish cfg s' elapsed result) as [h' [r | p]].
Qed.

Lemma X21_witness :
  exists s0 s tr' s',
    start 2 (newTestResult "m" 2) ∅ = Returned s0
    /\ run 2 bothInvoking s0 = Some s
    /\ run 2 (bothInvoking ++ tr') s0 = Some s' /\ disp s' = DJoined.
Proof.
  destruct (start 2 (newTestResult "m" 2) ∅) as [s0 | p] eqn:E0; [| by vm_compute in E0].
  destruct (run 2 bothInvoking s0) as [s |] eqn:E1.
  2:{ vm_compute in E0. injection E0 as <-. by vm_compute in E1. }
  destruct (X21_cell_can_finish cfgEx 2 (newTestResult "m" 2) ∅ s0 s bothInvoking 0)
    as (tr' & s' & Hrun & Hd & _); [lia | exact E0 | exact E1 |].
  by exists s0, s, tr', s'.
Defined.

(** X22.  Back-pressure.  At every instant of a cell at level [c] the tokens
    sent and not yet turned into an outcome, buffered in the channel or held
    by a worker, number at most [3 * c], and account for the difference
    between the requests the dispatcher has sent and the outcomes counted
    (modulo [2^64], as the counters wrap). *)
Theorem X22_backlog_bound (c : Z) (result : TestResult) (h : heap) (s0 s : cell)
    (tr : list label) :
  0 <= c < 2 ^ 62 ->
  start c result h = Returned s0 -> run c tr s0 = Some s ->
  0 <= outstanding s <= 3 * c
  /\ (requestCount s + uncounted (disp s)
      - (successCount s + failedCount s) - outstanding s) mod 2 ^ 64 = 0.
Proof.
  intros Hc Hstart Hrun.
  destruct (inv_run _ _ _ _ _ _ Hstart Hrun) as [Htok _ _ _ _ _ Hcap Hpool].
  rewrite CellEdges.jobsCap_double in Hcap by done.
  pose proof (sumZ_bounds holdsToken (workers s) holdsToken_le) as Hheld.
  unfold outstanding. split; [lia |].
  set (a := requestCount s) in *. set (b := uncounted (disp s)) in *.
  set (x := successCount s) in *. set (y := failedCount s) in *.
  set (j := Z.of_nat (jobs s)) in *. set (t := sumZ holdsToken (workers s)) in *.
  clearbody a b x y j t. clear - Htok. lia64.
Qed.

Lemma X22_witness :
  exists s0 s,
    start 2 (newTestResult "m" 2) ∅ = Returned s0
    /\ run 2 bothInvoking s0 = Some s
    /\ 0 <= outstanding s <= 6.
Proof.
  destruct (start 2 (newTestResult "m" 2) ∅) as [s0 | p] eqn:E0; [| by vm_compute in E0].
  destruct (run 2 bothInvoking s0) as [s |] eqn:E1.
  2:{ vm_compute in E0. injection E0 as <-. by vm_compute in E1. }
  exists s0, s. split; [done |]. split; [done |].
  destruct (X22_backlog_bound 2 (newTestResult "m" 2) ∅ s0 s bothInvoking) as [H _];
    [lia | exact E0 | exact E1 |].
  exact H.
Defined.

(** X23.  The client a request goes through.  A model with a proxy name
    uses the client built for the last proxy of that name whose URL parsed;
    with no proxy name, with a name that no proxy carries, or when the URL of
    every proxy of that name failed to parse, it uses the default client,
    without an error. *)
Theorem X23_client_selection (Parse : string -> option string) (cfg : ModelConfig)
    (proxies : list ProxyConfig) :
  selectClient cfg (proxyClients Parse proxies)
  = if decide (ModelConfig.ProxyName cfg = EmptyString) then DefaultClient
    else match lastUsable Parse (ModelConfig.ProxyName cfg) proxies with
         | Some parsedURL => ProxyClient parsedURL
         | None => DefaultClient
         end.
Proof. unfold selectClient. by rewrite proxyClients_lookup. Qed.

(** X24.  A cell leaves the rest of the heap alone: every array that
    existed when [runTestWithConcurrency] was called (the [AllLatencies] of
    the results of earlier cells among them) has the same contents when it
    returns, and the array of the [AllLatencies] it stores is a new one. *)
Theorem X24_heap_frame (cfg : TestConfig) (c : Z) (result : TestResult)
    (h h' : heap) (sch : schedule) (r : TestResult) (err : option string) :
  runTestWithConcurrency cfg c result h sch = Some (h', Returned (r, err)) ->
  (forall l, l ∈ dom h -> h' !! l = h !! l)
  /\ (forall l, AllLatencies r = Some l -> l ∉ dom h).
Proof.
  intros (_ & s0 & s & Hstart & Hrun & Hd & Hfin)%runTestWithConcurrency_returned.
  destruct (framed_run _ _ _ _ _ _ Hstart Hrun) as [Hmem Hlat].
  destruct (finish_fields _ _ _ _ _ _ Hfin) as (_ & _ & _ & -> & _).
  split; [| done]. intros l Hl.
  rewrite (finish_frame _ _ _ _ _ _ l Hfin); [by apply Hmem |].
  apply elem_of_dom. rewrite Hmem by done. by apply elem_of_dom.
Qed.

Lemma X24_witness :
  exists h' r err,
    runTestWithConcurrency cfgEx 1 (newTestResult "m" 1) hEx schFail
      = Some (h', Returned (r, err))
    /\ h' !! 1%positive = hEx !! 1%positive.
Proof.
  destruct (runTestWithConcurrency cfgEx 1 (newTestResult "m" 1) hEx schFail)
    as [[h' [[r err] | p]] |] eqn:E; [| by vm_compute in E | by vm_compute in E].
  exists h', r, err. split; [done |].
  destruct (X24_heap_frame cfgEx 1 (newTestResult "m" 1) hEx h' schFail r err E) as [H _].
  apply H. by vm_compute.
Defined.
